(** * Tile resolver and JSON document store of the annotation tool

    A shallow embedding of the server side of the application and of
    the save handler that calls it (paths below [src/]):

    - [app/app/api/tiles/[...all]/route.ts]   (module [TilesRoute]),
    - [app/lib/data.ts]                       (module [Data]),
    - [app/app/api/substations/route.ts] and
      [app/app/api/polygons/route.ts]         (module [Api]),
    - [handleSavePolygon] of the completed-substations tab, in the
      version that saves through the routes ([unnamed/part_002])
                                              (module [CompleteTab]),

    together with the parts of the JavaScript runtime they call
    ([parseInt], [<<], template strings, [path.join], [path.parse],
    [JSON.parse], [JSON.stringify], [fs]). *)

From Stdlib Require Import ZArith NArith List String Ascii Bool Lia.
From Stdlib Require Import Decimal DecimalString DecimalN DecimalZ.
Import ListNotations.

Local Open Scope string_scope.
Local Open Scope Z_scope.

(* ================================================================== *)
(** * JavaScript primitives used by the tile route *)
(* ================================================================== *)

Module Js.

(** The numbers the tile route computes with are the results of
    [parseInt] and of [<<] and [-] on them: [NaN], an infinity, or a
    double whose value is an integer, held as that integer.  The two
    zeros are one [Num 0]: the route prints its numbers and takes
    them as a shift count, which does not tell the zeros apart, and
    the left operand of its subtractions is never the negative
    zero. *)
Inductive number : Type :=
| NaN
| Num (z : Z)
| Infinity (negative : bool).

(** The double of an integer: the integer itself below [2^53];
    above, the nearest number with a significand of 53 bits, the
    even one of two that are equally near; an infinity from
    [2^1024 - 2^970] on. *)
Definition round_to_double (z : Z) : number :=
  let a := Z.abs z in
  if a <? 2 ^ 53 then Num z
  else
    let e := Z.log2 a - 52 in
    let q := a / 2 ^ e in
    let r := a mod 2 ^ e in
    let half := 2 ^ (e - 1) in
    let q' := if r <? half then q
              else if half <? r then q + 1
              else if Z.even q then q else q + 1 in
    let m := q' * 2 ^ e in
    if 2 ^ 1024 <=? m then Infinity (z <? 0)
    else Num (Z.sgn z * m).

(** [StrWhiteSpaceChar], on code units below 256. *)
Definition isStrWhiteSpaceChar (c : ascii) : bool :=
  let n := nat_of_ascii c in
  ((9 <=? n)%nat && (n <=? 13)%nat) || (n =? 32)%nat || (n =? 160)%nat.

Fixpoint trimStart (s : string) : string :=
  match s with
  | String c s' => if isStrWhiteSpaceChar c then trimStart s' else s
  | EmptyString => EmptyString
  end.

Definition digit_of_char (c : ascii) : option (uint -> uint) :=
  match c with
  | "0"%char => Some D0 | "1"%char => Some D1 | "2"%char => Some D2
  | "3"%char => Some D3 | "4"%char => Some D4 | "5"%char => Some D5
  | "6"%char => Some D6 | "7"%char => Some D7 | "8"%char => Some D8
  | "9"%char => Some D9
  | _ => None
  end.

Definition is_digit (c : ascii) : bool :=
  match digit_of_char c with Some _ => true | None => false end.

Fixpoint all_digits (s : string) : bool :=
  match s with
  | EmptyString => true
  | String c s' => is_digit c && all_digits s'
  end.

(** The longest prefix of radix-10 digits. *)
Fixpoint scan_digits (s : string) : uint :=
  match s with
  | String c s' =>
      match digit_of_char c with
      | Some d => d (scan_digits s')
      | None => Nil
      end
  | EmptyString => Nil
  end.

(** [parseInt(s, 10)]: leading white space is skipped, one sign is
    taken, then the longest digit prefix; no digit gives [NaN].  With
    radix 10 no [0x] prefix is stripped.  The result is the double of
    the integer that the digits write (the engine rounds the whole
    digit string). *)
Definition parseInt (s : string) : number :=
  let trimmed := trimStart s in
  let '(sign, rest) :=
    match trimmed with
    | String "-"%char r => (-1, r)
    | String "+"%char r => (1, r)
    | _ => (1, trimmed)
    end in
  match scan_digits rest with
  | Nil => NaN
  | d => round_to_double (sign * Z.of_N (N.of_uint d))
  end.

(** [ToInt32] and [ToUint32]: [NaN] and the infinities go to 0, an
    integer is taken modulo [2^32]. *)
Definition wrap32 (z : Z) : Z :=
  let m := z mod 2 ^ 32 in
  if 2 ^ 31 <=? m then m - 2 ^ 32 else m.

Definition ToInt32 (x : number) : Z :=
  match x with Num z => wrap32 z | _ => 0 end.

Definition ToUint32 (x : number) : Z :=
  match x with Num z => z mod 2 ^ 32 | _ => 0 end.

(** [a << b]: the left operand as an int32, shifted by the low five
    bits of the right operand, the result again an int32. *)
Definition shl (a b : number) : number :=
  Num (wrap32 (Z.shiftl (ToInt32 a) (Z.land (ToUint32 b) 31))).

(** [a - b]: the double of the difference. *)
Definition sub (a b : number) : number :=
  match a, b with
  | Num x, Num y => round_to_double (x - y)
  | Infinity s, Num _ => Infinity s
  | Num _, Infinity s => Infinity (negb s)
  | Infinity s, Infinity s' => if Bool.eqb s s' then NaN else Infinity s
  | _, _ => NaN
  end.

(** [- a] *)
Definition opp (x : number) : number :=
  match x with
  | NaN => NaN
  | Num z => Num (- z)
  | Infinity negative => Infinity (negb negative)
  end.

(** ** Number to string, as a template literal does it *)

(** The decimal digits of a natural number. *)
Definition digits_of (s : Z) : string :=
  NilZero.string_of_uint (N.to_uint (Z.to_N s)).

(** The integer [v] has the double [a]. *)
Definition reads_as (a v : Z) : bool :=
  match round_to_double v with
  | Num r => r =? a
  | _ => false
  end.

(** The number [s] of [k] digits for which [s * 10^(n-k)] has the
    double [a], if there is one: the nearest to [a] of those, the
    even one of two that are equally near. *)
Definition candidate (a n k : Z) : option Z :=
  let p := 10 ^ (n - k) in
  let lo := a / p in
  let hi := lo + 1 in
  let ok s := (10 ^ (k - 1) <=? s) && (s <? 10 ^ k) && reads_as a (s * p) in
  match ok lo, ok hi with
  | true, true =>
      let below := 2 * (a - lo * p) in
      Some (if below <? p then lo
            else if p <? below then hi
            else if Z.even lo then lo else hi)
  | true, false => Some lo
  | false, true => Some hi
  | false, false => None
  end.

(** The least number of digits [k] that has a candidate, from [k]
    on, and the candidate. *)
Fixpoint search (a n k : Z) (fuel : nat) : Z * Z :=
  match fuel with
  | O => (a, n)
  | S fuel' =>
      match candidate a n k with
      | Some s => (s, k)
      | None => search a n (k + 1) fuel'
      end
  end.

Fixpoint zeros (n : nat) : string :=
  match n with
  | O => EmptyString
  | S n' => String "0" (zeros n')
  end.

(** The digits [s] with the decimal point after [n] places: written
    in full up to 21 places, with an exponent beyond. *)
Definition format (s k n : Z) : string :=
  if n <=? 21 then digits_of s ++ zeros (Z.to_nat (n - k))
  else
    match digits_of s with
    | String c EmptyString => String c ("e+" ++ digits_of (n - 1))
    | String c rest => String c ("." ++ rest ++ "e+" ++ digits_of (n - 1))
    | EmptyString => EmptyString
    end.

(** The shortest digits that have the double [a], for [a] from
    [2^53] on. *)
Definition shortest (a : Z) : string :=
  let d := Z.of_nat (String.length (digits_of a)) in
  if reads_as a (10 ^ d) then format 1 1 (d + 1)
  else let '(s, k) := search a d 1 (Z.to_nat d) in format s k d.

(** [Number::toString]: below [2^53] every integer is a double and
    has no shorter digits than its own; from there on the shortest
    digits that give the double back are written, with an exponent
    from [1e21] on. *)
Definition toString (x : number) : string :=
  match x with
  | NaN => "NaN"
  | Infinity false => "Infinity"
  | Infinity true => "-Infinity"
  | Num z =>
      if Z.abs z <? 2 ^ 53 then NilZero.string_of_int (Z.to_int z)
      else if z <? 0 then "-" ++ shortest (- z) else shortest z
  end.

End Js.

(* ================================================================== *)
(** * Node's [path] module (POSIX flavour) *)
(* ================================================================== *)

Module NodePath.

(** A normalized absolute path, held as the list of its segments:
    ["/srv/app"] is [["srv"; "app"]]. *)
Definition path : Type := list string.

Definition is_slash (c : ascii) : bool := Ascii.eqb c "/".
Definition is_dot (c : ascii) : bool := Ascii.eqb c ".".

(** The pieces of [s] between its slashes. *)
Fixpoint split_slash (s : string) : list string :=
  match s with
  | EmptyString => [EmptyString]
  | String c s' =>
      if is_slash c then EmptyString :: split_slash s'
      else match split_slash s' with
           | seg :: segs => String c seg :: segs
           | [] => [String c EmptyString]
           end
  end.

(** One step of [normalizeString] below the root: empty segments and
    ["."] vanish, [".."] removes the segment before it (and is
    dropped at the root), any other segment is appended. *)
Definition push_segment (p : path) (seg : string) : path :=
  if String.eqb seg EmptyString || String.eqb seg "." then p
  else if String.eqb seg ".." then removelast p
  else (p ++ [seg])%list.

(** [path.join(base, ...args)] for an absolute, normalized [base]. *)
Definition join (base : path) (args : list string) : path :=
  fold_left push_segment (flat_map split_slash args) base.

Fixpoint drop_slashes (l : list ascii) : list ascii :=
  match l with
  | c :: r => if is_slash c then drop_slashes r else l
  | [] => []
  end.

Fixpoint take_until_slash (l : list ascii) : list ascii :=
  match l with
  | c :: r => if is_slash c then [] else c :: take_until_slash r
  | [] => []
  end.

Fixpoint after_first_dot (l : list ascii) : option (list ascii) :=
  match l with
  | c :: r => if is_dot c then Some r else after_first_dot r
  | [] => None
  end.

(** [path.parse(p).name]: the last component of [p] without its
    extension.  There is no extension when the component has no dot,
    when its only dot is its first character, or when it is [".."]. *)
Definition parse_name (p : string) : string :=
  let rev_base := take_until_slash (drop_slashes (List.rev (list_ascii_of_string p))) in
  let base := string_of_list_ascii (List.rev rev_base) in
  match after_first_dot rev_base with
  | None => base
  | Some [] => base
  | Some before => if String.eqb base ".." then base
                   else string_of_list_ascii (List.rev before)
  end.

(** The text of a path, as a template literal shows it. *)
Definition to_string (p : path) : string := "/" ++ String.concat "/" p.

End NodePath.

(* ================================================================== *)
(** * [app/api/tiles/[...all]/route.ts] *)
(* ================================================================== *)

Module TilesRoute.
Import Js NodePath.

(** What a handler sends back. *)
Inductive body : Type :=
| Text (s : string)
| Buffer (bytes : list Byte.byte).

Record NextResponse : Type := mkResponse {
  status : Z;
  headers : list (string * string);
  payload : body
}.

(** What a request does besides answering. *)
Inductive event : Type :=
| console_log (line : string)
| console_error (line : string)
| readFileSync (p : path).

(** [fs.readFileSync] either returns the bytes or throws an error
    with a [code] (["ENOENT"], ["EACCES"], ["EISDIR"], ...). *)
Definition tile_store : Type := path -> string + list Byte.byte.

Definition CONVERT_Y_TO_TMS : bool := true.

(** [CONVERT_Y_TO_TMS ? (1 << z) - 1 - y : y] *)
Definition yToUse (z y : number) : number :=
  if CONVERT_Y_TO_TMS then sub (sub (shl (Num 1) z) (Num 1)) y else y.

(** [new NextResponse(text, { status })]: a response made from a
    string carries the content type of a text; the handler sets no
    header of its own on it.  (The names of headers do not depend on
    case; the one of the image is written as the handler writes
    it.) *)
Definition text_response (status : Z) (text : string) : NextResponse :=
  mkResponse status [("content-type", "text/plain;charset=UTF-8")] (Text text).

Definition invalid_format : NextResponse :=
  text_response 400
    "Invalid tile URL format. Expected /api/tiles/{id}/{z}/{x}/{y}.png".

Definition tile_not_found : NextResponse :=
  text_response 400 "Tile not found on server ".

Section Handler.

(** [process.cwd()], an absolute normalized path. *)
Variable cwd : path.

Definition TILE_BASE_PATH : path := join cwd ["public"; "tiles"].

(** The path the handler reads for four segments. *)
Definition finalFilePath (fullId zStr xStr yPng : string) : path :=
  let yStr := parse_name yPng in
  let z := parseInt zStr in
  let y := parseInt yStr in
  join TILE_BASE_PATH [fullId; zStr; xStr; toString (yToUse z y) ++ ".png"].

(** [GET].  [TILE_BASE_PATH] is never the empty string, so the
    branch that answers 500 for an unset base path is not taken. *)
Definition GET (fs : tile_store) (pathSegments : list string)
  : list event * NextResponse :=
  let received :=
    console_log ("TILE API - Request Received /api/tiles/"
                   ++ String.concat "/" pathSegments) in
  match pathSegments with
  | [fullId; zStr; xStr; yPng] =>
      let z := parseInt zStr in
      let y := parseInt (parse_name yPng) in
      let p := finalFilePath fullId zStr xStr yPng in
      let before_read :=
        [ received;
          console_log ("[TILE - DATA] y raw from front end " ++ yPng);
          console_log ("[TILE - DATA] y tms transformed " ++ toString (yToUse z y));
          console_log ("[TILE API - Reading] Attempting to read file: "
                         ++ to_string p);
          readFileSync p ] in
      match fs p with
      | inr fileBuffer =>
          ((before_read
              ++ [console_log
                    ("[TILE API - SUCCESS] Successfully read " ++ to_string p
                       ++ ". Sending image to browser.")])%list,
           mkResponse 200 [("Content-Type", "image/png")] (Buffer fileBuffer))
      | inl code =>
          ((before_read
              ++ [console_error
                    ("[TILE API - FAILED] Error reading file. Error code: " ++ code)])%list,
           tile_not_found)
      end
  | _ => ([received], invalid_format)
  end.

(** The files a request reads, in order. *)
Definition reads (tr : list event) : list path :=
  flat_map (fun e => match e with readFileSync p => [p] | _ => [] end) tr.

End Handler.

End TilesRoute.

(* ================================================================== *)
(** * JSON texts and values *)
(* ================================================================== *)

Module Json.

(** A JavaScript string is a sequence of UTF-16 code units. *)
Definition jsstring : Type := list N.

Definition ch (a : ascii) : N := N_of_ascii a.

(** The code units of an ASCII literal. *)
Definition js (s : string) : jsstring := List.map ch (list_ascii_of_string s).

Local Open Scope N_scope.
Local Open Scope list_scope.

(** ** Numbers

    [JSON.parse] and [JSON.stringify] turn number literals into
    doubles and back.  The doubles and the two conversions are those
    of the engine; they are taken as an interface.  Numbers are
    compared as [===] compares them (the two zeros are one number). *)
Definition is_number_char (c : N) : bool :=
  ((48 <=? c) && (c <=? 57))
  || (c =? ch "-") || (c =? ch "+") || (c =? ch ".")
  || (c =? ch "e") || (c =? ch "E").

Definition is_number_start (c : N) : bool :=
  ((48 <=? c) && (c <=? 57)) || (c =? ch "-").

Definition starts_number (s : jsstring) : bool :=
  match s with
  | c :: _ => is_number_start c
  | [] => false
  end.

Class NumberFormat : Type := {
  number : Type;
  (** [Number.isFinite] *)
  isFinite : number -> bool;
  (** [Number::toString] of a finite number: ["-111"], ["43.5"], ["1e+21"]. *)
  numberToString : number -> jsstring;
  (** The value of a JSON number literal (this may be an infinity,
      as for [1e999]); [None] when the text is not such a literal. *)
  literalToNumber : jsstring -> option number;
  (** A finite number is written as a literal that reads back as it. *)
  numberToString_chars :
    forall n, isFinite n = true ->
              forallb is_number_char (numberToString n) = true;
  numberToString_start :
    forall n, isFinite n = true -> starts_number (numberToString n) = true;
  literal_of_numberToString :
    forall n, isFinite n = true ->
              literalToNumber (numberToString n) = Some n
}.

Section Values.
Context {NF : NumberFormat}.

(** ** Values

    What [JSON.parse] returns.  An object is the list of its
    properties in the order [Object.keys] gives them. *)
Unset Elimination Schemes.
Inductive json : Type :=
| JNull
| JBool (b : bool)
| JNum (n : number)
| JStr (s : jsstring)
| JArr (elements : list json)
| JObj (members : list (jsstring * json)).
Set Elimination Schemes.

(** Induction on values, through the lists of arrays and objects. *)
Definition json_induction (P : json -> Prop)
  (Hnull : P JNull)
  (Hbool : forall b, P (JBool b))
  (Hnum : forall n, P (JNum n))
  (Hstr : forall s, P (JStr s))
  (Harr : forall l, Forall P l -> P (JArr l))
  (Hobj : forall m, Forall (fun kv => P (snd kv)) m -> P (JObj m))
  : forall v, P v :=
  fix go (v : json) : P v :=
    match v with
    | JNull => Hnull
    | JBool b => Hbool b
    | JNum n => Hnum n
    | JStr s => Hstr s
    | JArr l =>
        Harr l ((fix all (l : list json) : Forall P l :=
                   match l with
                   | [] => Forall_nil P
                   | x :: r => Forall_cons x (go x) (all r)
                   end) l)
    | JObj m =>
        Hobj m ((fix all (m : list (jsstring * json))
                  : Forall (fun kv => P (snd kv)) m :=
                   match m with
                   | [] => Forall_nil _
                   | kv :: r => Forall_cons kv (go (snd kv)) (all r)
                   end) m)
    end.

Definition object : Type := list (jsstring * json).

Definition jsstring_eqb (a b : jsstring) : bool :=
  if list_eq_dec N.eq_dec a b then true else false.

(** *** Property order

    An array index is a key that is the decimal text of an integer
    below [2^32 - 1] (["7"] is one, ["07"] and ["-1"] are not).
    The own properties of an object are listed with the array
    indices first, in ascending order, then the other keys in the
    order they were created. *)
Definition digit_value (c : N) : option N :=
  if (48 <=? c) && (c <=? 57) then Some (c - 48) else None.

Fixpoint decimal_value (acc : N) (s : jsstring) : option N :=
  match s with
  | [] => Some acc
  | c :: r =>
      match digit_value c with
      | Some d => decimal_value (10 * acc + d) r
      | None => None
      end
  end.

Definition decimal_text (i : N) : jsstring :=
  js (NilZero.string_of_uint (N.to_uint i)).

Definition array_index (k : jsstring) : option N :=
  match decimal_value 0 k with
  | Some i =>
      if (i <? 2 ^ 32 - 1) && jsstring_eqb (decimal_text i) k
      then Some i else None
  | None => None
  end.

Fixpoint has_key (k : jsstring) (o : object) : bool :=
  match o with
  | [] => false
  | (k', _) :: r => jsstring_eqb k' k || has_key k r
  end.

Fixpoint get (k : jsstring) (o : object) : option json :=
  match o with
  | [] => None
  | (k', v) :: r => if jsstring_eqb k' k then Some v else get k r
  end.

Fixpoint replace_value (k : jsstring) (v : json) (o : object) : object :=
  match o with
  | [] => []
  | (k', v') :: r =>
      if jsstring_eqb k' k then (k', v) :: r
      else (k', v') :: replace_value k v r
  end.

Fixpoint insert_index (i : N) (k : jsstring) (v : json) (o : object) : object :=
  match o with
  | [] => [(k, v)]
  | (k', v') :: r =>
      match array_index k' with
      | Some j => if j <? i then (k', v') :: insert_index i k v r
                  else (k, v) :: o
      | None => (k, v) :: o
      end
  end.

(** [o[k] = v] on an ordinary object. *)
Definition set (k : jsstring) (v : json) (o : object) : object :=
  if has_key k o then replace_value k v o
  else match array_index k with
       | Some i => insert_index i k v o
       | None => o ++ [(k, v)]
       end.

(** ** [JSON.stringify(value, null, gap)] *)

Definition hex_digit (d : N) : N :=
  if d <? 10 then 48 + d else 87 + d.

(** [UnicodeEscape]: [\u] and four lowercase hexadecimal digits. *)
Definition UnicodeEscape (c : N) : jsstring :=
  [ch "\"; ch "u";
   hex_digit (c / 4096 mod 16); hex_digit (c / 256 mod 16);
   hex_digit (c / 16 mod 16); hex_digit (c mod 16)].

Definition is_leading_surrogate (c : N) : bool :=
  (55296 <=? c) && (c <=? 56319).
Definition is_trailing_surrogate (c : N) : bool :=
  (56320 <=? c) && (c <=? 57343).

(** One code unit that is not part of a surrogate pair. *)
Definition quote_unit (c : N) : jsstring :=
  if c =? 8 then js "\b"
  else if c =? 9 then js "\t"
  else if c =? 10 then js "\n"
  else if c =? 12 then js "\f"
  else if c =? 13 then js "\r"
  else if c =? 34 then [ch "\"; 34]
  else if c =? 92 then js "\\"
  else if (c <? 32) || is_leading_surrogate c || is_trailing_surrogate c
       then UnicodeEscape c
  else [c].

Fixpoint quote_units (s : jsstring) : jsstring :=
  match s with
  | [] => []
  | c :: r =>
      match r with
      | d :: r' =>
          if is_leading_surrogate c && is_trailing_surrogate d
          then c :: d :: quote_units r'
          else quote_unit c ++ quote_units r
      | [] => quote_unit c
      end
  end.

(** [QuoteJSONString] *)
Definition QuoteJSONString (s : jsstring) : jsstring :=
  34 :: quote_units s ++ [34].

Fixpoint join (sep : jsstring) (parts : list jsstring) : jsstring :=
  match parts with
  | [] => []
  | [p] => p
  | p :: rest => p ++ sep ++ join sep rest
  end.

Definition is_empty (s : jsstring) : bool :=
  match s with [] => true | _ => false end.

(** What [SerializeJSONArray] and [SerializeJSONObject] put around
    the serialized parts. *)
Definition wrap (opening closing : N) (gap stepback indent : jsstring)
           (partial : list jsstring) : jsstring :=
  match partial with
  | [] => [opening; closing]
  | _ =>
      if is_empty gap then opening :: join [ch ","] partial ++ [closing]
      else opening :: 10 :: indent
             ++ join (ch "," :: 10 :: indent) partial
             ++ 10 :: stepback ++ [closing]
  end.

(** [SerializeJSONProperty] with the current indentation. *)
Fixpoint serialize (gap indent : jsstring) (v : json) : jsstring :=
  match v with
  | JNull => js "null"
  | JBool true => js "true"
  | JBool false => js "false"
  | JNum n => if isFinite n then numberToString n else js "null"
  | JStr s => QuoteJSONString s
  | JArr elements =>
      wrap (ch "[") (ch "]") gap indent (indent ++ gap)
           (List.map (serialize gap (indent ++ gap)) elements)
  | JObj members =>
      wrap (ch "{") (ch "}") gap indent (indent ++ gap)
           (List.map
              (fun kv =>
                 QuoteJSONString (fst kv) ++ ch ":"
                   :: (if is_empty gap then [] else [32])
                   ++ serialize gap (indent ++ gap) (snd kv))
              members)
  end.

(** [JSON.stringify(value)] and [JSON.stringify(value, null, 2)]. *)
Definition stringify (v : json) : jsstring := serialize [] [] v.
Definition stringify2 (v : json) : jsstring := serialize [32; 32] [] v.

(** ** [JSON.parse(text)]

    The text is read one code unit at a time.  The reader keeps the
    containers that are still open and what it is in the middle
    of. *)
Inductive container : Type :=
| CArr (elements_rev : list json)
| CObj (members : object) (key : option jsstring).

Inductive mode : Type :=
| Value (first : bool)
    (* a value is due; [first]: right after [[], so []] may come *)
| Key (first : bool)
    (* a key is due; [first]: right after [{], so [}] may come *)
| Colon
| After
    (* a value has ended inside a container *)
| Done (v : json)
    (* the top-level value has ended *)
| InString (is_key : bool) (acc_rev : jsstring)
| InEscape (is_key : bool) (acc_rev : jsstring)
| InHex (is_key : bool) (acc_rev : jsstring) (digits_left : nat) (value : N)
| InNumber (acc_rev : jsstring)
| InLiteral (rest : jsstring) (v : json)
| Failed.

Definition reader : Type := list container * mode.

Definition is_whitespace (c : N) : bool :=
  (c =? 32) || (c =? 9) || (c =? 10) || (c =? 13).

Definition hex_value (c : N) : option N :=
  if (48 <=? c) && (c <=? 57) then Some (c - 48)
  else if (97 <=? c) && (c <=? 102) then Some (c - 87)
  else if (65 <=? c) && (c <=? 70) then Some (c - 55)
  else None.

(** A value has been read. *)
Definition complete (v : json) (stack : list container) : reader :=
  match stack with
  | [] => ([], Done v)
  | CArr acc :: outer => (CArr (v :: acc) :: outer, After)
  | CObj done (Some k) :: outer => (CObj (set k v done) None :: outer, After)
  | CObj _ None :: _ => (stack, Failed)
  end.

(** A string has been read: a key or a value. *)
Definition complete_string (is_key : bool) (s : jsstring)
           (stack : list container) : reader :=
  if is_key then
    match stack with
    | CObj done None :: outer => (CObj done (Some s) :: outer, Colon)
    | _ => (stack, Failed)
    end
  else complete (JStr s) stack.

Definition start_literal (word : string) (v : json)
           (stack : list container) : reader :=
  (stack, InLiteral (List.tl (js word)) v).

Definition step_value (first : bool) (stack : list container) (c : N) : reader :=
  if is_whitespace c then (stack, Value first)
  else if c =? ch "[" then (CArr [] :: stack, Value true)
  else if c =? ch "{" then (CObj [] None :: stack, Key true)
  else if c =? 34 then (stack, InString false [])
  else if is_number_start c then (stack, InNumber [c])
  else if c =? ch "t" then start_literal "true" (JBool true) stack
  else if c =? ch "f" then start_literal "false" (JBool false) stack
  else if c =? ch "n" then start_literal "null" JNull stack
  else if (c =? ch "]") && first then
         match stack with
         | CArr [] :: outer => complete (JArr []) outer
         | _ => (stack, Failed)
         end
  else (stack, Failed).

Definition step_key (first : bool) (stack : list container) (c : N) : reader :=
  if is_whitespace c then (stack, Key first)
  else if c =? 34 then (stack, InString true [])
  else if (c =? ch "}") && first then
         match stack with
         | CObj [] None :: outer => complete (JObj []) outer
         | _ => (stack, Failed)
         end
  else (stack, Failed).

Definition step_colon (stack : list container) (c : N) : reader :=
  if is_whitespace c then (stack, Colon)
  else if c =? ch ":" then (stack, Value false)
  else (stack, Failed).

Definition step_after (stack : list container) (c : N) : reader :=
  if is_whitespace c then (stack, After)
  else match stack with
       | CArr acc :: outer =>
           if c =? ch "," then (stack, Value false)
           else if c =? ch "]" then complete (JArr (List.rev acc)) outer
           else (stack, Failed)
       | CObj done None :: outer =>
           if c =? ch "," then (stack, Key false)
           else if c =? ch "}" then complete (JObj done) outer
           else (stack, Failed)
       | _ => (stack, Failed)
       end.

Definition step_done (v : json) (stack : list container) (c : N) : reader :=
  if is_whitespace c then (stack, Done v) else (stack, Failed).

Definition step_string (is_key : bool) (acc : jsstring)
           (stack : list container) (c : N) : reader :=
  if c =? 34 then complete_string is_key (List.rev acc) stack
  else if c =? 92 then (stack, InEscape is_key acc)
  else if c <? 32 then (stack, Failed)
  else (stack, InString is_key (c :: acc)).

Definition step_escape (is_key : bool) (acc : jsstring)
           (stack : list container) (c : N) : reader :=
  if (c =? 34) || (c =? 92) || (c =? ch "/") then (stack, InString is_key (c :: acc))
  else if c =? ch "b" then (stack, InString is_key (8 :: acc))
  else if c =? ch "f" then (stack, InString is_key (12 :: acc))
  else if c =? ch "n" then (stack, InString is_key (10 :: acc))
  else if c =? ch "r" then (stack, InString is_key (13 :: acc))
  else if c =? ch "t" then (stack, InString is_key (9 :: acc))
  else if c =? ch "u" then (stack, InHex is_key acc 4 0)
  else (stack, Failed).

Definition step_hex (is_key : bool) (acc : jsstring) (remaining : nat) (value : N)
           (stack : list container) (c : N) : reader :=
  match hex_value c with
  | Some d =>
      match remaining with
      | S O => (stack, InString is_key ((16 * value + d) :: acc))
      | S n => (stack, InHex is_key acc n (16 * value + d))
      | O => (stack, Failed)
      end
  | None => (stack, Failed)
  end.

(** After a value the reader is in [After] or [Done]; the code unit
    that ended a number is read there. *)
Definition step_ended (r : reader) (c : N) : reader :=
  match r with
  | (stack, After) => step_after stack c
  | (stack, Done v) => step_done v stack c
  | (stack, _) => (stack, Failed)
  end.

Definition end_number (acc : jsstring) (stack : list container) : reader :=
  match literalToNumber (List.rev acc) with
  | Some n => complete (JNum n) stack
  | None => (stack, Failed)
  end.

Definition step_number (acc : jsstring) (stack : list container) (c : N) : reader :=
  if is_number_char c then (stack, InNumber (c :: acc))
  else step_ended (end_number acc stack) c.

Definition step_literal (rest : jsstring) (v : json)
           (stack : list container) (c : N) : reader :=
  match rest with
  | x :: more =>
      if c =? x then
        match more with
        | [] => complete v stack
        | _ => (stack, InLiteral more v)
        end
      else (stack, Failed)
  | [] => (stack, Failed)
  end.

Definition step (r : reader) (c : N) : reader :=
  let (stack, m) := r in
  match m with
  | Value first => step_value first stack c
  | Key first => step_key first stack c
  | Colon => step_colon stack c
  | After => step_after stack c
  | Done v => step_done v stack c
  | InString k acc => step_string k acc stack c
  | InEscape k acc => step_escape k acc stack c
  | InHex k acc remaining value => step_hex k acc remaining value stack c
  | InNumber acc => step_number acc stack c
  | InLiteral rest v => step_literal rest v stack c
  | Failed => (stack, Failed)
  end.

Definition read (r : reader) (text : jsstring) : reader :=
  fold_left step text r.

(** At the end of the text a number may still be open. *)
Definition finish (r : reader) : option json :=
  match r with
  | ([], Done v) => Some v
  | ([], InNumber acc) =>
      match end_number acc [] with
      | ([], Done v) => Some v
      | _ => None
      end
  | _ => None
  end.

(** [JSON.parse(text)]; [None] stands for the [SyntaxError]. *)
Definition parse (text : jsstring) : option json :=
  finish (read ([], Value false) text).

(** ** Values that [JSON.stringify] writes without loss *)

(** Every number is finite (another one is written as [null]). *)
Fixpoint finite_numbers (v : json) : bool :=
  match v with
  | JNum n => isFinite n
  | JArr elements => forallb finite_numbers elements
  | JObj members => forallb (fun kv => finite_numbers (snd kv)) members
  | _ => true
  end.

(** [k1] is listed before [k2] among the own properties of an
    object that has both. *)
Definition key_before (k1 k2 : jsstring) : bool :=
  match array_index k1, array_index k2 with
  | Some i, Some j => i <? j
  | Some _, None => true
  | None, Some _ => false
  | None, None => negb (jsstring_eqb k1 k2)
  end.

Fixpoint ordered_keys (ks : list jsstring) : bool :=
  match ks with
  | [] => true
  | k :: r => forallb (key_before k) r && ordered_keys r
  end.

(** Every object lists its properties as a JavaScript object does:
    no key twice, array indices first and ascending. *)
Fixpoint property_order (v : json) : bool :=
  match v with
  | JArr elements => forallb property_order elements
  | JObj members =>
      ordered_keys (List.map fst members)
      && forallb (fun kv => property_order (snd kv)) members
  | _ => true
  end.

Definition well_formed (v : json) : bool :=
  finite_numbers v && property_order v.

(** What [JSON.stringify] keeps of a value: a number that is not
    finite becomes [null]. *)
Fixpoint written (v : json) : json :=
  match v with
  | JNum n => if isFinite n then v else JNull
  | JArr elements => JArr (List.map written elements)
  | JObj members =>
      JObj (List.map (fun kv => (fst kv, written (snd kv))) members)
  | _ => v
  end.

(** ** Notions about the reader *)

(** Modes in which white space is skipped. *)
Definition skips (m : mode) : bool :=
  match m with
  | Value _ | Key _ | Colon | After | Done _ => true
  | _ => false
  end.

(** The text that follows a number ends it. *)
Definition delimited (rest : jsstring) : bool :=
  match rest with
  | c :: _ => negb (is_number_char c)
  | [] => false
  end.

Definition blank (s : jsstring) : bool := forallb is_whitespace s.

Definition is_number (v : json) : bool :=
  match v with JNum _ => true | _ => false end.

(** [v], written with any indentation, is read back in any
    context; a number needs a code unit after it that ends it. *)
Definition reads_back (v : json) : Prop :=
  forall gap indent stack first rest,
    blank gap = true -> blank indent = true ->
    (is_number v = true -> delimited rest = true) ->
    read (stack, Value first) (serialize gap indent v ++ rest)
    = read (complete v stack) rest.

(** The text of one member of an object. *)
Definition member (gap indent : jsstring) (kv : jsstring * json) : jsstring :=
  QuoteJSONString (fst kv) ++ ch ":"
    :: (if is_empty gap then [] else [32]) ++ serialize gap indent (snd kv).

(** What the reader holds lists its properties in order. *)
Definition container_ok (c : container) : bool :=
  match c with
  | CArr acc => forallb property_order acc
  | CObj done _ => property_order (JObj done)
  end.

Definition mode_ok (m : mode) : bool :=
  match m with
  | Done v | InLiteral _ v => property_order v
  | _ => true
  end.

Definition reader_ok (r : reader) : bool :=
  forallb container_ok (fst r) && mode_ok (snd r).

End Values.
End Json.

(* ================================================================== *)
(** * A number format: the integers *)
(* ================================================================== *)

(** The part of the engine's numbers whose literals have neither a
    fraction nor a negative exponent: the integers (exact as doubles
    up to [2^53]) and the two infinities, which literals of
    magnitude [2^1024] or more denote.  Other literals are not given a
    value by this format.  A magnitude is below [2^1024] when its
    binary logarithm is below 1024. *)
Module IntegerNumbers.
Import Json.
Local Open Scope list_scope.

Inductive num : Type :=
| Int (z : Z)
| Infinity (negative : bool).

Definition finite (n : num) : bool :=
  match n with
  | Int z => Z.log2 (Z.abs z) <? 1024
  | Infinity _ => false
  end.

(** [Number::toString] of an integer below [1e21]: its decimal
    digits after its sign. *)
Definition print (n : num) : jsstring :=
  match n with
  | Int z => (if z <? 0 then [45%N] else []) ++ decimal_text (Z.abs_N z)
  | Infinity false => js "Infinity"
  | Infinity true => js "-Infinity"
  end.

Definition digit_of_unit (c : N) : option (uint -> uint) :=
  match c with
  | 48%N => Some D0 | 49%N => Some D1 | 50%N => Some D2 | 51%N => Some D3
  | 52%N => Some D4 | 53%N => Some D5 | 54%N => Some D6 | 55%N => Some D7
  | 56%N => Some D8 | 57%N => Some D9
  | _ => None
  end.

Definition plain_digit (c : N) : bool :=
  match digit_of_unit c with Some _ => true | None => false end.

Fixpoint scan_uint (s : jsstring) : option uint :=
  match s with
  | [] => Some Nil
  | c :: r =>
      match digit_of_unit c, scan_uint r with
      | Some d, Some u => Some (d u)
      | _, _ => None
      end
  end.

(** [DecimalDigits]: one digit at least. *)
Definition digits (s : jsstring) : option Z :=
  match s, scan_uint s with
  | _ :: _, Some u => Some (Z.of_N (N.of_uint u))
  | _, _ => None
  end.

(** The integer part of a literal: [0], or digits that do not start
    with [0]. *)
Definition integer_part (s : jsstring) : option Z :=
  match s with
  | c :: _ :: _ => if (c =? 48)%N then None else digits s
  | _ => digits s
  end.

Definition mantissa (s : jsstring) : option Z :=
  match s with
  | c :: r => if (c =? 45)%N then option_map Z.opp (integer_part r)
              else integer_part s
  | [] => None
  end.

Definition exponent (s : jsstring) : option Z :=
  match s with
  | c :: r => if (c =? 45)%N then option_map Z.opp (digits r)
              else if (c =? 43)%N then digits r
              else digits s
  | [] => None
  end.

Fixpoint split_exponent (s : jsstring) : jsstring * option jsstring :=
  match s with
  | [] => ([], None)
  | c :: r =>
      if ((c =? 101) || (c =? 69))%N then ([], Some r)
      else let (m, e) := split_exponent r in (c :: m, e)
  end.

Definition of_integer (v : Z) : num :=
  if 1024 <=? Z.log2 (Z.abs v) then Infinity (v <? 0) else Int v.

(** The value of a literal [-? int (e|E) (+|-)? digits]. *)
Definition read (s : jsstring) : option num :=
  let (m, e) := split_exponent s in
  match mantissa m, e with
  | Some mz, None => Some (of_integer mz)
  | Some mz, Some es =>
      match exponent es with
      | Some ez => if ez <? 0 then None else Some (of_integer (mz * 10 ^ ez))
      | None => None
      end
  | None, _ => None
  end.

End IntegerNumbers.

(* ================================================================== *)
(** * The data directory and [fs/promises] *)
(* ================================================================== *)

Module Fs.
Import Json.

(** What is thrown: a file-system error carries a [code]
    (["ENOENT"], ["EACCES"], ...); the others do not. *)
Inductive error : Type :=
| ErrnoException (code : string)
| SyntaxError
| TypeError
| Error (message : jsstring).

(** [error.code] *)
Definition code (e : error) : option string :=
  match e with
  | ErrnoException c => Some c
  | _ => None
  end.

(** [error.code === c] *)
Definition code_is (e : error) (c : string) : bool :=
  match code e with
  | Some x => String.eqb x c
  | None => false
  end.

(** The two files of [app/lib/data.ts], both in the data directory. *)
Inductive file : Type :=
| substations_json
| component_polygons_json.

(** The calls that can fail.  [fs.writeFile] is two of them: it
    opens the file with the flag [w], which creates it or cuts it to
    length zero, and then writes the text into it. *)
Inductive operation : Type :=
| access_directory
| mkdir_directory
| access_file (f : file)
| read_file (f : file)
| open_file (f : file)
| write_file (f : file).

(** The data directory: absent, or present with the text of each
    file that exists in it. *)
Record directory : Type := mkDirectory {
  substations : option jsstring;
  component_polygons : option jsstring
}.

(** The disk, and the faults of the medium: an operation that has a
    fault fails with that code whatever the directory holds.  A
    write that fails has put the first [cut] code units of its text
    into the file that it has opened (none when the disk is full at
    once, the first block when it fills up on the way). *)
Record disk : Type := mkDisk {
  data : option directory;
  fault : operation -> option string;
  cut : nat
}.

Definition content (f : file) (d : directory) : option jsstring :=
  match f with
  | substations_json => substations d
  | component_polygons_json => component_polygons d
  end.

Definition with_content (f : file) (text : jsstring) (d : directory) : directory :=
  match f with
  | substations_json => mkDirectory (Some text) (component_polygons d)
  | component_polygons_json => mkDirectory (substations d) (Some text)
  end.

(** A computation that may throw and may change the disk. *)
Definition M (A : Type) : Type := disk -> (error + A) * disk.

Definition ret {A} (a : A) : M A := fun w => (inr a, w).
Definition throw {A} (e : error) : M A := fun w => (inl e, w).

Definition bind {A B} (m : M A) (k : A -> M B) : M B :=
  fun w =>
    match m w with
    | (inr a, w') => k a w'
    | (inl e, w') => (inl e, w')
    end.

(** [try { m } catch (error) { handler }] *)
Definition try_catch {A} (m : M A) (handler : error -> M A) : M A :=
  fun w =>
    match m w with
    | (inr a, w') => (inr a, w')
    | (inl e, w') => handler e w'
    end.

Definition ENOENT : error := ErrnoException "ENOENT".

(** An operation with a fault throws it; otherwise it does [normal]. *)
Definition guarded {A} (op : operation) (normal : M A) : M A :=
  fun w =>
    match fault w op with
    | Some c => (inl (ErrnoException c), w)
    | None => normal w
    end.

(** [fs.access(dataDir)] *)
Definition access_dir : M unit :=
  guarded access_directory
    (fun w => match data w with
              | Some _ => (inr tt, w)
              | None => (inl ENOENT, w)
              end).

(** [fs.mkdir(dataDir, { recursive: true })] *)
Definition mkdir : M unit :=
  guarded mkdir_directory
    (fun w => match data w with
              | Some _ => (inr tt, w)
              | None => (inr tt, mkDisk (Some (mkDirectory None None))
                                   (fault w) (cut w))
              end).

(** [fs.access(filePath)] *)
Definition access (f : file) : M unit :=
  guarded (access_file f)
    (fun w => match data w with
              | Some d => match content f d with
                          | Some _ => (inr tt, w)
                          | None => (inl ENOENT, w)
                          end
              | None => (inl ENOENT, w)
              end).

(** [fs.readFile(filePath, 'utf8')] *)
Definition readFile (f : file) : M jsstring :=
  guarded (read_file f)
    (fun w => match data w with
              | Some d => match content f d with
                          | Some text => (inr text, w)
                          | None => (inl ENOENT, w)
                          end
              | None => (inl ENOENT, w)
              end).

(** The first step of [fs.writeFile]: the file is opened with the
    flag [w]; it is created when it does not exist and cut to
    length zero when it does.  When the open fails nothing has
    changed. *)
Definition open_w (f : file) : M unit :=
  guarded (open_file f)
    (fun w => match data w with
              | Some d => (inr tt, mkDisk (Some (with_content f [] d))
                                     (fault w) (cut w))
              | None => (inl ENOENT, w)
              end).

(** The second step: the text is written into the open file.  When
    the write fails the file keeps what had been written until
    then, counted here in code units of the text (the bytes of one
    character are not taken apart). *)
Definition write_all (f : file) (text : jsstring) : M unit :=
  fun w =>
    match data w with
    | Some d =>
        match fault w (write_file f) with
        | Some c =>
            (inl (ErrnoException c),
             mkDisk (Some (with_content f (firstn (cut w) text) d))
               (fault w) (cut w))
        | None =>
            (inr tt, mkDisk (Some (with_content f text d)) (fault w) (cut w))
        end
    | None => (inl ENOENT, w)
    end.

(** [fs.writeFile(filePath, text)] *)
Definition writeFile (f : file) (text : jsstring) : M unit :=
  bind (open_w f) (fun _ => write_all f text).

End Fs.

Declare Scope fs_scope.
Delimit Scope fs_scope with fs.
Notation "x <- m ;; k" := (Fs.bind m (fun x => k))
  (at level 61, m at next level, right associativity) : fs_scope.
Notation "m ;; k" := (Fs.bind m (fun _ => k))
  (at level 61, right associativity) : fs_scope.

(* ================================================================== *)
(** * [app/lib/data.ts] *)
(* ================================================================== *)

Module Data.
Import Json Fs.
Local Open Scope fs_scope.

Section Data.
Context {NF : NumberFormat}.

Definition substationsPath : file := substations_json.
Definition polygonsPath : file := component_polygons_json.

Definition ensureDataDir : M unit :=
  try_catch access_dir (fun _ => mkdir).

(** [JSON.parse(data)], which throws a [SyntaxError]. *)
Definition JSON_parse (text : jsstring) : M json :=
  match parse text with
  | Some v => ret v
  | None => throw SyntaxError
  end.

Definition readJsonFile (filePath : file) : M json :=
  try_catch
    (ensureDataDir ;;
     access filePath ;;
     data <- readFile filePath ;;
     JSON_parse data)
    (fun error =>
       if code_is error "ENOENT" then ret (JArr [])
       else throw error).

Definition getSubstations : M json := readJsonFile substationsPath.
Definition getComponentPolygons : M json := readJsonFile polygonsPath.

Definition writeSubstations (data : json) : M unit :=
  ensureDataDir ;;
  writeFile substationsPath (stringify2 data).

Definition writeComponentPolygons (data : json) : M unit :=
  ensureDataDir ;;
  writeFile polygonsPath (stringify2 data).

End Data.
End Data.

(* ================================================================== *)
(** * [app/api/substations/route.ts] and [app/api/polygons/route.ts] *)
(* ================================================================== *)

Module Api.
Import Json Fs Data.
Local Open Scope fs_scope.

(** A response made by [NextResponse.json]: a status and the text of
    the JSON body. *)
Record Response : Type := mkResponse {
  status : Z;
  body : jsstring
}.

(** [response.ok] *)
Definition ok (r : Response) : bool := (200 <=? status r) && (status r <=? 299).

(** A request: the text of its body, or nothing when the body could
    not be read to its end. *)
Record Request : Type := mkRequest {
  text : option jsstring
}.

Section Routes.
Context {NF : NumberFormat}.

Definition NextResponse_json (v : json) (status : Z) : Response :=
  mkResponse status (stringify v).

Definition message (s : string) : json :=
  JObj [(js "message", JStr (js s))].

(** [await request.json()] *)
Definition request_json (request : Request) : M json :=
  match text request with
  | Some t => JSON_parse t
  | None => throw TypeError
  end.

End Routes.

Module Substations.
Section Handlers.
Context {NF : NumberFormat}.

Definition GET : M Response :=
  try_catch
    (substations <- getSubstations ;;
     ret (NextResponse_json substations 200))
    (fun _ =>
       ret (NextResponse_json (message "Error reading substations file") 500)).

Definition POST (request : Request) : M Response :=
  try_catch
    (body <- request_json request ;;
     writeSubstations body ;;
     ret (NextResponse_json (message "Substations updated successfully") 200))
    (fun _ =>
       ret (NextResponse_json (message "Error writing substations file") 500)).

End Handlers.
End Substations.

Module Polygons.
Section Handlers.
Context {NF : NumberFormat}.

Definition GET : M Response :=
  try_catch
    (polygons <- getComponentPolygons ;;
     ret (NextResponse_json polygons 200))
    (fun _ =>
       ret (NextResponse_json (message "Error reading polygons file") 500)).

Definition POST (request : Request) : M Response :=
  try_catch
    (body <- request_json request ;;
     writeComponentPolygons body ;;
     ret (NextResponse_json (message "Polygons updated successfully") 200))
    (fun _ =>
       ret (NextResponse_json (message "Error writing polygons file") 500)).

End Handlers.
End Polygons.

End Api.

(* ================================================================== *)
(** * Vocabulary for the document store *)
(* ================================================================== *)

Module Store.
Import Json Fs Data Api.
Local Open Scope fs_scope.

Section Store.
Context {NF : NumberFormat}.

(** The steps inside the [try] of [readJsonFile]. *)
Definition read_steps (filePath : file) : M json :=
  ensureDataDir ;;
  access filePath ;;
  data <- readFile filePath ;;
  JSON_parse data.

(** The body of the two write functions. *)
Definition write_steps (filePath : file) (value : json) : M unit :=
  ensureDataDir ;;
  writeFile filePath (stringify2 value).

Definition no_faults (w : disk) : Prop := forall op, fault w op = None.

Definition absent (f : file) (w : disk) : Prop :=
  match data w with
  | Some d => content f d = None
  | None => True
  end.

Definition stored (f : file) (w : disk) : option jsstring :=
  match data w with
  | Some d => content f d
  | None => None
  end.

Definition error_reading (what : string) : Response :=
  NextResponse_json (message what) 500.

Definition request_value (request : Request) : option json :=
  match text request with
  | Some t => parse t
  | None => None
  end.

(** What the routes of one collection do with a posted body: the
    answer is 500 exactly when the body has no JSON value or the
    write throws; otherwise the value is stored, whatever its
    shape, and the answer is 200; the read that follows gives the
    value back, with [null] for a number that is not finite. *)
Definition stores_unvalidated
           (f : file) (POST : Request -> M Response) (GET : M Response)
           (write : json -> M unit) (read : M json)
           (saved failed : Response) : Prop :=
  forall (w : disk) (request : Request),
    status saved = 200 /\ status failed = 500
    /\ (fst (POST request w) = inr failed <->
          request_value request = None
          \/ exists v e, request_value request = Some v
                         /\ fst (write v w) = inl e)
    /\ (request_value request = None -> POST request w = (inr failed, w))
    /\ (forall v,
          request_value request = Some v -> fst (write v w) = inr tt ->
          let w' := snd (POST request w) in
          fst (POST request w) = inr saved
          /\ stored f w' = Some (stringify2 v)
          /\ (fault w (access_file f) = None ->
              fault w (read_file f) = None ->
              read w' = (inr (written v), w')
              /\ GET w' = (inr (NextResponse_json v 200), w')
              /\ (finite_numbers v = true -> read w' = (inr v, w')))).

End Store.
End Store.

(* ================================================================== *)
(** * A request that is served while a write is going on *)
(* ================================================================== *)

Module Concurrent.
Import Json Fs Data Api Store.
Local Open Scope fs_scope.
Local Open Scope list_scope.

Section Concurrent.
Context {NF : NumberFormat}.




Definition unread (f : file) : Response :=
  match f with
  | substations_json => error_reading "Error reading substations file"
  | component_polygons_json => error_reading "Error reading polygons file"
  end.


End Concurrent.
End Concurrent.

(* ================================================================== *)
(** * [handleSavePolygon] of the completed-substations tab
       ([unnamed/part_002]) *)
(* ================================================================== *)

Module CompleteTab.
Import Json Fs Api.
Local Open Scope N_scope.
Local Open Scope list_scope.

(** ** String methods *)

(** White space and line terminators, as [trim] removes them. *)
Definition is_trimmed (c : N) : bool :=
  ((9 <=? c) && (c <=? 13)) || (c =? 32) || (c =? 160) || (c =? 5760)
  || ((8192 <=? c) && (c <=? 8202)) || (c =? 8232) || (c =? 8233)
  || (c =? 8239) || (c =? 8287) || (c =? 12288) || (c =? 65279).

Fixpoint trimStart (s : jsstring) : jsstring :=
  match s with
  | c :: r => if is_trimmed c then trimStart r else s
  | [] => []
  end.

Definition trim (s : jsstring) : jsstring :=
  List.rev (trimStart (List.rev (trimStart s))).

Fixpoint startsWith (s prefix : jsstring) : bool :=
  match prefix, s with
  | [], _ => true
  | p :: prefix', c :: s' => (c =? p) && startsWith s' prefix'
  | _ :: _, [] => false
  end.

(** The strings a string iterates over: one per code point. *)
Fixpoint code_points (s : jsstring) : list jsstring :=
  match s with
  | [] => []
  | c :: r =>
      match r with
      | d :: r' =>
          if is_leading_surrogate c && is_trailing_surrogate d
          then [c; d] :: code_points r'
          else [c] :: code_points r
      | [] => [[c]]
      end
  end.

(** ** Records of [app/lib/types.ts]

    An optional or nullable string is an [option]; a geometry is a
    GeoJSON object, or nothing. *)
Module SubstationData.
Section Fields.
Context {NF : NumberFormat}.

Record t : Type := make {
  id : jsstring;
  full_id : option jsstring;
  name : option jsstring;
  substation_type : option jsstring;
  geometry : option object;
  created_at : jsstring;
  completed : bool;
  tile_url_template : option jsstring
}.
End Fields.
End SubstationData.

Section Component.
Context {NF : NumberFormat}.

Record ComponentPolygon : Type := mkComponentPolygon {
  id : jsstring;
  substation_uuid : option jsstring;
  label : jsstring;
  geometry : option object;
  created_at : jsstring;
  substation_full_id : option jsstring;
  from_osm : bool;
  additional_info : option jsstring;
  annotation_by : option jsstring
}.

(** ** The state of the component that the function reads and sets *)
Record State : Type := mkState {
  selectedSubstation : option SubstationData.t;
  componentPolygons : list json;
  dialogOpen : bool;
  dialogPolygon : option ComponentPolygon;
  selectedComponent : jsstring;
  dialogAdditionalInfo : jsstring;
  annotatorName : jsstring
}.

(** The text of a toast: words of the component, or the message
    that the engine gave an error of its own. *)
Inductive toast_text : Type :=
| words (s : jsstring)
| message_of (e : error).

Record Toast : Type := mkToast {
  variant : option string;
  title : jsstring;
  description : toast_text
}.

(** What the function does that can be seen: toasts, a line on the
    console, requests to the server. *)
Inductive effect : Type :=
| toast (t : Toast)
| console_error (line : jsstring) (e : error)
| request (method url : string).

Definition destructive (title description : string) : effect :=
  toast (mkToast (Some "destructive"%string) (js title) (words (js description))).

(** The requests among what was done. *)
Definition requests (out : list effect) : list effect :=
  filter (fun e => match e with request _ _ => true | _ => false end) out.

(** ** Values *)

Definition nullable (s : option jsstring) : json :=
  match s with Some x => JStr x | None => JNull end.

(** [s || null] *)
Definition or_null (s : jsstring) : option jsstring :=
  match s with [] => None | _ => Some s end.

(** [p.key] for a parsed value [p] and a key that no prototype
    has: a [TypeError] on [null], the property of an object,
    [undefined] otherwise. *)
Definition property (p : json) (key : string) : error + option json :=
  match p with
  | JNull => inl TypeError
  | JObj members => inr (get (js key) members)
  | _ => inr None
  end.

(** [p.key === s] *)
Definition property_is (p : json) (key : string) (s : jsstring) : error + bool :=
  match property p key with
  | inl e => inl e
  | inr (Some (JStr x)) => inr (jsstring_eqb x s)
  | inr _ => inr false
  end.

(** [[...value]] *)
Definition spread (value : json) : error + list json :=
  match value with
  | JArr elements => inr elements
  | JStr s => inr (List.map JStr (code_points s))
  | _ => inl TypeError
  end.

(** [list.filter(p => p.key === s)] *)
Fixpoint filter_property (key : string) (s : jsstring) (l : list json)
  : error + list json :=
  match l with
  | [] => inr []
  | p :: r =>
      match property_is p key s with
      | inl e => inl e
      | inr keep =>
          match filter_property key s r with
          | inl e => inl e
          | inr r' => inr (if keep then p :: r' else r')
          end
      end
  end.

(** [list.findIndex(p => p.id === s)], with the object found there;
    [inr None] is [-1]. *)
Fixpoint findIndex_id (s : jsstring) (l : list json) (i : nat)
  : error + option (nat * object) :=
  match l with
  | [] => inr None
  | p :: r =>
      match property_is p "id" s, p with
      | inl e, _ => inl e
      | inr true, JObj members => inr (Some (i, members))
      | inr _, _ => findIndex_id s r (S i)
      end
  end.

(** [list[i] = v] on a copy, for an [i] below the length. *)
Fixpoint assign (l : list json) (i : nat) (v : json) : list json :=
  match l, i with
  | _ :: r, O => v :: r
  | x :: r, S i' => x :: assign r i' v
  | [], _ => []
  end.

(** ** Tasks: the try block

    A task may throw, changes the server's disk through the routes
    it fetches, and shows toasts on the way. *)
Definition Task (A : Type) : Type :=
  disk -> list effect -> (error + A) * disk * list effect.

Definition done {A} (a : A) : Task A := fun w out => (inr a, w, out).
Definition raise {A} (e : error) : Task A := fun w out => (inl e, w, out).

Definition andThen {A B} (m : Task A) (k : A -> Task B) : Task B :=
  fun w out =>
    match m w out with
    | (inr a, w', out') => k a w' out'
    | (inl e, w', out') => (inl e, w', out')
    end.

(** [await fetch(url, { method })], answered by the route of this
    server. *)
Definition fetch (method url : string) (route : M Response) : Task Response :=
  fun w out =>
    match route w with
    | (inr r, w') => (inr r, w', out ++ [request method url])
    | (inl e, w') => (inl e, w', out ++ [request method url])
    end.

Definition show (e : effect) : Task unit :=
  fun w out => (inr tt, w, out ++ [e]).

Definition lift {A} (r : error + A) : Task A :=
  match r with inr a => done a | inl e => raise e end.

(** [await response.json()] *)
Definition response_json (r : Response) : Task json :=
  match parse (body r) with
  | Some v => done v
  | None => raise SyntaxError
  end.

(** What the toast names: the label, or for ["Other"] the first 30
    code units of the additional information and three dots. *)
Definition shown_name (label : jsstring) (info : option jsstring) : jsstring :=
  if jsstring_eqb label (js "Other") then
    match info with
    | Some s => firstn 30 s ++ js "..."
    | None => js "undefined..."
    end
  else label.

Definition saved_toast (title : string) (label : jsstring)
           (info : option jsstring) (verb : string) : effect :=
  toast (mkToast None (js title)
           (words (js "Component " ++ 34 :: shown_name label info
                     ++ 34 :: js " " ++ js verb ++ js "."))).

Section Save.
(** [uuidv4()] and [new Date().toISOString()] at the call. *)
Variable uuid : jsstring.
Variable now : jsstring.

Definition try_block (st : State) (sub : SubstationData.t)
           (poly : ComponentPolygon) (geometry : object) (isTemp : bool)
  : Task State :=
  let info := or_null (trim (dialogAdditionalInfo st)) in
  andThen (fetch "GET" "/api/polygons" Polygons.GET) (fun response =>
  andThen (response_json response) (fun allPolygons =>
  andThen
    (if isTemp then
       let savedPolygon :=
         JObj [ (js "id", JStr uuid);
                (js "substation_uuid", JStr (SubstationData.id sub));
                (js "label", JStr (selectedComponent st));
                (js "geometry", JObj geometry);
                (js "created_at", JStr now);
                (js "substation_full_id",
                  nullable (match SubstationData.full_id sub with
                            | Some f => or_null f
                            | None => None
                            end));
                (js "from_osm", JBool false);
                (js "additional_info", nullable info);
                (js "annotation_by", JStr (annotatorName st)) ] in
       andThen (lift (spread allPolygons)) (fun existing =>
       andThen (show (saved_toast "Annotation Saved" (selectedComponent st)
                        info "added")) (fun _ =>
       done (existing ++ [savedPolygon])))
     else
       match allPolygons with
       | JArr existing =>
           andThen (lift (findIndex_id (id poly) existing 0)) (fun found =>
           match found with
           | None => raise (Error (js "Polygon to update not found in file."))
           | Some (polygonIndex, members) =>
               let savedPolygon :=
                 JObj (set (js "annotation_by") (JStr (annotatorName st))
                         (set (js "additional_info") (nullable info)
                            (set (js "label") (JStr (selectedComponent st))
                               members))) in
               andThen (show (saved_toast "Annotation Updated"
                                (selectedComponent st) info "updated"))
                 (fun _ => done (assign existing polygonIndex savedPolygon))
           end)
       | _ => raise TypeError
       end)
    (fun newPolygonList =>
  andThen (fetch "POST" "/api/polygons"
             (Polygons.POST
                (mkRequest (Some (stringify (JArr newPolygonList))))))
    (fun postResponse =>
  if negb (ok postResponse) then raise (Error (js "Failed to save polygons"))
  else
    andThen (lift (filter_property "substation_uuid"
                     (SubstationData.id sub) newPolygonList))
      (fun mine =>
    done (mkState (selectedSubstation st) mine false None
            (selectedComponent st) (dialogAdditionalInfo st)
            (annotatorName st))))))).

(** [error?.message || "Could not save annotation."] *)
Definition failure_description (e : error) : toast_text :=
  match e with
  | Error [] => words (js "Could not save annotation.")
  | Error m => words m
  | _ => message_of e
  end.

Definition handleSavePolygon (st : State) (w : disk)
  : list effect * State * disk :=
  match dialogPolygon st, selectedSubstation st with
  | Some poly, Some sub =>
      if is_empty (selectedComponent st) then
        ([destructive "Component Required"
            "Please select a component type (e.g., 'Other')."], st, w)
      else if jsstring_eqb (selectedComponent st) (js "Other")
              && is_empty (trim (dialogAdditionalInfo st)) then
        ([destructive "Additional Info Required"
            "Please provide details in 'Additional Info' when selecting 'Other'."],
         st, w)
      else if is_empty (annotatorName st) then
        ([destructive "User Name Missing"
            "Cannot save annotation without user name. Please log in again."],
         st, w)
      else
        let isTemp := startsWith (id poly) (js "temp-") in
        match geometry poly with
        | None =>
            ([destructive "Geometry Missing"
                "Cannot save annotation without geometry data."], st, w)
        | Some geometry =>
            match try_block st sub poly geometry isTemp w [] with
            | (inr st', w', out) => (out, st', w')
            | (inl error, w', out) =>
                (out ++
                   [ console_error
                       (js "Error " ++ js (if isTemp then "inserting" else "updating")
                          ++ js " polygon:") error;
                     toast (mkToast (Some "destructive"%string)
                              (js (if isTemp then "Save" else "Update")
                                 ++ js " Failed")
                              (failure_description error)) ],
                 st, w')
            end
        end
  | _, _ => ([], st, w)
  end.

End Save.
End Component.
End CompleteTab.
(* ================================================================== *)
(** * Vocabulary for the paths of the tile route *)
(* ================================================================== *)

Module TilePaths.
Import Js NodePath TilesRoute.

Definition no_slash (s : string) : bool :=
  forallb (fun c => negb (is_slash c)) (list_ascii_of_string s).

(** A segment that [path.join] appends as it is: it has no slash
    and is neither empty nor ["."] nor [".."]. *)
Definition plain (s : string) : bool :=
  no_slash s
  && negb (String.eqb s EmptyString || String.eqb s ".")
  && negb (String.eqb s "..").

Fixpoint starts_with (base p : path) : bool :=
  match base, p with
  | [], _ => true
  | b :: base', s :: p' => String.eqb b s && starts_with base' p'
  | _ :: _, [] => false
  end.

(** [p] is [base] or lies below it. *)
Definition below (base p : path) : bool := starts_with base p.

End TilePaths.

(* ================================================================== *)
(** * Sequences of requests to the two collections *)
(* ================================================================== *)

Module StoreCalls.
Import Json Fs Data Api Store.

(** A request to one of the four handlers. *)
Inductive call : Type :=
| get_substations
| post_substations (request : Request)
| get_polygons
| post_polygons (request : Request).

Section Calls.
Context {NF : NumberFormat}.

Definition serve (c : call) : M Response :=
  match c with
  | get_substations => Substations.GET
  | post_substations request => Substations.POST request
  | get_polygons => Polygons.GET
  | post_polygons request => Polygons.POST request
  end.



End Calls.
End StoreCalls.

(* ================================================================== *)
(** * Vocabulary for the dialog of the completed-substations tab *)
(* ================================================================== *)

Module Dialog.
Import Json Fs Api CompleteTab.
Local Open Scope list_scope.

Section Dialog.
Context {NF : NumberFormat}.

(** The dialog passes the four checks of [handleSavePolygon]. *)
Definition ready (st : State) : bool :=
  match dialogPolygon st, selectedSubstation st with
  | Some poly, Some _ =>
      negb (is_empty (selectedComponent st))
      && negb (jsstring_eqb (selectedComponent st) (js "Other")
               && is_empty (trim (dialogAdditionalInfo st)))
      && negb (is_empty (annotatorName st))
      && match geometry poly with Some _ => true | None => false end
  | _, _ => false
  end.

Definition not_null (v : json) : bool :=
  match v with JNull => false | _ => true end.

(** [p.key === s] for a [p] that is not [null]. *)
Definition property_eq (key : string) (s : jsstring) (p : json) : bool :=
  match property_is p key s with
  | inr b => b
  | inl _ => false
  end.

(** The record that [handleSavePolygon] makes for a new polygon. *)
Definition new_record (uuid now : jsstring) (st : State)
           (sub : SubstationData.t) (geometry : object) : json :=
  JObj [ (js "id", JStr uuid);
         (js "substation_uuid", JStr (SubstationData.id sub));
         (js "label", JStr (selectedComponent st));
         (js "geometry", JObj geometry);
         (js "created_at", JStr now);
         (js "substation_full_id",
           nullable (match SubstationData.full_id sub with
                     | Some f => or_null f
                     | None => None
                     end));
         (js "from_osm", JBool false);
         (js "additional_info",
           nullable (or_null (trim (dialogAdditionalInfo st))));
         (js "annotation_by", JStr (annotatorName st)) ].

(** The properties of a stored record after [handleSavePolygon]
    has set the label, the additional information and the
    annotator. *)
Definition updated_fields (st : State) (members : object) : object :=
  set (js "annotation_by") (JStr (annotatorName st))
    (set (js "additional_info")
       (nullable (or_null (trim (dialogAdditionalInfo st))))
       (set (js "label") (JStr (selectedComponent st)) members)).

(** What the [catch] of [handleSavePolygon] shows for an error. *)
Definition failure (isTemp : bool) (error : error) : list effect :=
  [ console_error
      (js "Error " ++ js (if isTemp then "inserting" else "updating")
         ++ js " polygon:") error;
    toast (mkToast (Some "destructive"%string)
             (js (if isTemp then "Save" else "Update") ++ js " Failed")
             (failure_description error)) ].

(** A stored substation after [handleReopenSubstation]: the one
    with the id [s] has [completed: false]. *)
Definition reopened (s : jsstring) (p : json) : json :=
  match p with
  | JObj members =>
      if property_eq "id" s p
      then JObj (set (js "completed") (JBool false) members)
      else p
  | _ => p
  end.

(** A stored substation after [handleCompleteSubstation]: the one
    with the id [s] has [completed: true] and the type. *)
Definition completed_as (s finalType : jsstring) (p : json) : json :=
  match p with
  | JObj members =>
      if property_eq "id" s p
      then JObj (set (js "substation_type") (JStr finalType)
                   (set (js "completed") (JBool true) members))
      else p
  | _ => p
  end.

(** The dialog after a save: closed, with the polygons shown. *)
Definition closed (st : State) (shown : list json) : State :=
  mkState (selectedSubstation st) shown false None
    (selectedComponent st) (dialogAdditionalInfo st) (annotatorName st).

End Dialog.
End Dialog.

(* ================================================================== *)
(** * The other handlers of the completed-substations tab
       ([unnamed/part_002]) *)
(* ================================================================== *)

Module CompleteTabHandlers.
Import Json Fs Api CompleteTab.
Local Open Scope N_scope.
Local Open Scope list_scope.

Section Handlers.
Context {NF : NumberFormat}.

(** [error?.message] *)
Definition error_message (e : error) : toast_text :=
  match e with
  | Error m => words m
  | _ => message_of e
  end.

(** [list.filter(p => p.key !== s)] *)
Fixpoint reject_property (key : string) (s : jsstring) (l : list json)
  : error + list json :=
  match l with
  | [] => inr []
  | p :: r =>
      match property_is p key s with
      | inl e => inl e
      | inr drop =>
          match reject_property key s r with
          | inl e => inl e
          | inr r' => inr (if drop then r' else p :: r')
          end
      end
  end.

(** [value.filter(...)]: only an array has the method. *)
Definition array_of (value : json) : error + list json :=
  match value with
  | JArr elements => inr elements
  | _ => inl TypeError
  end.

Definition with_polygons (st : State) (polygons : list json) : State :=
  mkState (selectedSubstation st) polygons (dialogOpen st) (dialogPolygon st)
    (selectedComponent st) (dialogAdditionalInfo st) (annotatorName st).

(** [setDialogOpen(false); setDialogPolygon(null)] *)
Definition close (st : State) : State :=
  mkState (selectedSubstation st) (componentPolygons st) false None
    (selectedComponent st) (dialogAdditionalInfo st) (annotatorName st).

(** ** [fetchComponentPolygons] *)

Definition fetchComponentPolygons (substationId : jsstring)
           (st : State) (w : disk) : list effect * State * disk :=
  let attempt : Task (list json) :=
    andThen (fetch "GET" "/api/polygons" Polygons.GET) (fun response =>
    if negb (ok response) then raise (Error (js "Failed to fetch polygons"))
    else
      andThen (response_json response) (fun allPolygons =>
      andThen (lift (array_of allPolygons)) (fun elements =>
      lift (filter_property "substation_uuid" substationId elements)))) in
  match attempt w [] with
  | (inr forSubstation, w', out) => (out, with_polygons st forSubstation, w')
  | (inl error, w', out) =>
      (out ++ [ console_error (js "Error fetching component polygons:") error;
                destructive "Error" "Could not load component polygons." ],
       with_polygons st [], w')
  end.

(** ** [handleDeletePolygon] *)

Section Delete.
(** [window.confirm]: the answer to a question. *)
Variable confirm : jsstring -> bool.

Definition delete_question (label : jsstring) : jsstring :=
  js "Are you sure you want to delete the component " ++ 34 :: label
     ++ 34 :: js " from this completed substation? This cannot be undone.".

Definition deleted_toast (label : jsstring) : effect :=
  toast (mkToast None (js "Annotation Deleted")
           (words (js "Component " ++ 34 :: label ++ 34 :: js " removed."))).

(** What the [catch] of [handleDeletePolygon] shows. *)
Definition delete_failed (error : error) : list effect :=
  [ console_error (js "Error deleting polygon:") error;
    toast (mkToast (Some "destructive"%string) (js "Delete Failed")
             (error_message error)) ].

Definition delete_block (poly : ComponentPolygon) : Task unit :=
  andThen (fetch "GET" "/api/polygons" Polygons.GET) (fun response =>
  if negb (ok response)
  then raise (Error (js "Failed to fetch current polygons"))
  else
    andThen (response_json response) (fun allPolygons =>
    andThen (lift (array_of allPolygons)) (fun elements =>
    andThen (lift (reject_property "id" (id poly) elements))
      (fun newPolygonList =>
    if (List.length newPolygonList =? List.length elements)%nat
    then raise (Error (js "Polygon to delete not found in file."))
    else
      andThen (fetch "POST" "/api/polygons"
                 (Polygons.POST
                    (mkRequest (Some (stringify (JArr newPolygonList))))))
        (fun postResponse =>
      if negb (ok postResponse)
      then raise (Error (js "Failed to save updated polygon list"))
      else show (deleted_toast (label poly))))))).

(** The state is [inl e] when the update of the shown polygons,
    [prev => prev.filter((p) => p.id !== dialogPolygon.id)],
    throws [e] while the component renders. *)
Definition handleDeletePolygon (st : State) (w : disk)
  : list effect * (error + State) * disk :=
  match dialogPolygon st with
  | None => ([], inr st, w)
  | Some poly =>
      let isTemp := startsWith (id poly) (js "temp-") in
      if from_osm poly || isTemp then
        ([], inr (if isTemp then close st else st), w)
      else if negb (confirm (delete_question (label poly))) then
        ([], inr st, w)
      else
        match delete_block poly w [] with
        | (inr _, w', out) =>
            (out,
             match reject_property "id" (id poly) (componentPolygons st) with
             | inr shown => inr (close (with_polygons st shown))
             | inl e => inl e
             end,
             w')
        | (inl error, w', out) => (out ++ delete_failed error, inr st, w')
        end
  end.
End Delete.

(** ** [handleReopenSubstation] *)

(** [list.map(sub => sub.id === s ? (wasUpdated = true,
    { ...sub, completed: false }) : sub)], with [wasUpdated]. *)
Fixpoint reopen_all (s : jsstring) (l : list json)
  : error + (list json * bool) :=
  match l with
  | [] => inr ([], false)
  | sub :: r =>
      match property_is sub "id" s with
      | inl e => inl e
      | inr hit =>
          match reopen_all s r with
          | inl e => inl e
          | inr (r', wasUpdated) =>
              match hit, sub with
              | true, JObj members =>
                  inr (JObj (set (js "completed") (JBool false) members) :: r',
                       true)
              | _, _ => inr (sub :: r', wasUpdated)
              end
          end
      end
  end.

(** [a || b] on strings that may be missing. *)
Definition or_else (a : option jsstring) (b : jsstring) : jsstring :=
  match a with
  | Some (_ :: _ as s) => s
  | _ => b
  end.

Section Reopen.
Variable confirm : jsstring -> bool.

Definition reopen_question (sub : SubstationData.t) : jsstring :=
  js "Are you sure you want to reopen substation " ++ 34
     :: or_else (SubstationData.full_id sub)
          (or_else (SubstationData.name sub) (SubstationData.id sub))
     ++ 34 :: js "? It will move back to the 'Annotate' tab.".

Definition reopened_toast (sub : SubstationData.t) : effect :=
  toast (mkToast None (js "Substation Reopened!")
           (words (js "ID: " ++ SubstationData.id sub
                     ++ js " moved to Annotate tab."))).

(** What the [catch] of [handleReopenSubstation] shows. *)
Definition reopen_failed (error : error) : list effect :=
  [ console_error (js "Error reopening substation:") error;
    toast (mkToast (Some "destructive"%string) (js "Reopen Failed")
             (error_message error)) ].

Definition reopen_block (sub : SubstationData.t) : Task unit :=
  andThen (fetch "GET" "/api/substations" Substations.GET) (fun response =>
  if negb (ok response)
  then raise (Error (js "Failed to fetch current substations"))
  else
    andThen (response_json response) (fun allSubstations =>
    andThen (lift (array_of allSubstations)) (fun elements =>
    andThen (lift (reopen_all (SubstationData.id sub) elements))
      (fun '(updatedSubstations, wasUpdated) =>
    if negb wasUpdated
    then raise (Error (js "Substation to reopen not found in file."))
    else
      andThen (fetch "POST" "/api/substations"
                 (Substations.POST
                    (mkRequest
                       (Some (stringify (JArr updatedSubstations))))))
        (fun postResponse =>
      if negb (ok postResponse)
      then raise (Error (js "Failed to save updated substations list"))
      else show (reopened_toast sub)))))).

(** The function up to the refresh of the list that it starts
    when all went well ([fetchCompletedSubstations()], which is
    not awaited); the [bool] says whether the refresh is
    started.  The function sets no state of its own. *)
Definition handleReopenSubstation (st : State) (w : disk)
  : list effect * bool * disk :=
  match selectedSubstation st with
  | None => ([], false, w)
  | Some sub =>
      if negb (confirm (reopen_question sub)) then ([], false, w)
      else
        match reopen_block sub w [] with
        | (inr _, w', out) => (out, true, w')
        | (inl error, w', out) => (out ++ reopen_failed error, false, w')
        end
  end.
End Reopen.

End Handlers.
End CompleteTabHandlers.

(* ================================================================== *)
(** * [handleCompleteSubstation] of the annotation tab
       ([app/components/AnnotateTab.tsx]) *)
(* ================================================================== *)

Module AnnotateTab.
Import Json Fs Api CompleteTab CompleteTabHandlers.
Local Open Scope N_scope.
Local Open Scope list_scope.

Section Handlers.
Context {NF : NumberFormat}.

(** The state of the component that the function reads and sets. *)
Record State : Type := mkState {
  selectedSubstation : option SubstationData.t;
  substationType : jsstring;
  substationOtherText : jsstring;
  substationTypeNeedsHighlight : bool
}.

(** [setSubstationTypeNeedsHighlight(true)] *)
Definition highlighted (st : State) : State :=
  mkState (selectedSubstation st) (substationType st)
    (substationOtherText st) true.

(** [substationType === 'Other' ? substationOtherText.trim()
    : substationType] *)
Definition finalSubstationType (st : State) : jsstring :=
  if jsstring_eqb (substationType st) (js "Other")
  then trim (substationOtherText st)
  else substationType st.

(** [list.map(sub => sub.id === s ? (wasUpdated = true,
    { ...sub, completed: true, substation_type: finalType })
    : sub)], with [wasUpdated]. *)
Fixpoint complete_all (s finalType : jsstring) (l : list json)
  : error + (list json * bool) :=
  match l with
  | [] => inr ([], false)
  | sub :: r =>
      match property_is sub "id" s with
      | inl e => inl e
      | inr hit =>
          match complete_all s finalType r with
          | inl e => inl e
          | inr (r', wasUpdated) =>
              match hit, sub with
              | true, JObj members =>
                  inr (JObj (set (js "substation_type") (JStr finalType)
                               (set (js "completed") (JBool true) members))
                         :: r',
                       true)
              | _, _ => inr (sub :: r', wasUpdated)
              end
          end
      end
  end.

(** [error?.message || "Could not mark substation as complete."] *)
Definition completion_failure (e : error) : toast_text :=
  match e with
  | Error [] => words (js "Could not mark substation as complete.")
  | Error m => words m
  | _ => message_of e
  end.

(** What the [catch] shows. *)
Definition complete_failed (error : error) : list effect :=
  [ console_error (js "Error completing substation:") error;
    toast (mkToast (Some "destructive"%string) (js "Completion Failed")
             (completion_failure error)) ].

Section Complete.
(** [window.confirm]: the answer to a question. *)
Variable confirm : jsstring -> bool.

Definition complete_question (sub : SubstationData.t)
           (finalType : jsstring) : jsstring :=
  js "Mark substation " ++ 34
     :: or_else (SubstationData.full_id sub)
          (or_else (SubstationData.name sub) (SubstationData.id sub))
     ++ 34 :: js " (Type: " ++ finalType ++ js ") as complete?".

Definition completed_toast (sub : SubstationData.t) : effect :=
  toast (mkToast None (js "Substation Completed!")
           (words (js "ID: " ++ SubstationData.id sub))).

Definition complete_block (sub : SubstationData.t) (finalType : jsstring)
  : Task unit :=
  andThen (fetch "GET" "/api/substations" Substations.GET) (fun response =>
  if negb (ok response)
  then raise (Error (js "Failed to fetch current substations"))
  else
    andThen (response_json response) (fun allSubstations =>
    andThen (lift (array_of allSubstations)) (fun elements =>
    andThen (lift (complete_all (SubstationData.id sub) finalType elements))
      (fun '(updatedSubstations, wasUpdated) =>
    if negb wasUpdated
    then raise (Error (js "Substation to complete not found in file."))
    else
      andThen (fetch "POST" "/api/substations"
                 (Substations.POST
                    (mkRequest
                       (Some (stringify (JArr updatedSubstations))))))
        (fun postResponse =>
      if negb (ok postResponse)
      then raise (Error (js "Failed to save updated substations list"))
      else show (completed_toast sub)))))).

(** The function up to the refresh of the list that it starts
    when all went well ([fetchSubstations()], which is not
    awaited); the [bool] says whether the refresh is started. *)
Definition handleCompleteSubstation (st : State) (w : disk)
  : list effect * State * bool * disk :=
  match selectedSubstation st with
  | None => ([], st, false, w)
  | Some sub =>
      if is_empty (substationType st)
         || (jsstring_eqb (substationType st) (js "Other")
             && is_empty (trim (substationOtherText st)))
      then
        ([destructive "Type Required"
            "Please select or define a substation type before completing."],
         highlighted st, false, w)
      else
        let finalSubstationType := finalSubstationType st in
        if negb (confirm (complete_question sub finalSubstationType))
        then ([], st, false, w)
        else
          match complete_block sub finalSubstationType w [] with
          | (inr _, w', out) => (out, st, true, w')
          | (inl error, w', out) =>
              (out ++ complete_failed error, st, false, w')
          end
  end.
End Complete.

End Handlers.
End AnnotateTab.

(* ================================================================== *)
(** * The CSV text of [handleDownloadCSV]
       ([app/components/DownloadTab.tsx]) *)
(* ================================================================== *)

Module DownloadTab.
Import Json.
Local Open Scope N_scope.
Local Open Scope list_scope.

(** [str.includes(c)] for a string [c] of one code unit. *)
Definition includes (str : jsstring) (c : N) : bool :=
  existsb (N.eqb c) str.

(** [str.replace] of every double quote (code unit 34) by two. *)
Definition double_quotes (str : jsstring) : jsstring :=
  flat_map (fun c => if c =? 34 then [34; 34] else [c]) str.

(** [escapeCsv]; [None] is a field that is [null] or [undefined],
    44 is the comma and 10 the line feed. *)
Definition escapeCsv (field : option jsstring) : jsstring :=
  match field with
  | None => [34; 34]
  | Some str =>
      if includes str 44 || includes str 10 || includes str 34
      then 34 :: double_quotes str ++ [34]
      else str
  end.

(** What may follow a field: nothing, a comma or a line feed. *)
Definition boundary (rest : jsstring) : Prop :=
  match rest with
  | [] => True
  | c :: _ => c = 44 \/ c = 10
  end.

(** The fields that [escapeCsv] returns as they are. *)
Definition unquoted (str : jsstring) : Prop :=
  includes str 44 || includes str 10 || includes str 34 = false.

Definition header : list jsstring :=
  [ js "id"; js "substation_uuid"; js "substation_full_id"; js "label";
    js "additional_info"; js "annotation_by"; js "created_at";
    js "geometry_wkt" ].

Section Rows.
(** The geometry of an annotation and the text that [geojsonToWkt]
    gives for it. *)
Variable geometry : Type.
Variable geojsonToWkt : geometry -> jsstring.

(** What a row reads of a [ComponentPolygon]. *)
Record Annotation : Type := mkAnnotation {
  id : jsstring;
  substation_uuid : option jsstring;
  substation_full_id : option jsstring;
  label : jsstring;
  additional_info : option jsstring;
  annotation_by : option jsstring;
  created_at : jsstring;
  ann_geometry : geometry
}.

(** The eight fields of a row, before [escapeCsv]. *)
Definition fields (ann : Annotation) : list (option jsstring) :=
  [ Some (id ann); substation_uuid ann; substation_full_id ann;
    Some (label ann); additional_info ann; annotation_by ann;
    Some (created_at ann); Some (geojsonToWkt (ann_geometry ann)) ].

(** [row.join] with a comma *)
Definition row (ann : Annotation) : jsstring :=
  join (js ",") (List.map escapeCsv (fields ann)).

(** [csvRows.join] with a line feed, the text that is downloaded. *)
Definition csv (annotations : list Annotation) : jsstring :=
  join [10] (join (js ",") header :: List.map row annotations).

(** The lines after the first one. *)
Definition lines_after (annotations : list Annotation) : jsstring :=
  match annotations with
  | [] => []
  | _ => 10 :: join [10] (List.map row annotations)
  end.
End Rows.

Arguments mkAnnotation {geometry}.
Arguments id {geometry}.
Arguments substation_uuid {geometry}.
Arguments substation_full_id {geometry}.
Arguments label {geometry}.
Arguments additional_info {geometry}.
Arguments annotation_by {geometry}.
Arguments created_at {geometry}.
Arguments ann_geometry {geometry}.
Arguments fields {geometry}.
Arguments row {geometry}.
Arguments csv {geometry}.
Arguments lines_after {geometry}.

End DownloadTab.

(* ================================================================== *)
(** * Facts about lists *)
(* ================================================================== *)

Module ListFacts.

Lemma forallb_rev {A} (f : A -> bool) (l : list A) :
  forallb f (List.rev l) = forallb f l.
Proof.
  induction l as [|a l IH]; simpl; [reflexivity|].
  rewrite forallb_app, IH. simpl. rewrite andb_true_r. apply andb_comm.
Qed.

Lemma forallb_impl {A} (P Q : A -> bool) (l : list A) :
  (forall x, P x = true -> Q x = true) ->
  forallb P l = true -> forallb Q l = true.
Proof.
  intros H. induction l as [|a l IH]; simpl; [reflexivity|].
  rewrite !andb_true_iff. intuition.
Qed.

Lemma forallb_map {A B} (f : B -> bool) (g : A -> B) (l : list A) :
  forallb f (List.map g l) = forallb (fun x => f (g x)) l.
Proof.
  induction l as [|a l IH]; simpl; [reflexivity | now rewrite IH].
Qed.

Lemma forallb_ext_Forall {A} (f g : A -> bool) (l : list A) :
  Forall (fun x => f x = g x) l -> forallb f l = forallb g l.
Proof.
  induction 1 as [|x l Hx Hl IH]; simpl; [reflexivity | now rewrite Hx, IH].
Qed.

End ListFacts.

(* ================================================================== *)
(** * Properties of the tile route *)
(* ================================================================== *)

Module TilesProofs.
Import Js NodePath TilesRoute ListFacts.

(** ** Doubles *)

Lemma round_small (z : Z) : Z.abs z < 2 ^ 53 -> round_to_double z = Num z.
Proof.
  intros H. unfold round_to_double.
  destruct (Z.ltb_spec (Z.abs z) (2 ^ 53)); [reflexivity | lia].
Qed.

(** The parts of a rounding above [2^53]. *)
Lemma round_parts (z : Z) :
  2 ^ 53 <= Z.abs z ->
  exists e q' : Z,
    1 <= e /\ 2 ^ 52 <= q' <= 2 ^ 53
    /\ Z.abs (q' * 2 ^ e - Z.abs z) * 2 ^ 53 <= Z.abs z
    /\ round_to_double z
       = if 2 ^ 1024 <=? q' * 2 ^ e then Infinity (z <? 0)
         else Num (Z.sgn z * (q' * 2 ^ e)).
Proof.
  intros Hbig. unfold round_to_double.
  destruct (Z.ltb_spec (Z.abs z) (2 ^ 53)) as [Hlt|_]; [lia|].
  set (a := Z.abs z) in *.
  assert (Ha : 0 < a) by (assert (0 < 2 ^ 53) by reflexivity; lia).
  destruct (Z.log2_spec a Ha) as [Hlo Hhi].
  assert (HL : 53 <= Z.log2 a).
  { apply Z.log2_le_pow2; assumption. }
  set (L := Z.log2 a) in *.
  set (e := L - 52).
  assert (He : 1 <= e) by (unfold e; lia).
  assert (Hpe : 0 < 2 ^ e) by (apply Z.pow_pos_nonneg; lia).
  assert (Hhalf : 2 ^ e = 2 * 2 ^ (e - 1)).
  { replace e with (1 + (e - 1)) at 1 by lia.
    rewrite Z.pow_add_r by lia. reflexivity. }
  assert (HL2 : 2 ^ L = 2 ^ 52 * 2 ^ e).
  { unfold e. rewrite <- Z.pow_add_r by lia. f_equal. lia. }
  assert (HL3 : 2 ^ Z.succ L = 2 ^ 53 * 2 ^ e).
  { unfold e. rewrite <- Z.pow_add_r by lia. f_equal. lia. }
  pose proof (Z.div_mod a (2 ^ e) ltac:(lia)) as Hdm.
  pose proof (Z.mod_pos_bound a (2 ^ e) Hpe) as Hr.
  set (q := a / 2 ^ e) in *. set (r := a mod 2 ^ e) in *.
  assert (Hq : 2 ^ 52 <= q < 2 ^ 53).
  { assert (0 < 2 ^ 52) by reflexivity. split; nia. }
  set (half := 2 ^ (e - 1)) in *.
  assert (Hh : 0 < half) by (apply Z.pow_pos_nonneg; lia).
  exists e.
  exists (if r <? half then q
          else if half <? r then q + 1 else if Z.even q then q else q + 1).
  split; [exact He|]. split; [|split; [|reflexivity]].
  - destruct (r <? half); [lia|]. destruct (half <? r); [lia|].
    destruct (Z.even q); lia.
  - assert (H53 : 2 ^ 53 = 2 * 2 ^ 52) by reflexivity.
    assert (Hbound : half * 2 ^ 53 <= a).
    { rewrite H53. nia. }
    destruct (Z.ltb_spec r half).
    + replace (q * 2 ^ e - a) with (- r) by lia.
      rewrite Z.abs_opp, Z.abs_eq by lia. nia.
    + destruct (Z.ltb_spec half r).
      * replace ((q + 1) * 2 ^ e - a) with (2 ^ e - r) by lia.
        rewrite Z.abs_eq by lia. nia.
      * assert (r = half) by lia.
        destruct (Z.even q).
        -- replace (q * 2 ^ e - a) with (- r) by lia.
           rewrite Z.abs_opp, Z.abs_eq by lia. nia.
        -- replace ((q + 1) * 2 ^ e - a) with (2 ^ e - r) by lia.
           rewrite Z.abs_eq by lia. nia.
Qed.

(** The double is as near to the integer as the 53 bits allow. *)
Lemma round_error (z r : Z) :
  round_to_double z = Num r -> Z.abs (r - z) * 2 ^ 53 <= Z.abs z.
Proof.
  destruct (Z_lt_le_dec (Z.abs z) (2 ^ 53)) as [Hs|Hb].
  - rewrite round_small by exact Hs. intros [= <-].
    rewrite Z.sub_diag. simpl. lia.
  - destruct (round_parts z Hb) as (e & q' & He & Hq & Herr & ->).
    destruct (2 ^ 1024 <=? q' * 2 ^ e); [discriminate|].
    intros [= <-].
    replace (Z.abs (Z.sgn z * (q' * 2 ^ e) - z))
      with (Z.abs (q' * 2 ^ e - Z.abs z)); [exact Herr|].
    assert (0 < 2 ^ 53) by reflexivity.
    set (m := q' * 2 ^ e).
    destruct (Z.sgn_spec z) as [[Hz Hs]|[[Hz Hs]|[Hz Hs]]]; rewrite Hs; lia.
Qed.

(** A number of 53 bits times a power of two is a double. *)
Lemma double_is_fixed (q e : Z) (negative : bool) :
  2 ^ 52 <= q < 2 ^ 53 -> 1 <= e -> q * 2 ^ e < 2 ^ 1024 ->
  let z := if negative then - (q * 2 ^ e) else q * 2 ^ e in
  round_to_double z = Num z.
Proof.
  intros Hq He Hfin z.
  assert (Hpe : 0 < 2 ^ e) by (apply Z.pow_pos_nonneg; lia).
  assert (H52 : 0 < 2 ^ 52) by reflexivity.
  assert (H53 : 2 ^ 53 = 2 * 2 ^ 52) by reflexivity.
  assert (Hpe2 : 2 <= 2 ^ e).
  { change 2 with (2 ^ 1) at 1. apply Z.pow_le_mono_r; lia. }
  set (a := q * 2 ^ e) in *.
  assert (Habs : Z.abs z = a) by (unfold z; destruct negative; lia).
  unfold round_to_double. rewrite Habs.
  destruct (Z.ltb_spec a (2 ^ 53)) as [Hlt|_]; [unfold a in *; nia|].
  assert (HL : Z.log2 a = 52 + e).
  { apply Z.log2_unique; [lia|].
    replace (Z.succ (52 + e)) with (53 + e) by lia.
    rewrite !Z.pow_add_r by lia. unfold a. nia. }
  rewrite HL. replace (52 + e - 52) with e by lia.
  assert (Hdiv : a / 2 ^ e = q) by (unfold a; apply Z.div_mul; lia).
  assert (Hmod : a mod 2 ^ e = 0) by (unfold a; apply Z.mod_mul; lia).
  rewrite Hdiv, Hmod.
  assert (Hh : 0 < 2 ^ (e - 1)) by (apply Z.pow_pos_nonneg; lia).
  destruct (Z.ltb_spec 0 (2 ^ (e - 1))); [|lia].
  fold a. destruct (Z.leb_spec (2 ^ 1024) a); [lia|].
  f_equal. unfold z.
  destruct negative; [rewrite Z.sgn_neg by lia | rewrite Z.sgn_pos by lia];
    lia.
Qed.

(** What a rounding gives is a double. *)
Lemma round_idempotent (z r : Z) :
  round_to_double z = Num r -> round_to_double r = Num r.
Proof.
  destruct (Z_lt_le_dec (Z.abs z) (2 ^ 53)) as [Hs|Hb].
  - rewrite (round_small z Hs). intros [= <-]. now apply round_small.
  - destruct (round_parts z Hb) as (e & q' & He & Hq & _ & ->).
    destruct (Z.leb_spec (2 ^ 1024) (q' * 2 ^ e)) as [|Hfin]; [discriminate|].
    intros [= <-].
    assert (Hpe : 0 < 2 ^ e) by (apply Z.pow_pos_nonneg; lia).
    assert (Hz : z <> 0) by (assert (0 < 2 ^ 53) by reflexivity; lia).
    assert (Hsgn : Z.sgn z * (q' * 2 ^ e)
                   = if z <? 0 then - (q' * 2 ^ e) else q' * 2 ^ e).
    { destruct (Z.ltb_spec z 0);
        [rewrite Z.sgn_neg by lia | rewrite Z.sgn_pos by lia]; lia. }
    rewrite Hsgn.
    destruct (Z.eq_dec q' (2 ^ 53)) as [->|Hne].
    + replace (2 ^ 53 * 2 ^ e) with (2 ^ 52 * 2 ^ (e + 1)) in *.
      * apply (double_is_fixed (2 ^ 52) (e + 1) (z <? 0)); lia.
      * rewrite Z.pow_add_r by lia. change (2 ^ 53) with (2 ^ 52 * 2). lia.
    + apply (double_is_fixed q' e (z <? 0)); lia.
Qed.

Lemma round_opp (z : Z) : z <> 0 -> round_to_double (- z) = opp (round_to_double z).
Proof.
  intros Hz. unfold round_to_double. rewrite Z.abs_opp.
  destruct (Z.abs z <? 2 ^ 53); [reflexivity|].
  cbv zeta.
  destruct (2 ^ 1024 <=? _).
  - cbn [opp]. f_equal. destruct z; try reflexivity. congruence.
  - cbn [opp]. f_equal. rewrite Z.sgn_opp. lia.
Qed.

Lemma round_opp_double (z r : Z) :
  round_to_double z = Num r -> round_to_double (- r) = Num (- r).
Proof.
  intros H. apply round_idempotent in H.
  destruct (Z.eq_dec r 0) as [->|Hr]; [reflexivity|].
  now rewrite round_opp, H.
Qed.

(** ** Decimal strings *)

Lemma scan_digits_string_of_uint (d : uint) :
  scan_digits (NilEmpty.string_of_uint d) = d.
Proof.
  induction d; simpl; try rewrite IHd; reflexivity.
Qed.

Lemma all_digits_string_of_uint (d : uint) :
  all_digits (NilEmpty.string_of_uint d) = true.
Proof.
  induction d; simpl; auto.
Qed.

Lemma digit_plain (c : ascii) :
  is_digit c = true ->
  isStrWhiteSpaceChar c = false
  /\ Ascii.eqb c "-" = false /\ Ascii.eqb c "+" = false
  /\ is_slash c = false /\ is_dot c = false.
Proof.
  destruct c as [[] [] [] [] [] [] [] []]; unfold is_digit; simpl; intros H;
    try discriminate H; repeat split; reflexivity.
Qed.

(** A string that starts with a digit has no white space to skip and
    no sign. *)
Lemma parseInt_unsigned (c : ascii) (s : string) :
  is_digit c = true ->
  parseInt (String c s)
  = round_to_double (Z.of_N (N.of_uint (scan_digits (String c s)))).
Proof.
  intros Hc. destruct (digit_plain c Hc) as (Hw & Hm & Hp & _).
  unfold parseInt. simpl trimStart. rewrite Hw.
  replace (match String c s with
           | String "-"%char r => (-1, r)
           | String "+"%char r => (1, r)
           | _ => (1, String c s)
           end) with (1, String c s).
  - cbv beta iota.
    destruct (scan_digits (String c s)) eqn:E;
      try (rewrite Z.mul_1_l; reflexivity).
    exfalso. unfold is_digit in Hc.
    destruct c as [[] [] [] [] [] [] [] []]; simpl in *; discriminate.
  - destruct c as [[] [] [] [] [] [] [] []]; simpl in *;
      try reflexivity; discriminate.
Qed.

Lemma pos_to_uint_not_nil (p : positive) : Pos.to_uint p <> Nil.
Proof.
  intros H. pose proof (DecimalPos.Unsigned.of_to p) as E.
  rewrite H in E. discriminate E.
Qed.

Lemma toString_small (n : Z) :
  Z.abs n < 2 ^ 53 -> toString (Num n) = NilZero.string_of_int (Z.to_int n).
Proof.
  intros H. unfold toString.
  destruct (Z.ltb_spec (Z.abs n) (2 ^ 53)); [reflexivity | lia].
Qed.

(** What the template literal writes for a natural number below
    [2^53]: a non-empty string of digits. *)
Lemma toString_nat_shape (n : Z) :
  0 <= n < 2 ^ 53 ->
  exists c s, toString (Num n) = String c s
              /\ all_digits (String c s) = true
              /\ scan_digits (String c s) = N.to_uint (Z.to_N n).
Proof.
  intros Hn. rewrite toString_small by lia. destruct n as [|p|p]; [| |lia].
  - exists "0"%char, EmptyString. repeat split.
  - simpl Z.to_int.
    unfold NilZero.string_of_int, NilZero.string_of_uint.
    pose proof (pos_to_uint_not_nil p) as Hnil.
    pose proof (all_digits_string_of_uint (Pos.to_uint p)) as Hall.
    pose proof (scan_digits_string_of_uint (Pos.to_uint p)) as Hscan.
    change (N.to_uint (Z.to_N (Z.pos p))) with (Pos.to_uint p).
    destruct (Pos.to_uint p) eqn:Eu; try congruence;
      rewrite <- Eu in *;
      (destruct (NilEmpty.string_of_uint (Pos.to_uint p)) as [|c s] eqn:Es;
       [rewrite Eu in Es; discriminate Es | exists c, s; auto]).
Qed.

(** [parseInt] reads back what the template literal writes for a
    natural number below [2^53]. *)
Lemma parseInt_toString (n : Z) :
  0 <= n < 2 ^ 53 -> parseInt (toString (Num n)) = Num n.
Proof.
  intros Hn. destruct (toString_nat_shape n Hn) as (c & s & -> & Hall & Hscan).
  simpl in Hall. apply andb_prop in Hall as [Hc _].
  rewrite (parseInt_unsigned c s Hc), Hscan, DecimalN.Unsigned.of_to.
  rewrite Z2N.id by lia. apply round_small. lia.
Qed.

(** What [parseInt] returns is a double. *)
Lemma parseInt_double (s : string) (y : Z) :
  parseInt s = Num y -> round_to_double y = Num y.
Proof.
  unfold parseInt.
  destruct (match trimStart s with
            | String "-"%char r => (-1, r)
            | String "+"%char r => (1, r)
            | _ => (1, trimStart s)
            end) as [sign rest].
  destruct (scan_digits rest); try discriminate; apply round_idempotent.
Qed.

(** ** The 32-bit shift *)

Lemma wrap32_small (v : Z) : - 2 ^ 31 <= v < 2 ^ 31 -> wrap32 v = v.
Proof.
  intros Hv. unfold wrap32.
  destruct (Z_lt_le_dec v 0) as [Hneg|Hpos].
  - replace (v mod 2 ^ 32) with (v + 2 ^ 32).
    + destruct (Z.leb_spec (2 ^ 31) (v + 2 ^ 32)); lia.
    + apply Z.mod_unique with (q := -1); lia.
  - rewrite Z.mod_small by lia.
    destruct (Z.leb_spec (2 ^ 31) v); lia.
Qed.

Lemma shift_count (z : Z) : Z.land (z mod 2 ^ 32) 31 = z mod 32.
Proof.
  change 31 with (Z.ones 5). rewrite Z.land_ones by lia.
  change (2 ^ 5) with 32. apply Z.mod_mod_divide.
  exists (2 ^ 27). reflexivity.
Qed.

(** [1 << z] for any integer [z]: the shift count is [z mod 32], and
    bit 31 is the sign bit. *)
Lemma shl_one (z : Z) :
  shl (Num 1) (Num z) =
    Num (if z mod 32 =? 31 then - 2 ^ 31 else 2 ^ (z mod 32)).
Proof.
  unfold shl, ToInt32, ToUint32. rewrite shift_count.
  change (wrap32 1) with 1.
  assert (Hm : 0 <= z mod 32 < 32) by (apply Z.mod_pos_bound; lia).
  rewrite Z.shiftl_mul_pow2, Z.mul_1_l by lia.
  destruct (Z.eqb_spec (z mod 32) 31) as [->|Hne]; [reflexivity|].
  rewrite wrap32_small; [reflexivity|].
  assert (2 ^ (z mod 32) <= 2 ^ 30) by (apply Z.pow_le_mono_r; lia).
  assert (0 < 2 ^ (z mod 32)) by (apply Z.pow_pos_nonneg; lia).
  lia.
Qed.

Lemma shl_one_small (z : Z) :
  0 <= z <= 30 -> shl (Num 1) (Num z) = Num (2 ^ z).
Proof.
  intros Hz. rewrite shl_one, Z.mod_small by lia.
  destruct (Z.eqb_spec z 31); [lia | reflexivity].
Qed.

(** What [1 << z] can be. *)
Lemma shl_one_range (z : Z) :
  exists s, shl (Num 1) (Num z) = Num s /\ - 2 ^ 31 <= s <= 2 ^ 30.
Proof.
  eexists. split; [apply shl_one|].
  assert (Hm : 0 <= z mod 32 < 32) by (apply Z.mod_pos_bound; lia).
  destruct (Z.eqb_spec (z mod 32) 31); [split; [lia | discriminate]|].
  assert (2 ^ (z mod 32) <= 2 ^ 30) by (apply Z.pow_le_mono_r; lia).
  assert (0 < 2 ^ (z mod 32)) by (apply Z.pow_pos_nonneg; lia).
  assert (0 < 2 ^ 31) by reflexivity. lia.
Qed.

(** The flip is the double of [(1 << z) - 1 - y]. *)
Lemma yToUse_shl (z y s : Z) :
  shl (Num 1) (Num z) = Num s -> - 2 ^ 31 <= s <= 2 ^ 30 ->
  yToUse (Num z) (Num y) = round_to_double (s - 1 - y).
Proof.
  intros Hs Hr. unfold yToUse, CONVERT_Y_TO_TMS. rewrite Hs. cbn [sub].
  rewrite (round_small (s - 1)); [reflexivity|].
  assert (2 ^ 31 < 2 ^ 53) by reflexivity.
  assert (2 ^ 30 < 2 ^ 31) by reflexivity. lia.
Qed.

Lemma pow2_le_30 (z : Z) : 0 <= z <= 30 -> 0 < 2 ^ z <= 2 ^ 30.
Proof.
  intros Hz. split; [apply Z.pow_pos_nonneg; lia|].
  apply Z.pow_le_mono_r; lia.
Qed.

Lemma yToUse_small (z y : Z) :
  0 <= z <= 30 -> Z.abs (2 ^ z - 1 - y) < 2 ^ 53 ->
  yToUse (Num z) (Num y) = Num (2 ^ z - 1 - y).
Proof.
  intros Hz Hy. pose proof (pow2_le_30 z Hz) as Hp.
  rewrite (yToUse_shl z y (2 ^ z)).
  - now apply round_small.
  - now apply shl_one_small.
  - assert (0 < 2 ^ 31) by reflexivity. lia.
Qed.

(** Between the zooms 0 and 30 the flip of a row of the zoom is its
    own inverse. *)
Lemma yToUse_involutive (z y : Z) :
  0 <= z <= 30 -> 0 <= y < 2 ^ z ->
  yToUse (Num z) (yToUse (Num z) (Num y)) = Num y.
Proof.
  intros Hz Hy. pose proof (pow2_le_30 z Hz) as Hp.
  assert (2 ^ 30 < 2 ^ 53) by reflexivity.
  rewrite (yToUse_small z y), yToUse_small by lia. f_equal. lia.
Qed.

(** From the zoom 31 on the flip of a row of the zoom is not
    [2^z - 1 - y]. *)
Lemma yToUse_wraps (z y : Z) :
  31 <= z -> 0 <= y < 2 ^ z ->
  yToUse (Num z) (Num y) <> Num (2 ^ z - 1 - y).
Proof.
  intros Hz Hy H.
  destruct (shl_one_range z) as (s & Hs & Hr).
  rewrite (yToUse_shl z y s Hs Hr) in H.
  apply round_error in H.
  assert (Hp : 2 ^ 31 <= 2 ^ z) by (apply Z.pow_le_mono_r; lia).
  assert (E31 : 2 ^ 31 = 2147483648) by reflexivity.
  assert (E30 : 2 ^ 30 = 1073741824) by reflexivity.
  assert (E53 : 2 ^ 53 = 9007199254740992) by reflexivity.
  rewrite E31, E30, E53 in *.
  set (P := 2 ^ z) in *. lia.
Qed.

(** ** [path.parse] on a tile file name *)

Lemma list_ascii_of_string_app (s t : string) :
  list_ascii_of_string (s ++ t)
  = (list_ascii_of_string s ++ list_ascii_of_string t)%list.
Proof.
  induction s as [|c s IH]; simpl; [reflexivity | now rewrite IH].
Qed.

Lemma take_until_slash_all (l : list ascii) :
  forallb (fun c => negb (is_slash c)) l = true -> take_until_slash l = l.
Proof.
  induction l as [|c l IH]; simpl; [reflexivity|].
  intros H. apply andb_prop in H as [Hc Hl].
  destruct (is_slash c); [discriminate Hc | now rewrite IH].
Qed.

(** The name of ["<s>.png"] is [s], for a non-empty [s] without a
    slash. *)
Lemma parse_name_png (s : string) :
  s <> EmptyString ->
  forallb (fun c => negb (is_slash c)) (list_ascii_of_string s) = true ->
  parse_name (s ++ ".png") = s.
Proof.
  intros Hne Hs. unfold parse_name.
  rewrite list_ascii_of_string_app, rev_app_distr.
  simpl List.rev. simpl drop_slashes.
  cbn [app take_until_slash is_slash Ascii.eqb Bool.eqb].
  rewrite take_until_slash_all by (now rewrite forallb_rev).
  cbn [after_first_dot is_dot Ascii.eqb Bool.eqb].
  destruct (List.rev (list_ascii_of_string s)) as [|c r] eqn:Er.
  - exfalso. apply Hne.
    apply (f_equal (@List.rev ascii)) in Er. rewrite rev_involutive in Er.
    simpl in Er. rewrite <- (string_of_list_ascii_of_string s), Er.
    reflexivity.
  - rewrite <- Er. simpl List.rev. rewrite rev_involutive.
    assert (Hb : string_of_list_ascii
                   ((((list_ascii_of_string s ++ ["."%char]) ++ ["p"%char])
                       ++ ["n"%char]) ++ ["g"%char])%list
                 = s ++ ".png").
    { rewrite <- (string_of_list_ascii_of_string (s ++ ".png")).
      rewrite list_ascii_of_string_app. simpl.
      repeat rewrite <- app_assoc. reflexivity. }
    assert (Hlen : String.eqb (s ++ ".png") ".." = false).
    { apply String.eqb_neq.
      destruct s as [|c1 [|c2 [|c3 s]]]; simpl; congruence. }
    rewrite Hb, Hlen. apply string_of_list_ascii_of_string.
Qed.

Lemma all_digits_no_slash (s : string) :
  all_digits s = true ->
  forallb (fun c => negb (is_slash c)) (list_ascii_of_string s) = true.
Proof.
  induction s as [|c s IH]; simpl; [reflexivity|].
  intros H. apply andb_prop in H as [Hc Hs].
  destruct (digit_plain c Hc) as (_ & _ & _ & Hsl & _).
  now rewrite Hsl, IH.
Qed.

Lemma parse_name_tile (y : Z) :
  0 <= y < 2 ^ 53 ->
  parse_name (toString (Num y) ++ ".png") = toString (Num y).
Proof.
  intros Hy. destruct (toString_nat_shape y Hy) as (c & s & E & Hall & _).
  rewrite E. apply parse_name_png; [discriminate|].
  now apply all_digits_no_slash.
Qed.

(** ** The handler *)

Lemma GET_reads cwd fs fullId zStr xStr yPng :
  reads (fst (GET cwd fs [fullId; zStr; xStr; yPng]))
  = [finalFilePath cwd fullId zStr xStr yPng].
Proof.
  unfold GET. destruct (fs _); reflexivity.
Qed.

Lemma GET_answer cwd fs fullId zStr xStr yPng :
  snd (GET cwd fs [fullId; zStr; xStr; yPng])
  = match fs (finalFilePath cwd fullId zStr xStr yPng) with
    | inr fileBuffer =>
        mkResponse 200 [("Content-Type", "image/png")] (Buffer fileBuffer)
    | inl _ => tile_not_found
    end.
Proof.
  unfold GET. destruct (fs _); reflexivity.
Qed.

Lemma finalFilePath_flip cwd fullId xStr (z y : Z) :
  0 <= z <= 30 -> 0 <= y < 2 ^ z ->
  finalFilePath cwd fullId (toString (Num z)) xStr (toString (Num y) ++ ".png")
  = join (TILE_BASE_PATH cwd)
      [fullId; toString (Num z); xStr; toString (Num (2 ^ z - 1 - y)) ++ ".png"].
Proof.
  intros Hz Hy. pose proof (pow2_le_30 z Hz) as Hp.
  assert (2 ^ 30 < 2 ^ 53) by reflexivity.
  assert (30 < 2 ^ 53) by reflexivity.
  unfold finalFilePath.
  rewrite parse_name_tile, !parseInt_toString, yToUse_small by lia.
  reflexivity.
Qed.

(** A lookup path with closed segments is evaluated: the file name
    first, then the join. *)
Ltac eval_path :=
  unfold finalFilePath;
  match goal with
  | |- context [toString ?n ++ ".png"] =>
      let v := eval vm_compute in (toString n ++ ".png") in
      change (toString n ++ ".png") with v
  end;
  unfold TILE_BASE_PATH, join;
  repeat match goal with
    | |- context [flat_map split_slash ?l] =>
        let v := eval vm_compute in (flat_map split_slash l) in
        change (flat_map split_slash l) with v
    end;
  cbn [fold_left]; unfold push_segment;
  cbn [String.eqb Ascii.eqb Bool.eqb orb];
  repeat rewrite <- app_assoc; reflexivity.

(** ** Numbers beyond [2^53] *)

(** The numbers of the route are doubles: [parseInt] rounds what it
    reads, the subtraction rounds its result, and the template
    literal writes the shortest digits, with an exponent from
    [1e21] on.  So the flip of the flip of a large row is not the
    row, and a row of 22 digits is looked up under a name with an
    exponent.  Below [2^53] the shortest digits of an integer are
    its own. *)
Example numbers_are_doubles :
  parseInt "9007199254740993" = Num 9007199254740992
  /\ yToUse (Num 1) (Num 9007199254740994) = Num (-9007199254740992)
  /\ yToUse (Num 1) (yToUse (Num 1) (Num 9007199254740994))
     = Num 9007199254740992
  /\ toString (Num (2 ^ 67)) = "147573952589676410000"
  /\ toString (Num (- 10 ^ 21)) = "-1e+21"
  /\ toString (Num (2 ^ 70)) = "1.1805916207174113e+21"
  /\ shortest 4088 = "4088" /\ shortest 1200 = "1200"
  /\ shortest (2 ^ 53 - 1) = "9007199254740991"
  /\ parseInt ("1" ++ Js.zeros 309) = Infinity false
  /\ (forall fs,
        reads (fst (GET ["srv"] fs ["sub1"; "0"; "0"; "1000000000000000000000.png"]))
        = [["srv"; "public"; "tiles"; "sub1"; "0"; "0"; "-1e+21.png"]])
  /\ (forall fs,
        reads (fst (GET ["srv"] fs ["sub1"; "0"; "0"; ("1" ++ Js.zeros 309) ++ ".png"]))
        = [["srv"; "public"; "tiles"; "sub1"; "0"; "0"; "-Infinity.png"]]).
Proof.
  repeat split; try (vm_compute; reflexivity);
    intros fs; rewrite GET_reads; vm_compute; reflexivity.
Qed.

(** ** Claims about the tile route *)

(** C1, counterexample: at zoom 31 and row 0 (a row below [2^31]) the
    handler's flip is [-2147483649], not [2^31 - 1 - 0], and that is
    the file name it looks up. *)
Lemma tms_flip_wraps_at_zoom_31 :
  0 <= 31 /\ 0 <= 0 < 2 ^ 31
  /\ yToUse (Num 31) (Num 0) = Num (-2147483649)
  /\ yToUse (Num 31) (Num 0) <> Num (2 ^ 31 - 1 - 0)
  /\ forall cwd fs,
       reads (fst (GET cwd fs ["sub1"; "31"; "0"; "0.png"]))
       = [(TILE_BASE_PATH cwd ++ ["sub1"; "31"; "0"; "-2147483649.png"])%list].
Proof.
  repeat split; try lia; try discriminate.
  intros cwd fs. rewrite GET_reads. f_equal. eval_path.
Qed.

(** C1, as amended: for the zooms 0 to 30 and a row [y] of the zoom
    ([0 <= y < 2^z]) the handler's flip [(1 << z) - 1 - y] is
    [2^z - 1 - y], a row of the zoom again, and the flip of the flip
    is [y]; a request for the row reads exactly one file, whose
    name is the flipped row.  From the zoom 31 on the 32-bit shift
    wraps and the flip of no row of the zoom is [2^z - 1 - y]. *)
Theorem tms_flip_applied_once :
  (forall cwd fs fullId xStr (z y : Z),
      0 <= z <= 30 -> 0 <= y < 2 ^ z ->
      yToUse (Num z) (Num y) = Num (2 ^ z - 1 - y)
      /\ 0 <= 2 ^ z - 1 - y < 2 ^ z
      /\ yToUse (Num z) (yToUse (Num z) (Num y)) = Num y
      /\ reads (fst (GET cwd fs [fullId; toString (Num z); xStr;
                                 toString (Num y) ++ ".png"]))
         = [join (TILE_BASE_PATH cwd)
              [fullId; toString (Num z); xStr;
               toString (Num (2 ^ z - 1 - y)) ++ ".png"]])
  /\ (forall z y : Z,
        31 <= z -> 0 <= y < 2 ^ z ->
        yToUse (Num z) (Num y) <> Num (2 ^ z - 1 - y)).
Proof.
  split; [|exact yToUse_wraps].
  intros cwd fs fullId xStr z y Hz Hy.
  pose proof (pow2_le_30 z Hz) as Hp.
  assert (2 ^ 30 < 2 ^ 53) by reflexivity.
  split; [|split; [|split]].
  - apply yToUse_small; lia.
  - lia.
  - now apply yToUse_involutive.
  - rewrite GET_reads, finalFilePath_flip by lia. reflexivity.
Qed.

Lemma tms_flip_applied_once_witness :
  yToUse (Num 3) (yToUse (Num 3) (Num 7)) = Num 7
  /\ yToUse (Num 3) (Num 7) = Num 0
  /\ reads (fst (GET ["srv"] (fun _ => inl "ENOENT") ["sub1"; "3"; "2"; "7.png"]))
     = [["srv"; "public"; "tiles"; "sub1"; "3"; "2"; "0.png"]]
  /\ yToUse (Num 40) (Num 5) <> Num (2 ^ 40 - 1 - 5).
Proof.
  destruct tms_flip_applied_once as [Hget Hwrap].
  destruct (Hget ["srv"] (fun _ => inl "ENOENT") "sub1" "2" 3 7)
    as (Hy & _ & Hinv & Hr); [lia | simpl; lia |].
  split; [exact Hinv|]. split; [exact Hy|]. split; [exact Hr|].
  apply Hwrap; [lia | simpl; lia].
Defined.

(** C2: the request for [sub1], zoom 3, column 2, row 7 looks up
    [sub1/3/2/0.png] below the tile directory and answers from that
    file; the flipped rows for (z=0, y=0), (z=3, y=0) and (z=3, y=7)
    are 0, 7 and 0. *)
Theorem tile_sub1_3_2_7 :
  forall cwd fs,
    let stored := (TILE_BASE_PATH cwd ++ ["sub1"; "3"; "2"; "0.png"])%list in
    reads (fst (GET cwd fs ["sub1"; "3"; "2"; "7.png"])) = [stored]
    /\ snd (GET cwd fs ["sub1"; "3"; "2"; "7.png"])
       = match fs stored with
         | inr fileBuffer =>
             mkResponse 200 [("Content-Type", "image/png")] (Buffer fileBuffer)
         | inl _ => tile_not_found
         end
    /\ yToUse (Num 0) (Num 0) = Num 0
    /\ yToUse (Num 3) (Num 0) = Num 7
    /\ yToUse (Num 3) (Num 7) = Num 0.
Proof.
  intros cwd fs stored.
  assert (E : finalFilePath cwd "sub1" "3" "2" "7.png" = stored).
  { unfold stored. eval_path. }
  rewrite GET_reads, GET_answer, E. repeat split.
Qed.

(** C6, counterexample: a read that fails with an I/O fault and a
    read of a tile that does not exist get the same answer, so does a
    request whose coordinates are not integers; nothing in the answer
    tells them apart. *)
Lemma storage_fault_answers_like_missing_tile :
  let missing : tile_store := fun _ => inl "ENOENT" in
  let faulty : tile_store := fun _ => inl "EIO" in
  snd (GET [] faulty ["sub1"; "3"; "2"; "7.png"])
  = snd (GET [] missing ["sub1"; "3"; "2"; "7.png"])
  /\ snd (GET [] missing ["sub1"; "z"; "x"; "y.png"])
     = snd (GET [] missing ["sub1"; "3"; "2"; "7.png"])
  /\ status (snd (GET [] faulty ["sub1"; "3"; "2"; "7.png"])) = 400
  /\ status (snd (GET [] missing ["sub1"; "3"; "2"]))
     = status (snd (GET [] missing ["sub1"; "3"; "2"; "7.png"])).
Proof.
  repeat split.
Qed.

(** C6, as amended: whenever the read of the computed path fails, for
    whatever reason, the answer is status 400 with the text
    "Tile not found on server " and never a 5xx; the error code goes
    to the server log only.  The answer to a wrong segment count has
    the same status and another text. *)
Theorem failed_read_is_tile_not_found :
  forall cwd fs fullId zStr xStr yPng code,
    fs (finalFilePath cwd fullId zStr xStr yPng) = inl code ->
    snd (GET cwd fs [fullId; zStr; xStr; yPng]) = tile_not_found
    /\ status tile_not_found = 400
    /\ payload tile_not_found = Text "Tile not found on server "
    /\ last (fst (GET cwd fs [fullId; zStr; xStr; yPng])) (console_log EmptyString)
       = console_error
           ("[TILE API - FAILED] Error reading file. Error code: " ++ code)
    /\ status invalid_format = status tile_not_found
    /\ payload invalid_format <> payload tile_not_found.
Proof.
  intros cwd fs fullId zStr xStr yPng code Hfs.
  rewrite GET_answer. unfold GET. rewrite Hfs.
  repeat split. discriminate.
Qed.

Lemma failed_read_is_tile_not_found_witness :
  snd (GET ["srv"] (fun _ => inl "ENOENT") ["sub1"; "3"; "2"; "7.png"])
  = tile_not_found
  /\ snd (GET ["srv"] (fun _ => inl "EACCES") ["sub1"; "3"; "2"; "7.png"])
     = tile_not_found.
Proof.
  split.
  - apply (failed_read_is_tile_not_found
             ["srv"] (fun _ => inl "ENOENT") "sub1" "3" "2" "7.png" "ENOENT").
    reflexivity.
  - apply (failed_read_is_tile_not_found
             ["srv"] (fun _ => inl "EACCES") "sub1" "3" "2" "7.png" "EACCES").
    reflexivity.
Defined.

(** C7: a request whose path has another number of segments than
    four is answered 400 "Invalid tile URL format", whatever the
    segments are; no file is looked up and the answer is not the one
    of a missing tile. *)
Theorem wrong_segment_count_is_bad_request :
  forall cwd fs pathSegments,
    List.length pathSegments <> 4%nat ->
    snd (GET cwd fs pathSegments) = invalid_format
    /\ status (snd (GET cwd fs pathSegments)) = 400
    /\ reads (fst (GET cwd fs pathSegments)) = []
    /\ snd (GET cwd fs pathSegments) <> tile_not_found.
Proof.
  intros cwd fs segs Hlen.
  assert (E : GET cwd fs segs
              = ([console_log ("TILE API - Request Received /api/tiles/"
                                 ++ String.concat "/" segs)],
                 invalid_format)).
  { destruct segs as [|a [|b [|c [|d [|e segs]]]]]; try reflexivity.
    simpl in Hlen. congruence. }
  rewrite E. repeat split. discriminate.
Qed.

Lemma wrong_segment_count_is_bad_request_witness :
  snd (GET ["srv"] (fun _ => inr []) ["sub1"; "3"; "2"]) = invalid_format
  /\ snd (GET ["srv"] (fun _ => inr []) ["sub1"; "3"; "2"; "7"; "0.png"])
     = invalid_format.
Proof.
  split.
  - apply (wrong_segment_count_is_bad_request
             ["srv"] (fun _ => inr []) ["sub1"; "3"; "2"]).
    simpl. lia.
  - apply (wrong_segment_count_is_bad_request
             ["srv"] (fun _ => inr []) ["sub1"; "3"; "2"; "7"; "0.png"]).
    simpl. lia.
Defined.

(** C9, counterexample: zoom 31 makes [1 << z] negative and zoom 32
    makes it 1; neither request is rejected, the wrapped value goes
    into the file name and the file found there is served. *)
Lemma absurd_zoom_is_looked_up :
  let fs : tile_store := fun _ => inr [] in
  shl (Num 1) (Num 31) = Num (- 2 ^ 31)
  /\ shl (Num 1) (Num 32) = Num 1
  /\ GET ["srv"] fs ["sub1"; "31"; "0"; "0.png"]
     = ([console_log "TILE API - Request Received /api/tiles/sub1/31/0/0.png";
         console_log "[TILE - DATA] y raw from front end 0.png";
         console_log "[TILE - DATA] y tms transformed -2147483649";
         console_log "[TILE API - Reading] Attempting to read file: /srv/public/tiles/sub1/31/0/-2147483649.png";
         readFileSync ["srv"; "public"; "tiles"; "sub1"; "31"; "0"; "-2147483649.png"];
         console_log "[TILE API - SUCCESS] Successfully read /srv/public/tiles/sub1/31/0/-2147483649.png. Sending image to browser."],
        mkResponse 200 [("Content-Type", "image/png")] (Buffer []))
  /\ reads (fst (GET ["srv"] fs ["sub1"; "32"; "0"; "5.png"]))
     = [["srv"; "public"; "tiles"; "sub1"; "32"; "0"; "-5.png"]]
  /\ status (snd (GET ["srv"] fs ["sub1"; "32"; "0"; "5.png"])) = 200.
Proof.
  repeat split.
Qed.

(** C9, as amended: the handler has no check on the zoom.  [1 << z]
    takes the shift count modulo 32 and is [2^z] exactly for zooms 0
    to 30; every four-segment request goes on to the lookup with the
    value so computed. *)
Theorem zoom_is_not_validated :
  (forall z : Z,
      shl (Num 1) (Num z)
      = Num (if z mod 32 =? 31 then - 2 ^ 31 else 2 ^ (z mod 32)))
  /\ (forall z : Z, 0 <= z <= 30 -> shl (Num 1) (Num z) = Num (2 ^ z))
  /\ (forall cwd fs fullId zStr xStr yPng,
        reads (fst (GET cwd fs [fullId; zStr; xStr; yPng]))
        = [join (TILE_BASE_PATH cwd)
             [fullId; zStr; xStr;
              toString (sub (sub (shl (Num 1) (parseInt zStr)) (Num 1))
                            (parseInt (parse_name yPng))) ++ ".png"]]).
Proof.
  split; [exact shl_one|]. split; [exact shl_one_small|].
  intros. rewrite GET_reads. reflexivity.
Qed.

Lemma zoom_is_not_validated_witness :
  shl (Num 1) (Num 30) = Num 1073741824
  /\ shl (Num 1) (Num 63) = Num (-2147483648).
Proof.
  destruct zoom_is_not_validated as (Hall & Hsmall & _).
  split.
  - apply (Hsmall 30). lia.
  - apply (Hall 63).
Defined.

End TilesProofs.

(* ================================================================== *)
(** * [JSON.parse] reads back what [JSON.stringify] writes *)
(* ================================================================== *)

Module JsonProofs.
Import Json ListFacts.
Local Open Scope N_scope.
Local Open Scope list_scope.

Section WithNumbers.
Context {NF : NumberFormat}.

(** ** Reading *)

Lemma read_app r a b : read r (a ++ b) = read (read r a) b.
Proof. apply fold_left_app. Qed.

Lemma read_cons r c s : read r (c :: s) = read (step r c) s.
Proof. reflexivity. Qed.

Lemma read_failed stack s : read (stack, Failed) s = (stack, Failed).
Proof. induction s as [|c s IH]; [reflexivity | exact IH]. Qed.

Lemma step_whitespace stack m c :
  skips m = true -> is_whitespace c = true -> step (stack, m) c = (stack, m).
Proof.
  intros Hm Hc. destruct m; try discriminate Hm; simpl;
    unfold step_value, step_key, step_colon, step_after, step_done;
    rewrite Hc; reflexivity.
Qed.

Lemma read_whitespace stack m ws rest :
  skips m = true -> forallb is_whitespace ws = true ->
  read (stack, m) (ws ++ rest) = read (stack, m) rest.
Proof.
  intros Hm. induction ws as [|c ws IH]; simpl; [reflexivity|].
  intros H. apply andb_prop in H as [Hc Hws].
  change (read (step (stack, m) c) (ws ++ rest) = read (stack, m) rest).
  rewrite step_whitespace by assumption. now apply IH.
Qed.

(** ** Strings *)

Lemma step_string_raw stack k acc c :
  (c =? 34) = false -> (c =? 92) = false -> (c <? 32) = false ->
  step (stack, InString k acc) c = (stack, InString k (c :: acc)).
Proof.
  intros H1 H2 H3. simpl. unfold step_string. now rewrite H1, H2, H3.
Qed.

Lemma hex_value_digit d : d < 16 -> hex_value (hex_digit d) = Some d.
Proof.
  intros Hd. unfold hex_digit, hex_value.
  destruct (N.ltb_spec d 10).
  - destruct (N.leb_spec 48 (48 + d)); [|lia].
    destruct (N.leb_spec (48 + d) 57); [|lia].
    cbn [andb]. f_equal. lia.
  - destruct (N.leb_spec (87 + d) 57); [lia|].
    rewrite andb_false_r.
    destruct (N.leb_spec 97 (87 + d)); [|lia].
    destruct (N.leb_spec (87 + d) 102); [|lia].
    cbn [andb]. f_equal. lia.
Qed.

Lemma four_hex_digits c :
  c < 65536 ->
  16 * (16 * (16 * (16 * 0 + c / 4096 mod 16) + c / 256 mod 16)
        + c / 16 mod 16) + c mod 16 = c.
Proof.
  intros Hc. zify. Z.to_euclidean_division_equations. lia.
Qed.

Lemma read_UnicodeEscape stack k acc c rest :
  c < 65536 ->
  read (stack, InString k acc) (UnicodeEscape c ++ rest)
  = read (stack, InString k (c :: acc)) rest.
Proof.
  intros Hc. unfold UnicodeEscape.
  change (read (stack, InString k acc)
            ((ch "\" :: ch "u" :: hex_digit (c / 4096 mod 16)
                :: hex_digit (c / 256 mod 16) :: hex_digit (c / 16 mod 16)
                :: hex_digit (c mod 16) :: nil) ++ rest))
    with (read (stack, InHex k acc 4 0)
            (hex_digit (c / 4096 mod 16)
               :: hex_digit (c / 256 mod 16) :: hex_digit (c / 16 mod 16)
               :: hex_digit (c mod 16) :: rest)).
  repeat (rewrite read_cons; cbn [step]; unfold step_hex;
          rewrite hex_value_digit by (apply N.mod_lt; lia)).
  now rewrite four_hex_digits.
Qed.

Lemma escaped_is_code_unit c :
  (c <? 32) || is_leading_surrogate c || is_trailing_surrogate c = true ->
  c < 65536.
Proof.
  unfold is_leading_surrogate, is_trailing_surrogate.
  destruct (N.ltb_spec c 32); [lia|].
  destruct (N.leb_spec c 56319); [lia|].
  destruct (N.leb_spec c 57343); [lia|].
  rewrite !andb_false_r. discriminate.
Qed.

Lemma read_quote_unit stack k acc c rest :
  read (stack, InString k acc) (quote_unit c ++ rest)
  = read (stack, InString k (c :: acc)) rest.
Proof.
  unfold quote_unit.
  destruct (N.eqb_spec c 8) as [->|H8]; [reflexivity|].
  destruct (N.eqb_spec c 9) as [->|H9]; [reflexivity|].
  destruct (N.eqb_spec c 10) as [->|H10]; [reflexivity|].
  destruct (N.eqb_spec c 12) as [->|H12]; [reflexivity|].
  destruct (N.eqb_spec c 13) as [->|H13]; [reflexivity|].
  destruct (N.eqb_spec c 34) as [->|H34]; [reflexivity|].
  destruct (N.eqb_spec c 92) as [->|H92]; [reflexivity|].
  destruct ((c <? 32) || is_leading_surrogate c || is_trailing_surrogate c)
    eqn:Hesc.
  - apply read_UnicodeEscape. now apply escaped_is_code_unit.
  - apply orb_false_elim in Hesc as [Hesc _].
    apply orb_false_elim in Hesc as [Hlow _].
    change (read (step (stack, InString k acc) c) rest
            = read (stack, InString k (c :: acc)) rest).
    rewrite step_string_raw; auto; now apply N.eqb_neq.
Qed.

Lemma surrogate_raw c :
  is_leading_surrogate c = true \/ is_trailing_surrogate c = true ->
  (c =? 34) = false /\ (c =? 92) = false /\ (c <? 32) = false.
Proof.
  unfold is_leading_surrogate, is_trailing_surrogate.
  intros [H|H]; apply andb_prop in H as [H1 H2];
    apply N.leb_le in H1; repeat split;
    try (apply N.eqb_neq; lia); apply N.ltb_ge; lia.
Qed.

Lemma quote_units_two c d r :
  quote_units (c :: d :: r)
  = if is_leading_surrogate c && is_trailing_surrogate d
    then c :: d :: quote_units r
    else quote_unit c ++ quote_units (d :: r).
Proof. reflexivity. Qed.

Lemma read_quote_units s :
  forall stack k acc rest,
    read (stack, InString k acc) (quote_units s ++ rest)
    = read (stack, InString k (List.rev s ++ acc)) rest.
Proof.
  assert (H : forall n s, (List.length s <= n)%nat ->
            forall stack k acc rest,
              read (stack, InString k acc) (quote_units s ++ rest)
              = read (stack, InString k (List.rev s ++ acc)) rest).
  { clear s. induction n as [|n IH]; intros s Hlen stack k acc rest.
    - destruct s; [reflexivity | simpl in Hlen; lia].
    - destruct s as [|c [|d r]].
      + reflexivity.
      + simpl quote_units. apply read_quote_unit.
      + rewrite quote_units_two.
        destruct (is_leading_surrogate c && is_trailing_surrogate d) eqn:Hpair.
        * apply andb_prop in Hpair as [Hc Hd].
          destruct (surrogate_raw c (or_introl Hc)) as (C1 & C2 & C3).
          destruct (surrogate_raw d (or_intror Hd)) as (D1 & D2 & D3).
          rewrite <- !app_comm_cons, !read_cons.
          rewrite step_string_raw by assumption.
          rewrite step_string_raw by assumption.
          rewrite IH by (simpl in *; lia).
          cbn [List.rev]. now rewrite <- !app_assoc.
        * rewrite <- app_assoc, read_quote_unit.
          rewrite IH by (simpl in *; lia).
          change (List.rev (c :: d :: r)) with (List.rev (d :: r) ++ [c]).
          now rewrite <- app_assoc. }
  apply (H (List.length s)). lia.
Qed.

Lemma read_string_value stack first s rest :
  read (stack, Value first) (QuoteJSONString s ++ rest)
  = read (complete (JStr s) stack) rest.
Proof.
  unfold QuoteJSONString. rewrite <- app_comm_cons, read_cons.
  change (step (stack, Value first) 34) with (stack, InString false []).
  rewrite <- app_assoc, read_quote_units.
  change ([34] ++ rest) with (34 :: rest). rewrite read_cons.
  rewrite app_nil_r. cbn [step]. unfold step_string. cbn [N.eqb Pos.eqb].
  unfold complete_string. now rewrite rev_involutive.
Qed.

Lemma read_string_key stack first s rest :
  read (stack, Key first) (QuoteJSONString s ++ rest)
  = read (complete_string true s stack) rest.
Proof.
  unfold QuoteJSONString. rewrite <- app_comm_cons, read_cons.
  change (step (stack, Key first) 34) with (stack, InString true []).
  rewrite <- app_assoc, read_quote_units.
  change ([34] ++ rest) with (34 :: rest). rewrite read_cons.
  rewrite app_nil_r. cbn [step]. unfold step_string. cbn [N.eqb Pos.eqb].
  now rewrite rev_involutive.
Qed.

(** ** Keywords and numbers *)

Lemma read_null stack first rest :
  read (stack, Value first) (js "null" ++ rest) = read (complete JNull stack) rest.
Proof. reflexivity. Qed.

Lemma read_true stack first rest :
  read (stack, Value first) (js "true" ++ rest)
  = read (complete (JBool true) stack) rest.
Proof. reflexivity. Qed.

Lemma read_false stack first rest :
  read (stack, Value first) (js "false" ++ rest)
  = read (complete (JBool false) stack) rest.
Proof. reflexivity. Qed.

Lemma number_start_char c :
  is_number_start c = true ->
  is_number_char c = true /\ is_whitespace c = false
  /\ (c =? ch "[") = false /\ (c =? ch "{") = false /\ (c =? 34) = false.
Proof.
  unfold is_number_start, is_number_char, is_whitespace.
  change (ch "-") with 45. change (ch "[") with 91. change (ch "{") with 123.
  intros H. apply orb_prop in H as [H|H].
  - rewrite H. apply andb_prop in H as [H1 H2].
    apply N.leb_le in H1. apply N.leb_le in H2.
    repeat split; try reflexivity;
      repeat (apply orb_false_intro); apply N.eqb_neq; lia.
  - apply N.eqb_eq in H. subst c. repeat split.
Qed.

Lemma whitespace_not_number c :
  is_whitespace c = true -> is_number_char c = false.
Proof.
  unfold is_whitespace. intros H.
  repeat (apply orb_prop in H as [H|H]);
    apply N.eqb_eq in H; subst c; reflexivity.
Qed.

Lemma step_value_number stack first c :
  is_number_start c = true ->
  step (stack, Value first) c = (stack, InNumber [c]).
Proof.
  intros H. destruct (number_start_char c H) as (_ & H1 & H2 & H3 & H4).
  cbn [step]. unfold step_value. now rewrite H1, H2, H3, H4, H.
Qed.

Lemma read_number_chars stack s :
  forall acc,
    forallb is_number_char s = true ->
    read (stack, InNumber acc) s = (stack, InNumber (List.rev s ++ acc)).
Proof.
  induction s as [|c s IH]; intros acc H; [reflexivity|].
  simpl in H. apply andb_prop in H as [Hc Hs].
  rewrite read_cons. cbn [step]. unfold step_number. rewrite Hc.
  rewrite IH by exact Hs. cbn [List.rev]. now rewrite <- app_assoc.
Qed.

Lemma step_ended_complete v stack c :
  step_ended (complete v stack) c = step (complete v stack) c.
Proof.
  destruct stack as [|[acc|done [k|]] outer]; reflexivity.
Qed.

(** The text of a finite number, once started, is taken whole. *)
Lemma read_number_text stack first n :
  isFinite n = true ->
  read (stack, Value first) (numberToString n)
  = (stack, InNumber (List.rev (numberToString n))).
Proof.
  intros Hn.
  pose proof (numberToString_start n Hn) as Hstart.
  pose proof (numberToString_chars n Hn) as Hchars.
  destruct (numberToString n) as [|c s]; [discriminate Hstart|].
  simpl in Hstart, Hchars. apply andb_prop in Hchars as [_ Hs].
  rewrite read_cons, step_value_number by exact Hstart.
  rewrite read_number_chars by exact Hs. reflexivity.
Qed.

Lemma read_number stack first n rest :
  isFinite n = true -> delimited rest = true ->
  read (stack, Value first) (numberToString n ++ rest)
  = read (complete (JNum n) stack) rest.
Proof.
  intros Hn Hrest. destruct rest as [|c rest]; [discriminate Hrest|].
  simpl in Hrest. apply negb_true_iff in Hrest.
  rewrite read_app, read_number_text, read_cons by exact Hn.
  cbn [step]. unfold step_number, end_number. rewrite Hrest.
  rewrite rev_involutive, literal_of_numberToString by exact Hn.
  now rewrite step_ended_complete.
Qed.

(** ** The order of properties *)

Lemma jsstring_eqb_eq a b : jsstring_eqb a b = true <-> a = b.
Proof.
  unfold jsstring_eqb. destruct (list_eq_dec N.eq_dec a b); split;
    congruence.
Qed.

Lemma jsstring_eqb_refl a : jsstring_eqb a a = true.
Proof. now apply jsstring_eqb_eq. Qed.

Lemma key_before_irrefl k : key_before k k = false.
Proof.
  unfold key_before. destruct (array_index k).
  - apply N.ltb_irrefl.
  - now rewrite jsstring_eqb_refl.
Qed.

Lemma key_before_neq k' k : key_before k' k = true -> jsstring_eqb k' k = false.
Proof.
  intros H. destruct (jsstring_eqb k' k) eqn:E; [|reflexivity].
  apply jsstring_eqb_eq in E. subst k'.
  now rewrite key_before_irrefl in H.
Qed.

Lemma ordered_keys_snoc ks k :
  ordered_keys (ks ++ [k]) = true <->
  ordered_keys ks = true /\ forallb (fun k' => key_before k' k) ks = true.
Proof.
  induction ks as [|a ks IH]; simpl.
  - intuition.
  - rewrite forallb_app. simpl. rewrite andb_true_r, !andb_true_iff, IH.
    intuition.
Qed.

Lemma ordered_keys_app_l a b :
  ordered_keys (a ++ b) = true -> ordered_keys a = true.
Proof.
  induction a as [|k a IH]; simpl; [reflexivity|].
  rewrite forallb_app, !andb_true_iff. intuition.
Qed.

Lemma has_key_before k v o :
  forallb (fun k' => key_before k' k) (List.map fst o) = true ->
  has_key k o = false
  /\ (forall i, array_index k = Some i -> insert_index i k v o = o ++ [(k, v)]).
Proof.
  induction o as [|[k' v'] o IH]; simpl.
  - intros _. split; reflexivity.
  - intros H. apply andb_prop in H as [Hk Ho].
    destruct (IH Ho) as [IH1 IH2]. split.
    + now rewrite (key_before_neq _ _ Hk), IH1.
    + intros i Hi. unfold key_before in Hk. rewrite Hi in Hk.
      destruct (array_index k') as [j|]; [|discriminate Hk].
      now rewrite Hk, IH2.
Qed.

(** Defining a key that comes last in the order appends it. *)
Lemma set_last k v o :
  ordered_keys (List.map fst (o ++ [(k, v)])) = true ->
  set k v o = o ++ [(k, v)].
Proof.
  rewrite map_app. simpl. intros H. apply ordered_keys_snoc in H as [_ H].
  destruct (has_key_before k v o H) as [Hno Hins].
  unfold set. rewrite Hno.
  destruct (array_index k) as [i|]; [now apply Hins | reflexivity].
Qed.

(** ** Arrays and objects *)

Lemma blank_app a b : blank (a ++ b) = blank a && blank b.
Proof. apply forallb_app. Qed.

Lemma delimited_blank_then ws c rest :
  blank ws = true -> is_number_char c = false ->
  delimited (ws ++ c :: rest) = true.
Proof.
  destruct ws as [|w ws]; simpl; intros H Hc.
  - now rewrite Hc.
  - apply andb_prop in H as [Hw _].
    now rewrite (whitespace_not_number w Hw).
Qed.

Lemma wrap_shape opening closing gap stepback indent p partial :
  blank gap = true -> blank stepback = true -> blank indent = true ->
  exists pre w post,
    blank pre = true /\ blank w = true /\ blank post = true
    /\ wrap opening closing gap stepback indent (p :: partial)
       = opening :: pre ++ join (ch "," :: w) (p :: partial)
           ++ post ++ [closing].
Proof.
  intros Hgap Hstep Hind. unfold wrap. destruct gap as [|g gap].
  - exists [], [], []. repeat split.
  - exists (10 :: indent), (10 :: indent), (10 :: stepback).
    repeat split; simpl; assumption.
Qed.

Lemma join_two sep p q parts :
  join sep (p :: q :: parts) = p ++ sep ++ join sep (q :: parts).
Proof. reflexivity. Qed.

Lemma read_elements gap indent w l :
  blank gap = true -> blank indent = true -> blank w = true ->
  Forall reads_back l -> l <> [] ->
  forall stack acc first rest,
    delimited rest = true ->
    read (CArr acc :: stack, Value first)
         (join (ch "," :: w) (List.map (serialize gap indent) l) ++ rest)
    = read (CArr (List.rev l ++ acc) :: stack, After) rest.
Proof.
  intros Hgap Hind Hw Hall. induction Hall as [|e l He Hl IH]; [congruence|].
  intros _ stack acc first rest Hrest. destruct l as [|e' l].
  - cbn [List.map join]. rewrite He by auto. reflexivity.
  - cbn [List.map]. rewrite join_two, <- !app_assoc.
    rewrite He by (auto; intros _; reflexivity).
    cbn [complete]. rewrite <- app_comm_cons, read_cons.
    change (step (CArr (e :: acc) :: stack, After) (ch ","))
      with (CArr (e :: acc) :: stack, Value false).
    rewrite read_whitespace by auto.
    change (serialize gap indent e' :: List.map (serialize gap indent) l)
      with (List.map (serialize gap indent) (e' :: l)).
    rewrite IH by (auto; discriminate).
    change (List.rev (e :: e' :: l)) with (List.rev (e' :: l) ++ [e]).
    now rewrite <- app_assoc.
Qed.

Lemma read_member gap indent k v :
  blank gap = true -> blank indent = true -> reads_back v ->
  forall stack done first rest,
    delimited rest = true ->
    read (CObj done None :: stack, Key first) (member gap indent (k, v) ++ rest)
    = read (CObj (set k v done) None :: stack, After) rest.
Proof.
  intros Hgap Hind Hv stack done first rest Hrest. unfold member.
  cbn [fst snd]. rewrite <- app_assoc, read_string_key.
  cbn [complete_string]. rewrite <- app_comm_cons, read_cons.
  change (step (CObj done (Some k) :: stack, Colon) (ch ":"))
    with (CObj done (Some k) :: stack, Value false).
  rewrite <- app_assoc, read_whitespace; [|reflexivity|now destruct gap].
  rewrite Hv by auto. reflexivity.
Qed.

Lemma read_members gap indent w m :
  blank gap = true -> blank indent = true -> blank w = true ->
  Forall (fun kv => reads_back (snd kv)) m -> m <> [] ->
  forall stack done first rest,
    ordered_keys (List.map fst (done ++ m)) = true ->
    delimited rest = true ->
    read (CObj done None :: stack, Key first)
         (join (ch "," :: w) (List.map (member gap indent) m) ++ rest)
    = read (CObj (done ++ m) None :: stack, After) rest.
Proof.
  intros Hgap Hind Hw Hall. induction Hall as [|[k v] m Hv Hm IH]; [congruence|].
  intros _ stack done first rest Hord Hrest.
  assert (Hset : set k v done = done ++ [(k, v)]).
  { apply set_last. change ((k, v) :: m) with ([(k, v)] ++ m) in Hord.
    rewrite app_assoc, map_app in Hord.
    now apply ordered_keys_app_l in Hord. }
  destruct m as [|kv' m].
  - cbn [List.map join]. rewrite read_member by auto. now rewrite Hset.
  - cbn [List.map]. rewrite join_two, <- !app_assoc.
    rewrite read_member; auto. rewrite Hset.
    rewrite <- app_comm_cons, read_cons.
    change (step (CObj (done ++ [(k, v)]) None :: stack, After) (ch ","))
      with (CObj (done ++ [(k, v)]) None :: stack, Key false).
    rewrite read_whitespace by auto.
    change (member gap indent kv' :: List.map (member gap indent) m)
      with (List.map (member gap indent) (kv' :: m)).
    rewrite IH; try (auto; discriminate).
    + now rewrite <- app_assoc.
    + now rewrite <- app_assoc.
Qed.

Lemma Forall_reads_back (P : json -> Prop) l :
  Forall (fun v => finite_numbers v = true -> property_order v = true -> P v) l ->
  forallb finite_numbers l = true -> forallb property_order l = true ->
  Forall P l.
Proof.
  induction 1 as [|v l Hv Hl IH]; simpl; intros Hf Ho; constructor;
    apply andb_prop in Hf as [? ?]; apply andb_prop in Ho as [? ?]; auto.
Qed.

Lemma Forall_members_read_back (P : json -> Prop) (m : object) :
  Forall (fun kv => finite_numbers (snd kv) = true ->
                    property_order (snd kv) = true -> P (snd kv)) m ->
  forallb (fun kv => finite_numbers (snd kv)) m = true ->
  forallb (fun kv => property_order (snd kv)) m = true ->
  Forall (fun kv => P (snd kv)) m.
Proof.
  induction 1 as [|v l Hv Hl IH]; simpl; intros Hf Ho; constructor;
    apply andb_prop in Hf as [? ?]; apply andb_prop in Ho as [? ?]; auto.
Qed.

Lemma serialize_reads_back v :
  finite_numbers v = true -> property_order v = true -> reads_back v.
Proof.
  induction v as [|b|n|s|l IH|m IH] using json_induction;
    intros Hfin Hord gap indent stack first rest Hgap Hind Hrest.
  - apply read_null.
  - destruct b; [apply read_true | apply read_false].
  - simpl in Hfin. cbn [serialize]. rewrite Hfin.
    apply read_number; auto.
  - apply read_string_value.
  - destruct l as [|e l]; [reflexivity|].
    cbn [serialize finite_numbers property_order] in *.
    assert (Hblank : blank (indent ++ gap) = true)
      by (rewrite blank_app, Hgap, Hind; reflexivity).
    cbn [List.map].
    destruct (wrap_shape (ch "[") (ch "]") gap indent (indent ++ gap)
                (serialize gap (indent ++ gap) e)
                (List.map (serialize gap (indent ++ gap)) l)
                Hgap Hind Hblank)
      as (pre & w & post & Hpre & Hw & Hpost & ->).
    rewrite <- app_comm_cons, read_cons.
    change (step (stack, Value first) (ch "["))
      with (CArr [] :: stack, Value true).
    rewrite <- !app_assoc, read_whitespace by auto.
    change (serialize gap (indent ++ gap) e
              :: List.map (serialize gap (indent ++ gap)) l)
      with (List.map (serialize gap (indent ++ gap)) (e :: l)).
    rewrite read_elements; auto.
    + rewrite read_whitespace by auto.
      change ([ch "]"] ++ rest) with (ch "]" :: rest). rewrite read_cons.
      rewrite app_nil_r.
      change (step (CArr (List.rev (e :: l)) :: stack, After) (ch "]"))
        with (complete (JArr (List.rev (List.rev (e :: l)))) stack).
      now rewrite rev_involutive.
    + now apply Forall_reads_back.
    + discriminate.
    + now apply delimited_blank_then.
  - destruct m as [|kv m]; [reflexivity|].
    cbn [serialize finite_numbers property_order] in *.
    apply andb_prop in Hord as [Hkeys Hord].
    assert (Hblank : blank (indent ++ gap) = true)
      by (rewrite blank_app, Hgap, Hind; reflexivity).
    change (List.map
              (fun kv0 : jsstring * json =>
                 QuoteJSONString (fst kv0) ++ ch ":"
                   :: (if is_empty gap then [] else [32])
                   ++ serialize gap (indent ++ gap) (snd kv0))
              (kv :: m))
      with (member gap (indent ++ gap) kv
              :: List.map (member gap (indent ++ gap)) m).
    destruct (wrap_shape (ch "{") (ch "}") gap indent (indent ++ gap)
                (member gap (indent ++ gap) kv)
                (List.map (member gap (indent ++ gap)) m)
                Hgap Hind Hblank)
      as (pre & w & post & Hpre & Hw & Hpost & ->).
    rewrite <- app_comm_cons, read_cons.
    change (step (stack, Value first) (ch "{"))
      with (CObj [] None :: stack, Key true).
    rewrite <- !app_assoc, read_whitespace by auto.
    change (member gap (indent ++ gap) kv
              :: List.map (member gap (indent ++ gap)) m)
      with (List.map (member gap (indent ++ gap)) (kv :: m)).
    rewrite read_members; auto.
    + rewrite read_whitespace by auto.
      change ([ch "}"] ++ rest) with (ch "}" :: rest). rewrite read_cons.
      reflexivity.
    + now apply Forall_members_read_back.
    + discriminate.
    + now apply delimited_blank_then.
Qed.

Lemma finish_complete v : finish (complete v []) = Some v.
Proof. reflexivity. Qed.

(** [JSON.parse] gives back the value that [JSON.stringify] wrote,
    whatever the indentation, when the value's numbers are finite
    and its objects list their properties in order. *)
Lemma parse_serialize gap v :
  blank gap = true -> well_formed v = true ->
  parse (serialize gap [] v) = Some v.
Proof.
  intros Hgap Hwf. apply andb_prop in Hwf as [Hfin Hord].
  unfold parse. destruct (is_number v) eqn:Hnum.
  - destruct v; try discriminate Hnum. simpl in Hfin.
    cbn [serialize]. rewrite Hfin, read_number_text by exact Hfin.
    cbn [finish]. unfold end_number.
    now rewrite rev_involutive, literal_of_numberToString.
  - rewrite <- (app_nil_r (serialize gap [] v)).
    rewrite (serialize_reads_back v Hfin Hord); auto.
    congruence.
Qed.

(** ** Numbers that are not finite *)

Lemma serialize_written gap v :
  forall indent, serialize gap indent (written v) = serialize gap indent v.
Proof.
  induction v as [|b|n|s|l IH|m IH] using json_induction; intros indent;
    try reflexivity.
  - cbn [written]. destruct (isFinite n) eqn:E; cbn [serialize];
      now rewrite ?E.
  - cbn [written serialize]. rewrite map_map. f_equal.
    apply map_ext_Forall. revert IH. apply Forall_impl. auto.
  - cbn [written serialize]. rewrite map_map. f_equal.
    apply map_ext_Forall. revert IH. apply Forall_impl.
    intros kv H. cbn [fst snd]. now rewrite H.
Qed.

Lemma written_finite v : finite_numbers (written v) = true.
Proof.
  induction v as [|b|n|s|l IH|m IH] using json_induction; try reflexivity.
  - cbn [written]. destruct (isFinite n) eqn:E; [exact E | reflexivity].
  - cbn [written finite_numbers]. rewrite forallb_map.
    apply forallb_forall. now apply Forall_forall.
  - cbn [written finite_numbers]. rewrite forallb_map.
    apply forallb_forall. intros kv Hin. cbn [snd].
    now apply (proj1 (Forall_forall _ _) IH kv).
Qed.

Lemma written_order v : property_order (written v) = property_order v.
Proof.
  induction v as [|b|n|s|l IH|m IH] using json_induction; try reflexivity.
  - cbn [written]. now destruct (isFinite n).
  - cbn [written property_order]. rewrite forallb_map.
    now apply forallb_ext_Forall.
  - cbn [written property_order]. rewrite map_map. cbn [fst].
    f_equal. rewrite forallb_map. now apply forallb_ext_Forall.
Qed.

Lemma written_finite_id v : finite_numbers v = true -> written v = v.
Proof.
  induction v as [|b|n|s|l IH|m IH] using json_induction; try reflexivity;
    cbn [finite_numbers written]; intros H.
  - now rewrite H.
  - f_equal. induction IH as [|x l Hx Hl IHl]; [reflexivity|].
    simpl in H. apply andb_prop in H as [H1 H2]. simpl.
    now rewrite Hx, IHl.
  - f_equal. induction IH as [|[k x] l Hx Hl IHl]; [reflexivity|].
    simpl in *. apply andb_prop in H as [H1 H2].
    now rewrite Hx, IHl.
Qed.

(** In general [JSON.parse] gives back what [JSON.stringify] kept. *)
Lemma parse_serialize_written gap v :
  blank gap = true -> property_order v = true ->
  parse (serialize gap [] v) = Some (written v).
Proof.
  intros Hgap Hord. rewrite <- serialize_written.
  apply parse_serialize; [assumption|].
  unfold well_formed. now rewrite written_finite, written_order.
Qed.

Lemma parse_stringify v : well_formed v = true -> parse (stringify v) = Some v.
Proof. now apply parse_serialize. Qed.

Lemma parse_stringify2 v : well_formed v = true -> parse (stringify2 v) = Some v.
Proof. now apply parse_serialize. Qed.

(** ** What [JSON.parse] returns lists its properties in order *)

Lemma array_index_text k i : array_index k = Some i -> k = decimal_text i.
Proof.
  unfold array_index. destruct (decimal_value 0 k) as [j|]; [|discriminate].
  destruct (j <? 2 ^ 32 - 1); [|discriminate]. cbn [andb].
  destruct (jsstring_eqb (decimal_text j) k) eqn:E; [|discriminate].
  apply jsstring_eqb_eq in E. congruence.
Qed.

Lemma map_fst_replace_value k v (o : object) :
  List.map fst (replace_value k v o) = List.map fst o.
Proof.
  induction o as [|[k' v'] o IH]; simpl; [reflexivity|].
  destruct (jsstring_eqb k' k); simpl; [reflexivity | now rewrite IH].
Qed.

Lemma forallb_insert_index (P : jsstring -> bool) i k v (o : object) :
  forallb P (List.map fst (insert_index i k v o))
  = P k && forallb P (List.map fst o).
Proof.
  induction o as [|[k' v'] o IH]; simpl.
  - reflexivity.
  - destruct (array_index k') as [j|]; [destruct (j <? i)|]; simpl;
      try reflexivity.
    rewrite IH. now rewrite !andb_assoc, (andb_comm (P k')).
Qed.

Lemma key_before_index_trans k k' x i j :
  array_index k = Some i -> array_index k' = Some j -> i < j ->
  key_before k' x = true -> key_before k x = true.
Proof.
  unfold key_before. intros -> -> Hij.
  destruct (array_index x) as [jx|]; [|reflexivity].
  rewrite !N.ltb_lt. lia.
Qed.

Lemma key_before_after_name k k' x i :
  array_index k = Some i -> array_index k' = None ->
  key_before k' x = true -> key_before k x = true.
Proof.
  unfold key_before. intros -> ->.
  destruct (array_index x); [discriminate | reflexivity].
Qed.

Lemma ordered_insert_index i k v (o : object) :
  array_index k = Some i -> has_key k o = false ->
  ordered_keys (List.map fst o) = true ->
  ordered_keys (List.map fst (insert_index i k v o)) = true.
Proof.
  intros Hk. induction o as [|[k' v'] o IH]; simpl; [reflexivity|].
  intros Hno Hord. apply orb_false_elim in Hno as [Hne Hno].
  apply andb_prop in Hord as [Hk' Hord].
  destruct (array_index k') as [j|] eqn:Ej; [destruct (N.ltb_spec j i)|].
  - simpl. rewrite forallb_insert_index, Hk', IH by assumption.
    unfold key_before. rewrite Ej, Hk.
    now replace (j <? i) with true by (symmetry; now apply N.ltb_lt).
  - assert (Hij : i < j).
    { destruct (N.eq_dec i j) as [<-|]; [|lia].
      apply array_index_text in Ej, Hk. subst k k'.
      now rewrite jsstring_eqb_refl in Hne. }
    simpl. rewrite Hk', Hord, !andb_true_r. apply andb_true_intro. split.
    + unfold key_before. rewrite Hk, Ej. now apply N.ltb_lt.
    + revert Hk'. apply forallb_impl. intros x.
      now apply key_before_index_trans with (i := i) (j := j).
  - simpl. rewrite Hk', Hord, !andb_true_r. apply andb_true_intro. split.
    + unfold key_before. now rewrite Hk, Ej.
    + revert Hk'. apply forallb_impl. intros x.
      now apply key_before_after_name with (i := i).
Qed.

Lemma no_key_before_name k (o : object) :
  array_index k = None -> has_key k o = false ->
  forallb (fun k' => key_before k' k) (List.map fst o) = true.
Proof.
  intros Hk. induction o as [|[k' v'] o IH]; simpl; [reflexivity|].
  intros Hno. apply orb_false_elim in Hno as [Hne Hno].
  rewrite IH by assumption. unfold key_before. rewrite Hk.
  destruct (array_index k'); [reflexivity | now rewrite Hne].
Qed.

Lemma set_ordered k v o :
  ordered_keys (List.map fst o) = true ->
  ordered_keys (List.map fst (set k v o)) = true.
Proof.
  intros Hord. unfold set. destruct (has_key k o) eqn:Hhas.
  - now rewrite map_fst_replace_value.
  - destruct (array_index k) as [i|] eqn:Hk.
    + now apply ordered_insert_index.
    + rewrite map_app. apply ordered_keys_snoc. split; [assumption|].
      now apply no_key_before_name.
Qed.

Lemma set_forallb (P : json -> bool) k v (o : object) :
  forallb (fun kv => P (snd kv)) o = true -> P v = true ->
  forallb (fun kv => P (snd kv)) (set k v o) = true.
Proof.
  intros Ho Hv. unfold set. destruct (has_key k o).
  - induction o as [|[k' v'] o IH]; simpl in *; [reflexivity|].
    apply andb_prop in Ho as [H1 H2].
    destruct (jsstring_eqb k' k); simpl; rewrite ?Hv, ?H1, ?H2, ?IH; auto.
  - destruct (array_index k) as [i|].
    + induction o as [|[k' v'] o IH]; simpl in *; [now rewrite Hv|].
      apply andb_prop in Ho as [H1 H2].
      destruct (array_index k') as [j|]; [destruct (j <? i)|]; simpl;
        rewrite ?Hv, ?H1, ?H2, ?IH; auto.
    + rewrite forallb_app, Ho. simpl. now rewrite Hv.
Qed.

Lemma complete_ok v stack :
  property_order v = true -> forallb container_ok stack = true ->
  reader_ok (complete v stack) = true.
Proof.
  intros Hv Hs. destruct stack as [|[acc|done [k|]] outer];
    unfold reader_ok; simpl in *.
  - now rewrite Hv.
  - apply andb_prop in Hs as [H1 H2]. now rewrite Hv, H1, H2.
  - apply andb_prop in Hs as [H1 H2]. apply andb_prop in H1 as [H0 H1].
    rewrite set_ordered, set_forallb, H2 by assumption. reflexivity.
  - now rewrite Hs.
Qed.

Lemma reader_ok_same stack m :
  forallb container_ok stack = true -> mode_ok m = true ->
  reader_ok (stack, m) = true.
Proof. intros Hs Hm. unfold reader_ok. simpl. now rewrite Hs, Hm. Qed.

Ltac break_step :=
  repeat match goal with
    | |- context [if ?b then _ else _] => destruct b
    | |- context [match ?x with _ => _ end] => destruct x
    end.

Ltac split_hyps :=
  repeat match goal with
    | H : _ && _ = true |- _ => apply andb_prop in H; destruct H
    end.

Ltac finish_ok :=
  intros; simpl in *; split_hyps;
  first [ apply complete_ok | apply reader_ok_same ];
  simpl; rewrite ?forallb_rev;
  repeat (apply andb_true_intro; split); auto.

Lemma step_ended_ok r c : reader_ok r = true -> reader_ok (step_ended r c) = true.
Proof.
  destruct r as [stack m]. unfold reader_ok at 1. cbn [fst snd]. intros H.
  apply andb_prop in H as [Hs Hm]. revert Hs Hm.
  destruct m; cbn [step_ended]; unfold step_after, step_done;
    break_step; finish_ok.
Qed.

Lemma step_ok r c : reader_ok r = true -> reader_ok (step r c) = true.
Proof.
  destruct r as [stack m]. unfold reader_ok at 1. cbn [fst snd]. intros H.
  apply andb_prop in H as [Hs Hm]. revert Hs Hm.
  destruct m; cbn [step];
    unfold step_value, step_key, step_colon, step_after, step_done,
      step_string, step_escape, step_hex, step_number, step_literal,
      complete_string, start_literal, end_number;
    break_step;
    try (intros; apply step_ended_ok);
    finish_ok.
Qed.

Lemma read_ok text : forall r, reader_ok r = true -> reader_ok (read r text) = true.
Proof.
  induction text as [|c text IH]; intros r Hr; [exact Hr|].
  rewrite read_cons. apply IH. now apply step_ok.
Qed.

Lemma parse_property_order text v :
  parse text = Some v -> property_order v = true.
Proof.
  unfold parse. intros H.
  assert (Hok : reader_ok (read ([], Value false) text) = true)
    by (now apply read_ok).
  destruct (read ([], Value false) text) as [stack m].
  destruct stack; [|discriminate H].
  destruct m; try discriminate H; cbn [finish] in H.
  - injection H as <-. unfold reader_ok in Hok. exact Hok.
  - unfold end_number in H.
    destruct (literalToNumber (List.rev acc_rev)); [|discriminate H].
    now injection H as <-.
Qed.

End WithNumbers.
End JsonProofs.

(* ================================================================== *)
(** * The integers are a number format *)
(* ================================================================== *)

Module IntegerNumbersProofs.
Import Json IntegerNumbers.
Local Open Scope list_scope.

Lemma js_cons c s : js (String c s) = ch c :: js s.
Proof. reflexivity. Qed.

Lemma plain_digit_number_char c :
  plain_digit c = true ->
  is_number_char c = true /\ is_number_start c = true
  /\ ((c =? 101) || (c =? 69))%N = false /\ c <> 45%N.
Proof.
  unfold plain_digit, digit_of_unit.
  destruct c as [|p]; [discriminate|].
  repeat (destruct p as [p|p|]; try discriminate);
    intros _; repeat split; discriminate.
Qed.

Lemma uint_text d :
  forallb plain_digit (js (NilEmpty.string_of_uint d)) = true
  /\ scan_uint (js (NilEmpty.string_of_uint d)) = Some d.
Proof.
  induction d; [split; reflexivity | ..];
    destruct IHd as [IH1 IH2];
    cbn [NilEmpty.string_of_uint]; rewrite js_cons;
    (split; [cbn [forallb]; rewrite IH1 | cbn [scan_uint]; rewrite IH2];
     reflexivity).
Qed.

Lemma to_uint_not_nil n : N.to_uint n <> Nil.
Proof.
  destruct n; [discriminate | apply DecimalPos.Unsigned.to_uint_nonnil].
Qed.

Lemma decimal_text_digits n :
  decimal_text n = js (NilEmpty.string_of_uint (N.to_uint n)).
Proof.
  unfold decimal_text, NilZero.string_of_uint.
  pose proof (to_uint_not_nil n). now destruct (N.to_uint n).
Qed.

Lemma no_leading_zero p u : Pos.to_uint p <> D0 u.
Proof.
  intros E.
  assert (Hn : unorm (Pos.to_uint p) = Pos.to_uint p).
  { pose proof (DecimalN.Unsigned.to_of (N.to_uint (N.pos p))) as H.
    rewrite DecimalN.Unsigned.of_to in H. symmetry. exact H. }
  rewrite E, DecimalFacts.unorm_D0 in Hn.
  assert (Hu : u = Nil \/ u <> Nil)
    by (destruct u; [left; reflexivity | right; discriminate ..]).
  destruct Hu as [->|Hu].
  - exact (DecimalPos.Unsigned.to_uint_nonzero p E).
  - pose proof (DecimalFacts.nb_digits_unorm u Hu) as Hle.
    rewrite Hn in Hle. simpl in Hle. lia.
Qed.

(** The decimal text of a natural number: digits, with a leading
    zero only for zero itself. *)
Lemma decimal_text_shape n :
  exists c r,
    decimal_text n = c :: r
    /\ forallb plain_digit (c :: r) = true
    /\ scan_uint (c :: r) = Some (N.to_uint n)
    /\ (c = 48%N -> r = []).
Proof.
  rewrite decimal_text_digits.
  destruct (uint_text (N.to_uint n)) as [H1 H2].
  destruct n as [|p].
  - exists 48%N, []. repeat split.
  - pose proof (no_leading_zero p) as Hz.
    pose proof (DecimalPos.Unsigned.to_uint_nonnil p) as Hnil.
    change (N.to_uint (N.pos p)) with (Pos.to_uint p) in *.
    destruct (Pos.to_uint p) as [|u|u|u|u|u|u|u|u|u|u] eqn:E;
      try congruence;
      cbn [NilEmpty.string_of_uint] in *; rewrite js_cons in *;
      eexists; eexists; (split; [reflexivity|]);
      (split; [exact H1|]); (split; [exact H2|]);
      discriminate.
Qed.

Lemma split_exponent_plain s :
  forallb (fun c => plain_digit c || (c =? 45)%N) s = true ->
  split_exponent s = (s, None).
Proof.
  induction s as [|c s IH]; simpl; [reflexivity|].
  intros H. apply andb_prop in H as [Hc Hs]. rewrite (IH Hs).
  apply orb_prop in Hc as [Hc|Hc].
  - destruct (plain_digit_number_char c Hc) as (_ & _ & -> & _). reflexivity.
  - apply N.eqb_eq in Hc. subst c. reflexivity.
Qed.

Lemma mantissa_unsigned c r :
  plain_digit c = true -> mantissa (c :: r) = integer_part (c :: r).
Proof.
  intros Hc. destruct (plain_digit_number_char c Hc) as (_ & _ & _ & Hne).
  unfold mantissa. now destruct (N.eqb_spec c 45).
Qed.

Lemma integer_part_digits c r :
  (c = 48%N -> r = []) -> integer_part (c :: r) = digits (c :: r).
Proof.
  intros Hz. unfold integer_part. destruct r as [|d r]; [reflexivity|].
  destruct (N.eqb_spec c 48) as [E|]; [|reflexivity].
  discriminate (Hz E).
Qed.

Lemma integer_part_decimal_text n :
  integer_part (decimal_text n) = Some (Z.of_N n)
  /\ mantissa (decimal_text n) = Some (Z.of_N n).
Proof.
  destruct (decimal_text_shape n) as (c & r & -> & Hd & Hs & Hz).
  assert (Hc : plain_digit c = true) by (simpl in Hd; now apply andb_prop in Hd).
  rewrite mantissa_unsigned, integer_part_digits by assumption.
  unfold digits. rewrite Hs, DecimalN.Unsigned.of_to. split; reflexivity.
Qed.

Lemma read_print (n : num) : finite n = true -> read (print n) = Some n.
Proof.
  destruct n as [z|b]; [|discriminate]. cbn [finite print]. intros Hz.
  apply Z.ltb_lt in Hz.
  destruct (decimal_text_shape (Z.abs_N z)) as (c & r & E & Hd & _ & _).
  destruct (integer_part_decimal_text (Z.abs_N z)) as [Hint Hman].
  unfold read. rewrite split_exponent_plain.
  - assert (Hof : forall v, v = z \/ v = - z -> of_integer v = Int v).
    { intros v Hv. unfold of_integer.
      replace (Z.abs v) with (Z.abs z) by lia.
      destruct (Z.leb_spec 1024 (Z.log2 (Z.abs z))); [lia | reflexivity]. }
    destruct (Z.ltb_spec z 0).
    + change ([45%N] ++ decimal_text (Z.abs_N z))
        with (45%N :: decimal_text (Z.abs_N z)).
      change (mantissa (45%N :: decimal_text (Z.abs_N z)))
        with (option_map Z.opp (integer_part (decimal_text (Z.abs_N z)))).
      rewrite Hint. cbn [option_map].
      replace (- Z.of_N (Z.abs_N z)) with z by lia. now rewrite Hof by auto.
    + change ([] ++ decimal_text (Z.abs_N z)) with (decimal_text (Z.abs_N z)).
      rewrite Hman. replace (Z.of_N (Z.abs_N z)) with z by lia.
      now rewrite Hof by auto.
  - rewrite forallb_app. apply andb_true_intro. split.
    + now destruct (z <? 0).
    + rewrite E. revert Hd. apply ListFacts.forallb_impl.
      intros x ->. reflexivity.
Qed.

Lemma print_chars (n : num) :
  finite n = true -> forallb is_number_char (print n) = true.
Proof.
  destruct n as [z|b]; [|discriminate]. cbn [print]. intros _.
  destruct (decimal_text_shape (Z.abs_N z)) as (c & r & E & Hd & _ & _).
  rewrite forallb_app, E. apply andb_true_intro. split.
  - now destruct (z <? 0).
  - revert Hd. apply ListFacts.forallb_impl.
    intros x Hx. now apply plain_digit_number_char.
Qed.

Lemma print_start (n : num) :
  finite n = true -> starts_number (print n) = true.
Proof.
  destruct n as [z|b]; [|discriminate]. cbn [print]. intros _.
  destruct (z <? 0); [reflexivity|].
  destruct (decimal_text_shape (Z.abs_N z)) as (c & r & E & Hd & _ & _).
  rewrite E. simpl in *. apply andb_prop in Hd as [Hc _].
  now apply plain_digit_number_char.
Qed.

#[export] Instance format : NumberFormat := {|
  number := num;
  isFinite := finite;
  numberToString := print;
  literalToNumber := read;
  numberToString_chars := print_chars;
  numberToString_start := print_start;
  literal_of_numberToString := read_print
|}.

End IntegerNumbersProofs.

(* ================================================================== *)
(** * Example disks, values and states *)
(* ================================================================== *)

Module Examples.
Import Json Fs Data Api Store CompleteTab IntegerNumbers IntegerNumbersProofs.
Local Open Scope list_scope.

(** A medium without faults. *)
Definition quiet : operation -> option string := fun _ => None.

(** Before the first run: no data directory. *)
Definition first_run : disk := mkDisk None quiet 0.

(** The substations file is there and cannot be read. *)
Definition unreadable_substations : disk :=
  mkDisk (Some (mkDirectory (Some (js "[]")) None))
         (fun op => match op with
                    | read_file substations_json => Some "EACCES"%string
                    | _ => None
                    end) 0.

(** The polygons file holds a text that is not JSON. *)
Definition broken_polygons : disk :=
  mkDisk (Some (mkDirectory None (Some (js "[{")))) quiet 0.

(** Both files hold JSON that is not an array. *)
Definition no_arrays_stored : disk :=
  mkDisk (Some (mkDirectory (Some (js "{}")) (Some (js "null")))) quiet 0.

(** The disk is full: nothing can be written. *)
Definition full_disk : disk :=
  mkDisk (Some (mkDirectory None None))
         (fun op => match op with
                    | write_file _ => Some "ENOSPC"%string
                    | _ => None
                    end) 0.

(** One substation, as the front end posts it. *)
Definition s1 : json :=
  JObj [ (js "id", JStr (js "s1"));
         (js "completed", JBool false);
         (js "geometry",
           JObj [ (js "type", JStr (js "Point"));
                  (js "coordinates", JArr [JNum (Int (-111)); JNum (Int 43)]) ]);
         (js "created_at", JStr (js "2024-01-01T00:00:00Z")) ].

Definition one_polygon : json :=
  JArr [JObj [ (js "id", JStr (js "p1"));
               (js "substation_uuid", JStr (js "s1"));
               (js "label", JStr (js "Recloser"));
               (js "from_osm", JBool false) ]].

Definition one_polygon_stored : disk :=
  mkDisk (Some (mkDirectory None (Some (stringify2 one_polygon)))) quiet 0.

Definition substation_s1 : SubstationData.t :=
  SubstationData.make (js "s1") None None None None
    (js "2024-01-01T00:00:00Z") true None.

(** A polygon has just been drawn; the dialog has "Other" selected
    and blanks as additional information. *)
Definition drawing_other_blank : State :=
  mkState (Some substation_s1) [] true
    (Some (mkComponentPolygon (js "temp-1700000000000") (Some (js "s1")) []
             (Some [(js "type", JStr (js "Polygon"))])
             (js "2024-01-01T00:00:00Z") None false None None))
    (js "Other") (js "   ") (js "Ann").

End Examples.
(* ================================================================== *)
(** * More example disks and requests *)
(* ================================================================== *)

Module MoreExamples.
Import Json Fs Data Api Store StoreCalls IntegerNumbers IntegerNumbersProofs
       Examples.
Local Open Scope list_scope.

(** The polygons file is listed and gone when it is read. *)
Definition vanishing_polygons : disk :=
  mkDisk (Some (mkDirectory None (Some (stringify2 one_polygon))))
         (fun op => match op with
                    | read_file component_polygons_json => Some "ENOENT"%string
                    | _ => None
                    end) 0.

(** The data directory cannot be made. *)
Definition read_only_medium : disk :=
  mkDisk None
         (fun op => match op with
                    | mkdir_directory => Some "EROFS"%string
                    | _ => None
                    end) 0.

(** The files are there and cannot be opened for writing. *)
Definition locked_files : disk :=
  mkDisk (Some (mkDirectory (Some (js "[]")) (Some (stringify2 one_polygon))))
         (fun op => match op with
                    | open_file _ => Some "EACCES"%string
                    | _ => None
                    end) 0.

(** The disk fills up while a file is written: one code unit gets
    out. *)
Definition filling_disk : disk :=
  mkDisk (Some (mkDirectory None (Some (stringify2 one_polygon))))
         (fun op => match op with
                    | write_file _ => Some "ENOSPC"%string
                    | _ => None
                    end) 1.

Definition post (body : string) : Request := mkRequest (Some (js body)).


End MoreExamples.

(* ================================================================== *)
(** * Example states of the dialog *)
(* ================================================================== *)

Module DialogExamples.
Import Json Fs Data Api Store CompleteTab Dialog CompleteTabHandlers
       IntegerNumbers IntegerNumbersProofs Examples.
Local Open Scope list_scope.

Definition square : object := [(js "type", JStr (js "Polygon"))].

(** The stored polygon of [one_polygon]. *)
Definition p1 : json :=
  JObj [ (js "id", JStr (js "p1"));
         (js "substation_uuid", JStr (js "s1"));
         (js "label", JStr (js "Recloser"));
         (js "from_osm", JBool false) ].

Definition dialog_for (id : string) (component info : string) : State :=
  mkState (Some substation_s1) [p1] true
    (Some (mkComponentPolygon (js id) (Some (js "s1")) (js "Recloser")
             (Some square) (js "2024-01-01T00:00:00Z") None false None None))
    (js component) (js info) (js "Ann").

(** A polygon has just been drawn and is labelled. *)
Definition drawing_fuse : State :=
  dialog_for "temp-1700000000000" "Fuse disconnect switch" "".

(** The stored polygon is open in the dialog with another label. *)
Definition editing_p1 : State := dialog_for "p1" "Other" " spare part ".

(** A polygon that the file does not hold is open in the dialog. *)
Definition editing_p9 : State := dialog_for "p9" "Recloser" "".

(** The polygons file holds [null] beside a record. *)
Definition null_record_stored : disk :=
  mkDisk (Some (mkDirectory None (Some (js "[null]")))) quiet 0.

(** The substation [s1], completed. *)
Definition s1_completed : json :=
  JObj [ (js "id", JStr (js "s1"));
         (js "completed", JBool true);
         (js "created_at", JStr (js "2024-01-01T00:00:00Z")) ].

Definition s2_completed : json :=
  JObj [ (js "id", JStr (js "s2"));
         (js "completed", JBool true) ].

Definition two_substations_stored : disk :=
  mkDisk (Some (mkDirectory
                  (Some (stringify2 (JArr [s1_completed; s2_completed])))
                  (Some (stringify2 one_polygon))))
         quiet 0.

(** The substation [s1], not completed yet. *)
Definition s1_open : json :=
  JObj [ (js "id", JStr (js "s1"));
         (js "completed", JBool false);
         (js "created_at", JStr (js "2024-01-01T00:00:00Z")) ].

Definition open_substation_stored : disk :=
  mkDisk (Some (mkDirectory
                  (Some (stringify2 (JArr [s1_open; s2_completed])))
                  (Some (stringify2 one_polygon))))
         quiet 0.

(** The annotation tab with [s1] selected and a type of its own
    typed in. *)
Definition typing_other : AnnotateTab.State :=
  AnnotateTab.mkState (Some substation_s1) (js "Other")
    (js " Switching station ") false.

(** The user says yes. *)
Definition yes : jsstring -> bool := fun _ => true.

End DialogExamples.

(* ================================================================== *)
(** * Properties of the document store *)
(* ================================================================== *)

Module StoreProofs.
Import Json Fs Data Api Store Concurrent ListFacts JsonProofs.
Local Open Scope fs_scope.
Local Open Scope list_scope.

Section WithNumbers.
Context {NF : NumberFormat}.

Lemma readJsonFile_steps f w :
  readJsonFile f w
  = match read_steps f w with
    | (inr v, w') => (inr v, w')
    | (inl e, w') =>
        if code_is e "ENOENT" then (inr (JArr []), w') else (inl e, w')
    end.
Proof.
  unfold readJsonFile, try_catch. fold (read_steps f).
  destruct (read_steps f w) as [[e|v] w']; [|reflexivity].
  now destruct (code_is e "ENOENT").
Qed.

Lemma content_with_content f t d : content f (with_content f t d) = Some t.
Proof. now destruct f. Qed.

Lemma content_with_other f g t d :
  f <> g -> content f (with_content g t d) = content f d.
Proof. destruct f, g; intros H; try reflexivity; congruence. Qed.

Ltac fs_unfold :=
  unfold Substations.GET, Substations.POST, Polygons.GET, Polygons.POST,
    getSubstations, getComponentPolygons, writeSubstations,
    writeComponentPolygons, readJsonFile, read_steps, write_steps,
    request_json, JSON_parse, ensureDataDir,
    access_dir, mkdir, access, readFile, writeFile, open_w, write_all,
    try_catch, bind, guarded, ret, throw,
    substationsPath, polygonsPath, stored, absent, no_faults in *;
  cbn [fault data fst snd] in *.

(** Runs the steps with what the hypotheses say about the disk. *)
Ltac fs_run :=
  cbn [data fault fst snd];
  repeat (match goal with
          | H : forall op, _ op = None |- _ => rewrite !H
          | H : _ = _ |- _ => rewrite H
          end; cbn [data fault fst snd]).

(** ** Reading *)

(** A file that does not exist reads as the empty array; the data
    directory is made on the way when it was missing. *)
Lemma readJsonFile_absent f w :
  no_faults w -> absent f w ->
  readJsonFile f w
  = (inr (JArr []),
     mkDisk (Some match data w with
                  | Some d => d
                  | None => mkDirectory None None
                  end) (fault w) (cut w)).
Proof.
  destruct w as [[d|] flt n]; fs_unfold; intros Hnf Habs; fs_run.
  - reflexivity.
  - now destruct f.
Qed.

(** The same when only the steps that the read reaches are free
    of faults: the directory is there or can be made, and the
    access of the file does not fail for another reason. *)
Lemma readJsonFile_missing f w :
  absent f w -> fst (ensureDataDir w) = inr tt ->
  fault w (access_file f) = None ->
  fst (readJsonFile f w) = inr (JArr []).
Proof.
  destruct w as [[d|] flt n]; fs_unfold;
    destruct (flt access_directory); cbn [data fault fst snd];
    destruct (flt mkdir_directory); cbn [data fault fst snd];
    intros Habs Hdir Ha; try discriminate Hdir;
    repeat (rewrite ?Ha, ?Habs; cbn [data fault fst snd]);
    try reflexivity; now destruct f.
Qed.

(** A stored text that is JSON is read as its value, whatever the
    value is. *)
Lemma readJsonFile_any_value f w t v :
  fst (ensureDataDir w) = inr tt ->
  fault w (access_file f) = None -> fault w (read_file f) = None ->
  stored f w = Some t -> parse t = Some v ->
  fst (readJsonFile f w) = inr v.
Proof.
  destruct w as [[d|] flt n]; fs_unfold;
    destruct (flt access_directory); cbn [data fault fst snd];
    destruct (flt mkdir_directory); cbn [data fault fst snd];
    intros Hdir Ha Hr Hst Hp; try discriminate Hdir; try discriminate Hst;
    repeat (rewrite ?Ha, ?Hst, ?Hr, ?Hp; cbn [data fault fst snd]);
    reflexivity.
Qed.

(** Whatever the try block throws with another code than [ENOENT]
    is thrown on. *)
Lemma readJsonFile_rethrows f w e :
  fst (read_steps f w) = inl e -> code_is e "ENOENT" = false ->
  fst (readJsonFile f w) = inl e.
Proof.
  intros Hsteps Hcode. rewrite readJsonFile_steps.
  destruct (read_steps f w) as [[e'|v] w']; simpl in *; [|discriminate].
  injection Hsteps as ->. now rewrite Hcode.
Qed.

(** A fault of the medium on an operation that the read reaches. *)
Lemma readJsonFile_fault f w d t c :
  data w = Some d -> content f d = Some t ->
  fault w access_directory = None -> fault w (access_file f) = None ->
  fault w (read_file f) = Some c ->
  fst (read_steps f w) = inl (ErrnoException c).
Proof.
  destruct w as [dir flt n]; fs_unfold. intros -> Hc H1 H2 H3.
  fs_run. reflexivity.
Qed.

(** A file whose text is not JSON. *)
Lemma readJsonFile_malformed f w t :
  no_faults w -> stored f w = Some t -> parse t = None ->
  readJsonFile f w = (inl SyntaxError, w).
Proof.
  destruct w as [[d|] flt n]; fs_unfold; [|discriminate].
  intros Hnf Hst Hp. fs_run. reflexivity.
Qed.

Lemma readJsonFile_stored f w t v :
  no_faults w -> stored f w = Some t -> parse t = Some v ->
  readJsonFile f w = (inr v, w).
Proof.
  destruct w as [[d|] flt n]; fs_unfold; [|discriminate].
  intros Hnf Hst Hp. fs_run. reflexivity.
Qed.

Lemma GET_substations_answer w :
  Substations.GET w
  = match getSubstations w with
    | (inr v, w') => (inr (NextResponse_json v 200), w')
    | (inl _, w') => (inr (error_reading "Error reading substations file"), w')
    end.
Proof.
  unfold Substations.GET, try_catch, bind, ret.
  now destruct (getSubstations w) as [[e|v] w'].
Qed.

Lemma GET_polygons_answer w :
  Polygons.GET w
  = match getComponentPolygons w with
    | (inr v, w') => (inr (NextResponse_json v 200), w')
    | (inl _, w') => (inr (error_reading "Error reading polygons file"), w')
    end.
Proof.
  unfold Polygons.GET, try_catch, bind, ret.
  now destruct (getComponentPolygons w) as [[e|v] w'].
Qed.

(** ** Writing, then reading *)

(** Writing into the file that has just been cut. *)
Lemma with_content_twice f t t' d :
  with_content f t (with_content f t' d) = with_content f t d.
Proof. now destruct f. Qed.

Lemma write_steps_result f v w :
  fst (write_steps f v w) = inr tt ->
  exists d,
    snd (write_steps f v w)
    = mkDisk (Some (with_content f (stringify2 v) d)) (fault w) (cut w)
    /\ (fault w access_directory = None \/ fault w mkdir_directory = None).
Proof.
  destruct w as [dir flt n]; fs_unfold.
  destruct (flt access_directory) eqn:Ha; cbn [data fault cut];
    destruct dir as [d|]; cbn [data fault cut];
    destruct (flt mkdir_directory) eqn:Hm; cbn [data fault cut];
    destruct (flt (open_file f)) eqn:Ho; cbn [data fault cut];
    destruct (flt (write_file f)) eqn:Hw; cbn [data fault cut fst snd];
    intros H; try discriminate H;
    eexists; rewrite with_content_twice; (split; [reflexivity|]); auto.
Qed.

Lemma read_after_write f text d flt n v :
  flt (access_file f) = None -> flt (read_file f) = None ->
  (flt access_directory = None \/ flt mkdir_directory = None) ->
  parse text = Some v ->
  readJsonFile f (mkDisk (Some (with_content f text d)) flt n)
  = (inr v, mkDisk (Some (with_content f text d)) flt n).
Proof.
  intros Ha Hr Hdir Hp. fs_unfold.
  pose proof (content_with_content f text d) as Hc.
  destruct (flt access_directory) eqn:Had.
  - destruct Hdir as [Hdir|Hdir]; [discriminate|]. fs_run. reflexivity.
  - clear Hdir. fs_run. reflexivity.
Qed.

Lemma write_then_read f w v :
  property_order v = true ->
  fault w (access_file f) = None -> fault w (read_file f) = None ->
  fst (write_steps f v w) = inr tt ->
  readJsonFile f (snd (write_steps f v w))
  = (inr (written v), snd (write_steps f v w)).
Proof.
  intros Hord Ha Hr Hw.
  destruct (write_steps_result f v w Hw) as (d & -> & Hdir).
  apply read_after_write; auto.
  now apply parse_serialize_written.
Qed.

(** ** Posting *)

Lemma request_json_value request w :
  request_json request w
  = match request_value request with
    | Some v => (inr v, w)
    | None => (inl match text request with
                   | Some _ => SyntaxError
                   | None => TypeError
                   end, w)
    end.
Proof.
  unfold request_json, request_value, JSON_parse, ret, throw.
  destruct (text request) as [t|]; [|reflexivity].
  now destruct (parse t).
Qed.

Lemma POST_substations_answer request w :
  Substations.POST request w
  = match request_value request with
    | None =>
        (inr (NextResponse_json (message "Error writing substations file") 500), w)
    | Some v =>
        match writeSubstations v w with
        | (inr _, w') =>
            (inr (NextResponse_json
                    (message "Substations updated successfully") 200), w')
        | (inl _, w') =>
            (inr (NextResponse_json
                    (message "Error writing substations file") 500), w')
        end
    end.
Proof.
  unfold Substations.POST, try_catch, bind. rewrite request_json_value.
  destruct (request_value request) as [v|]; [|reflexivity].
  now destruct (writeSubstations v w) as [[e|[]] w'].
Qed.

Lemma POST_polygons_answer request w :
  Polygons.POST request w
  = match request_value request with
    | None =>
        (inr (NextResponse_json (message "Error writing polygons file") 500), w)
    | Some v =>
        match writeComponentPolygons v w with
        | (inr _, w') =>
            (inr (NextResponse_json
                    (message "Polygons updated successfully") 200), w')
        | (inl _, w') =>
            (inr (NextResponse_json
                    (message "Error writing polygons file") 500), w')
        end
    end.
Proof.
  unfold Polygons.POST, try_catch, bind. rewrite request_json_value.
  destruct (request_value request) as [v|]; [|reflexivity].
  now destruct (writeComponentPolygons v w) as [[e|[]] w'].
Qed.

Lemma request_value_order request v :
  request_value request = Some v -> property_order v = true.
Proof.
  unfold request_value. destruct (text request); [|discriminate].
  apply parse_property_order.
Qed.

Lemma NextResponse_json_written v s :
  NextResponse_json (written v) s = NextResponse_json v s.
Proof.
  unfold NextResponse_json, stringify. now rewrite serialize_written.
Qed.

Lemma stores_unvalidated_intro f POST GET write read saved failed unread :
  status saved = 200 -> status failed = 500 ->
  (forall request w,
      POST request w
      = match request_value request with
        | None => (inr failed, w)
        | Some v =>
            match write v w with
            | (inr _, w') => (inr saved, w')
            | (inl _, w') => (inr failed, w')
            end
        end) ->
  (forall w,
      GET w = match read w with
              | (inr v, w') => (inr (NextResponse_json v 200), w')
              | (inl _, w') => (inr unread, w')
              end) ->
  (forall v, write v = write_steps f v) -> read = readJsonFile f ->
  stores_unvalidated f POST GET write read saved failed.
Proof.
  intros Hs Hf HPOST HGET Hwrite Hread w request.
  split; [exact Hs|]. split; [exact Hf|].
  rewrite HPOST. split; [|split].
  - destruct (request_value request) as [v|].
    + destruct (write v w) as [[e|[]] w'] eqn:Ew; cbn [fst]; split.
      * intros _. right. exists v, e. now rewrite Ew.
      * reflexivity.
      * intros H. injection H as H. rewrite H, Hf in Hs. discriminate Hs.
      * intros [H|(v' & e & H & He)]; [discriminate H|].
        injection H as <-. rewrite Ew in He. discriminate He.
    + split; [now left | reflexivity].
  - now intros ->.
  - intros v Hv Hw. rewrite Hv.
    destruct (write v w) as [[e|[]] w'] eqn:Ew; [discriminate Hw|].
    cbn [fst snd]. split; [reflexivity|].
    assert (Ew' : w' = snd (write_steps f v w))
      by (now rewrite <- Hwrite, Ew).
    assert (Hok : fst (write_steps f v w) = inr tt)
      by (now rewrite <- Hwrite, Ew).
    assert (Hord : property_order v = true)
      by (now apply (request_value_order request)).
    destruct (write_steps_result f v w Hok) as (d & Hd & Hdir).
    split.
    + rewrite Ew', Hd. unfold stored. cbn [data].
      apply content_with_content.
    + intros Ha Hr.
      assert (Hback : read w' = (inr (written v), w')).
      { rewrite Hread, Ew'. now apply write_then_read. }
      split; [exact Hback|]. split.
      * rewrite HGET, Hback. now rewrite NextResponse_json_written.
      * intros Hfin. now rewrite Hback, written_finite_id.
Qed.

(** ** Claims about the document store *)

(** C3, as amended: reading a collection whose file does not exist
    gives the empty sequence, answered 200 with [[]], when the
    data directory is there or can be made and the access of the
    file does not fail for another reason.  A failure of a step of
    the read with another code than [ENOENT] is thrown to the
    route, which answers 500, and so is the [SyntaxError] of a
    stored text that is not JSON.  A stored text that is JSON is
    not a failure, whatever its value is: an object, a number or
    [null] is answered with status 200 like an array. *)
Theorem readAll_missing_is_empty_other_failures_fatal :
  forall w : disk,
    (absent substations_json w -> fst (ensureDataDir w) = inr tt ->
     fault w (access_file substations_json) = None ->
     fst (getSubstations w) = inr (JArr [])
     /\ fst (Substations.GET w) = inr (mkResponse 200 (js "[]")))
    /\ (absent component_polygons_json w -> fst (ensureDataDir w) = inr tt ->
        fault w (access_file component_polygons_json) = None ->
        fst (getComponentPolygons w) = inr (JArr [])
        /\ fst (Polygons.GET w) = inr (mkResponse 200 (js "[]")))
    /\ (forall e,
          fst (read_steps substations_json w) = inl e ->
          code_is e "ENOENT" = false ->
          fst (getSubstations w) = inl e
          /\ fst (Substations.GET w)
             = inr (error_reading "Error reading substations file")
          /\ status (error_reading "Error reading substations file") = 500)
    /\ (forall e,
          fst (read_steps component_polygons_json w) = inl e ->
          code_is e "ENOENT" = false ->
          fst (getComponentPolygons w) = inl e
          /\ fst (Polygons.GET w)
             = inr (error_reading "Error reading polygons file")
          /\ status (error_reading "Error reading polygons file") = 500)
    /\ (forall t,
          no_faults w -> stored substations_json w = Some t ->
          parse t = None ->
          fst (getSubstations w) = inl SyntaxError
          /\ fst (Substations.GET w)
             = inr (error_reading "Error reading substations file"))
    /\ (forall t,
          no_faults w -> stored component_polygons_json w = Some t ->
          parse t = None ->
          fst (getComponentPolygons w) = inl SyntaxError
          /\ fst (Polygons.GET w)
             = inr (error_reading "Error reading polygons file"))
    /\ (forall t v,
          fst (ensureDataDir w) = inr tt ->
          fault w (access_file substations_json) = None ->
          fault w (read_file substations_json) = None ->
          stored substations_json w = Some t -> parse t = Some v ->
          fst (getSubstations w) = inr v
          /\ fst (Substations.GET w) = inr (NextResponse_json v 200))
    /\ (forall t v,
          fst (ensureDataDir w) = inr tt ->
          fault w (access_file component_polygons_json) = None ->
          fault w (read_file component_polygons_json) = None ->
          stored component_polygons_json w = Some t -> parse t = Some v ->
          fst (getComponentPolygons w) = inr v
          /\ fst (Polygons.GET w) = inr (NextResponse_json v 200)).
Proof.
  intros w.
  split; [|split; [|split; [|split; [|split; [|split; [|split]]]]]].
  - intros Habs Hdir Ha. rewrite GET_substations_answer.
    pose proof (readJsonFile_missing substations_json w Habs Hdir Ha) as Hr.
    unfold getSubstations, substationsPath.
    destruct (readJsonFile substations_json w) as [[e|v] w'];
      [discriminate Hr|]. injection Hr as ->. now split.
  - intros Habs Hdir Ha. rewrite GET_polygons_answer.
    pose proof (readJsonFile_missing component_polygons_json w Habs Hdir Ha)
      as Hr.
    unfold getComponentPolygons, polygonsPath.
    destruct (readJsonFile component_polygons_json w) as [[e|v] w'];
      [discriminate Hr|]. injection Hr as ->. now split.
  - intros e Hfail Hcode. rewrite GET_substations_answer.
    pose proof (readJsonFile_rethrows substations_json w e Hfail Hcode) as Hr.
    unfold getSubstations, substationsPath.
    destruct (readJsonFile substations_json w) as [[e'|v] w'];
      [|discriminate Hr].
    repeat split. exact Hr.
  - intros e Hfail Hcode. rewrite GET_polygons_answer.
    pose proof (readJsonFile_rethrows component_polygons_json w e Hfail Hcode)
      as Hr.
    unfold getComponentPolygons, polygonsPath.
    destruct (readJsonFile component_polygons_json w) as [[e'|v] w'];
      [|discriminate Hr].
    repeat split. exact Hr.
  - intros t Hnf Hst Hp. rewrite GET_substations_answer.
    unfold getSubstations, substationsPath.
    now rewrite (readJsonFile_malformed substations_json w t).
  - intros t Hnf Hst Hp. rewrite GET_polygons_answer.
    unfold getComponentPolygons, polygonsPath.
    now rewrite (readJsonFile_malformed component_polygons_json w t).
  - intros t v Hdir Ha Hr Hst Hp. rewrite GET_substations_answer.
    pose proof (readJsonFile_any_value substations_json w t v
                  Hdir Ha Hr Hst Hp) as H.
    unfold getSubstations, substationsPath.
    destruct (readJsonFile substations_json w) as [[e|v'] w'];
      [discriminate H|]. injection H as ->. now split.
  - intros t v Hdir Ha Hr Hst Hp. rewrite GET_polygons_answer.
    pose proof (readJsonFile_any_value component_polygons_json w t v
                  Hdir Ha Hr Hst Hp) as H.
    unfold getComponentPolygons, polygonsPath.
    destruct (readJsonFile component_polygons_json w) as [[e|v'] w'];
      [discriminate H|]. injection H as ->. now split.
Qed.

(** C4: for a well-formed value [R] (every number finite, every
    object with its properties in order), the empty sequence
    included, a write that succeeds followed by a read of the same
    collection gives exactly [R]. *)
Theorem writeAll_then_readAll_is_identity :
  forall (w : disk) (R : json),
    well_formed R = true ->
    (fault w (access_file substations_json) = None ->
     fault w (read_file substations_json) = None ->
     fst (writeSubstations R w) = inr tt ->
     getSubstations (snd (writeSubstations R w))
     = (inr R, snd (writeSubstations R w)))
    /\ (fault w (access_file component_polygons_json) = None ->
        fault w (read_file component_polygons_json) = None ->
        fst (writeComponentPolygons R w) = inr tt ->
        getComponentPolygons (snd (writeComponentPolygons R w))
        = (inr R, snd (writeComponentPolygons R w))).
Proof.
  intros w R Hwf. apply andb_prop in Hwf as [Hfin Hord].
  split; intros Ha Hr Hw.
  - change (readJsonFile substations_json
              (snd (write_steps substations_json R w))
            = (inr R, snd (write_steps substations_json R w))).
    rewrite write_then_read by assumption. now rewrite written_finite_id.
  - change (readJsonFile component_polygons_json
              (snd (write_steps component_polygons_json R w))
            = (inr R, snd (write_steps component_polygons_json R w))).
    rewrite write_then_read by assumption. now rewrite written_finite_id.
Qed.

(** C10, as amended: a POST answers 500 exactly when the body has
    no JSON value or the write throws; every other body, an array
    or not, is stored (as [JSON.stringify(body, null, 2)]) and
    answered 200, without any check of its shape; the GET that
    follows answers with that value, in which a number that is not
    finite (the literal [1e999]) has become [null], so a value
    whose numbers are finite comes back as it was. *)
Theorem POST_stores_any_json_value :
  stores_unvalidated substations_json Substations.POST Substations.GET
    writeSubstations getSubstations
    (NextResponse_json (message "Substations updated successfully") 200)
    (NextResponse_json (message "Error writing substations file") 500)
  /\ stores_unvalidated component_polygons_json Polygons.POST Polygons.GET
       writeComponentPolygons getComponentPolygons
       (NextResponse_json (message "Polygons updated successfully") 200)
       (NextResponse_json (message "Error writing polygons file") 500).
Proof.
  split.
  - apply stores_unvalidated_intro
      with (unread := error_reading "Error reading substations file");
      try reflexivity.
    + apply POST_substations_answer.
    + apply GET_substations_answer.
  - apply stores_unvalidated_intro
      with (unread := error_reading "Error reading polygons file");
      try reflexivity.
    + apply POST_polygons_answer.
    + apply GET_polygons_answer.
Qed.

(** ** A reader during a write *)





End WithNumbers.

(** ** Examples, with integer numbers *)

Import IntegerNumbers IntegerNumbersProofs Examples MoreExamples.

Ltac by_evaluation := first [reflexivity | exact I].

Lemma quiet_no_faults w : fault w = quiet -> no_faults w.
Proof. intros E op. now rewrite E. Qed.

(** C3, counterexample: the substations file holds an object and the
    polygons file holds [null]; neither is an encoded array, and
    both are read without an error and answered with status 200. *)
Lemma stored_value_that_is_no_array_is_served :
  parse (js "{}") = Some (JObj []) /\ parse (js "null") = Some JNull
  /\ stored substations_json no_arrays_stored = Some (js "{}")
  /\ stored component_polygons_json no_arrays_stored = Some (js "null")
  /\ getSubstations no_arrays_stored = (inr (JObj []), no_arrays_stored)
  /\ getComponentPolygons no_arrays_stored = (inr JNull, no_arrays_stored)
  /\ fst (Substations.GET no_arrays_stored) = inr (mkResponse 200 (js "{}"))
  /\ fst (Polygons.GET no_arrays_stored) = inr (mkResponse 200 (js "null")).
Proof. repeat split. Qed.

Lemma readAll_missing_is_empty_other_failures_fatal_witness :
  fst (Substations.GET first_run) = inr (mkResponse 200 (js "[]"))
  /\ fst (getComponentPolygons first_run) = inr (JArr [])
  /\ fst (Substations.GET unreadable_substations)
     = inr (error_reading "Error reading substations file")
  /\ fst (Polygons.GET broken_polygons)
     = inr (error_reading "Error reading polygons file")
  /\ fst (Substations.GET no_arrays_stored) = inr (mkResponse 200 (js "{}")).
Proof.
  destruct (readAll_missing_is_empty_other_failures_fatal first_run)
    as (Hsub & Hpoly & _).
  destruct (readAll_missing_is_empty_other_failures_fatal unreadable_substations)
    as (_ & _ & Hfault & _).
  destruct (readAll_missing_is_empty_other_failures_fatal broken_polygons)
    as (_ & _ & _ & _ & _ & Hbroken & _).
  destruct (readAll_missing_is_empty_other_failures_fatal no_arrays_stored)
    as (_ & _ & _ & _ & _ & _ & Hvalue & _).
  assert (Hquiet' : no_faults broken_polygons) by (now apply quiet_no_faults).
  destruct (Hsub I eq_refl eq_refl) as [_ H1].
  destruct (Hpoly I eq_refl eq_refl) as [H2 _].
  assert (E3 : fst (read_steps substations_json unreadable_substations)
               = inl (ErrnoException "EACCES")) by by_evaluation.
  assert (C3 : code_is (ErrnoException "EACCES") "ENOENT" = false)
    by by_evaluation.
  destruct (Hfault _ E3 C3) as (_ & H3 & _).
  assert (E4 : stored component_polygons_json broken_polygons = Some (js "[{"))
    by by_evaluation.
  assert (P4 : parse (js "[{") = None) by by_evaluation.
  destruct (Hbroken _ Hquiet' E4 P4) as [_ H4].
  assert (P5 : parse (js "{}") = Some (JObj [])) by by_evaluation.
  destruct (Hvalue (js "{}") (JObj []) eq_refl eq_refl eq_refl eq_refl P5)
    as [_ H5].
  exact (conj H1 (conj H2 (conj H3 (conj H4 H5)))).
Defined.

Lemma writeAll_then_readAll_is_identity_witness :
  getSubstations (snd (writeSubstations (JArr [s1]) first_run))
  = (inr (JArr [s1]), snd (writeSubstations (JArr [s1]) first_run))
  /\ getComponentPolygons (snd (writeComponentPolygons (JArr []) first_run))
     = (inr (JArr []), snd (writeComponentPolygons (JArr []) first_run)).
Proof.
  assert (W1 : well_formed (JArr [s1]) = true) by by_evaluation.
  assert (W2 : well_formed (JArr []) = true) by by_evaluation.
  destruct (writeAll_then_readAll_is_identity first_run (JArr [s1]) W1)
    as [H1 _].
  destruct (writeAll_then_readAll_is_identity first_run (JArr []) W2)
    as [_ H2].
  split; [apply H1 | apply H2]; reflexivity.
Defined.

(** C10, counterexample: the body [[1e999]] has a JSON value, an
    array holding an infinity; it is answered 200 and written as
    [[null]], and the GET that follows answers [[null]], another
    value than the one posted. *)
Lemma overflowing_number_comes_back_null :
  let request := mkRequest (Some (js "[1e999]")) in
  let w' := snd (Substations.POST request first_run) in
  request_value request = Some (JArr [JNum (Infinity false)])
  /\ fst (Substations.POST request first_run)
     = inr (NextResponse_json (message "Substations updated successfully") 200)
  /\ stored substations_json w' = Some (stringify2 (JArr [JNull]))
  /\ fst (Substations.GET w') = inr (mkResponse 200 (js "[null]"))
  /\ parse (js "[null]") = Some (JArr [JNull])
  /\ parse (js "[null]") <> request_value request.
Proof.
  cbv zeta.
  assert (E1 : request_value (mkRequest (Some (js "[1e999]")))
               = Some (JArr [JNum (Infinity false)])) by reflexivity.
  assert (E2 : parse (js "[null]") = Some (JArr [JNull])) by reflexivity.
  split; [exact E1|]. split; [reflexivity|]. split; [reflexivity|].
  split; [reflexivity|]. split; [exact E2|].
  rewrite E1, E2. discriminate.
Qed.

Lemma POST_stores_any_json_value_witness :
  (* a body that is not an array *)
  fst (Polygons.POST (mkRequest (Some (js "{ }"))) first_run)
  = inr (NextResponse_json (message "Polygons updated successfully") 200)
  /\ getComponentPolygons (snd (Polygons.POST (mkRequest (Some (js "{ }"))) first_run))
     = (inr (JObj []), snd (Polygons.POST (mkRequest (Some (js "{ }"))) first_run))
  (* a body that is not JSON *)
  /\ Substations.POST (mkRequest (Some (js "[{"))) first_run
     = (inr (NextResponse_json (message "Error writing substations file") 500),
        first_run)
  (* a write that fails *)
  /\ fst (Substations.POST (mkRequest (Some (js "[]"))) full_disk)
     = inr (NextResponse_json (message "Error writing substations file") 500).
Proof.
  destruct POST_stores_any_json_value as [Hsub Hpoly].
  destruct (Hpoly first_run (mkRequest (Some (js "{ }"))))
    as (_ & _ & _ & _ & Hstored).
  assert (V1 : request_value (mkRequest (Some (js "{ }"))) = Some (JObj []))
    by by_evaluation.
  assert (W1 : fst (writeComponentPolygons (JObj []) first_run) = inr tt)
    by by_evaluation.
  destruct (Hstored (JObj []) V1 W1) as (H1 & _ & Hread).
  destruct (Hread eq_refl eq_refl) as (_ & _ & Hfinite).
  pose proof (Hfinite eq_refl) as H2.
  destruct (Hsub first_run (mkRequest (Some (js "[{"))))
    as (_ & _ & _ & Hnone & _).
  assert (V3 : request_value (mkRequest (Some (js "[{"))) = None)
    by by_evaluation.
  pose proof (Hnone V3) as H3.
  destruct (Hsub full_disk (mkRequest (Some (js "[]"))))
    as (_ & _ & Hiff & _).
  assert (H4 : fst (Substations.POST (mkRequest (Some (js "[]"))) full_disk)
               = inr (NextResponse_json
                        (message "Error writing substations file") 500)).
  { apply Hiff. right. exists (JArr []), (ErrnoException "ENOSPC").
    split; by_evaluation. }
  exact (conj H1 (conj H2 (conj H3 H4))).
Defined.



End StoreProofs.

(* ================================================================== *)
(** * Properties of [handleSavePolygon] *)
(* ================================================================== *)

Module CompleteTabProofs.
Import Json Fs Api CompleteTab.
Local Open Scope list_scope.

Section WithNumbers.
Context {NF : NumberFormat}.

(** With "Other" selected and nothing but white space as additional
    information the function returns before its [try] block. *)
Lemma handleSavePolygon_other_blank uuid now st w :
  selectedComponent st = js "Other" ->
  trim (dialogAdditionalInfo st) = [] ->
  handleSavePolygon uuid now st w
  = (match dialogPolygon st, selectedSubstation st with
     | Some _, Some _ =>
         [destructive "Additional Info Required"
            "Please provide details in 'Additional Info' when selecting 'Other'."]
     | _, _ => []
     end, st, w).
Proof.
  intros Hsel Hinfo. unfold handleSavePolygon. rewrite Hsel, Hinfo.
  destruct (dialogPolygon st); [|reflexivity].
  destruct (selectedSubstation st); reflexivity.
Qed.

(** C5, as amended: saving from the dialog with "Other" selected
    and no additional information (white space at most) is turned
    down by the function's own check before any request is made:
    the stored collections and the component's state stay as they
    were, and the only thing shown is the toast that asks for the
    information. *)
Theorem other_without_info_is_not_sent :
  forall uuid now (st : State) (w : disk),
    selectedComponent st = js "Other" ->
    trim (dialogAdditionalInfo st) = [] ->
    let '(out, st', w') := handleSavePolygon uuid now st w in
    w' = w /\ st' = st /\ requests out = []
    /\ (dialogPolygon st <> None -> selectedSubstation st <> None ->
        out = [destructive "Additional Info Required"
                 "Please provide details in 'Additional Info' when selecting 'Other'."]).
Proof.
  intros uuid now st w Hsel Hinfo.
  rewrite handleSavePolygon_other_blank by assumption.
  repeat split.
  - destruct (dialogPolygon st); [|reflexivity].
    destruct (selectedSubstation st); reflexivity.
  - intros Hp Hs. destruct (dialogPolygon st); [|congruence].
    destruct (selectedSubstation st); [reflexivity | congruence].
Qed.

End WithNumbers.

(** ** Examples, with integer numbers *)

Import IntegerNumbers IntegerNumbersProofs Examples.

Lemma other_without_info_is_not_sent_witness :
  handleSavePolygon (js "0b6e") (js "2024-01-01T00:00:00Z")
    drawing_other_blank one_polygon_stored
  = ([destructive "Additional Info Required"
        "Please provide details in 'Additional Info' when selecting 'Other'."],
     drawing_other_blank, one_polygon_stored).
Proof.
  pose proof (other_without_info_is_not_sent
                (js "0b6e") (js "2024-01-01T00:00:00Z")
                drawing_other_blank one_polygon_stored
                eq_refl eq_refl) as H.
  destruct (handleSavePolygon (js "0b6e") (js "2024-01-01T00:00:00Z")
              drawing_other_blank one_polygon_stored) as [[out st'] w'].
  destruct H as (-> & -> & _ & Hout).
  rewrite Hout by discriminate. reflexivity.
Defined.

(** C5, counterexample: the same record posted to the route is
    written; the route checks nothing, and the stored collection is
    no longer what it was. *)
Lemma POST_stores_other_without_info :
  let request :=
    mkRequest (Some (stringify (JArr [JObj [(js "label", JStr (js "Other"));
                                            (js "additional_info", JStr [])]]))) in
  let '(answer, w') := Polygons.POST request one_polygon_stored in
  answer = inr (NextResponse_json (message "Polygons updated successfully") 200)
  /\ Store.stored component_polygons_json w'
     = Some (stringify2 (JArr [JObj [(js "label", JStr (js "Other"));
                                     (js "additional_info", JStr [])]]))
  /\ Store.stored component_polygons_json w'
     <> Store.stored component_polygons_json one_polygon_stored.
Proof.
  vm_compute. repeat split. discriminate.
Qed.

End CompleteTabProofs.
(* ================================================================== *)
(** * More properties of the tile route *)
(* ================================================================== *)

Module TilesMore.
Import Js NodePath TilesRoute TilePaths ListFacts TilesProofs.

(** ** What [path.join] does with plain segments *)

Lemma split_slash_no_slash (s : string) :
  no_slash s = true -> split_slash s = [s].
Proof.
  unfold no_slash. induction s as [|c s IH]; simpl; [reflexivity|].
  intros H. apply andb_prop in H as [Hc Hs].
  destruct (is_slash c); [discriminate Hc|].
  now rewrite IH.
Qed.

Lemma push_plain (p : path) (s : string) :
  plain s = true -> fold_left push_segment (split_slash s) p = (p ++ [s])%list.
Proof.
  unfold plain. intros H.
  apply andb_prop in H as [H Hdd]. apply andb_prop in H as [Hs Hed].
  rewrite split_slash_no_slash by exact Hs. cbn [fold_left].
  unfold push_segment.
  apply negb_true_iff in Hed. apply negb_true_iff in Hdd.
  now rewrite Hed, Hdd.
Qed.

Lemma join_cons (base : path) (s : string) (args : list string) :
  join base (s :: args) = join (fold_left push_segment (split_slash s) base) args.
Proof.
  unfold join. cbn [flat_map]. now rewrite fold_left_app.
Qed.

Lemma join_plain (base : path) (args : list string) :
  forallb plain args = true -> join base args = (base ++ args)%list.
Proof.
  revert base. induction args as [|s args IH]; intros base H.
  - unfold join. simpl. now rewrite app_nil_r.
  - simpl in H. apply andb_prop in H as [Hs Hargs].
    rewrite join_cons, push_plain, IH by assumption.
    now rewrite <- app_assoc.
Qed.

Lemma join_dot_dot (base : path) (s : string) (args : list string) :
  join (base ++ [s])%list (".." :: args) = join base args.
Proof.
  rewrite join_cons. cbn. unfold push_segment. cbn.
  now rewrite removelast_last.
Qed.

Lemma TILE_BASE_PATH_segments (cwd : path) :
  TILE_BASE_PATH cwd = (cwd ++ ["public"; "tiles"])%list.
Proof.
  unfold TILE_BASE_PATH. now rewrite join_plain.
Qed.

(** ** The file name the handler makes *)

Lemma no_slash_app (s t : string) :
  no_slash (s ++ t) = no_slash s && no_slash t.
Proof.
  unfold no_slash. now rewrite list_ascii_of_string_app, forallb_app.
Qed.

Lemma no_slash_uint (d : uint) : no_slash (NilEmpty.string_of_uint d) = true.
Proof.
  apply all_digits_no_slash, all_digits_string_of_uint.
Qed.

Lemma no_slash_nilzero (d : uint) : no_slash (NilZero.string_of_uint d) = true.
Proof.
  destruct d; try apply (no_slash_uint (_ _)); reflexivity.
Qed.

Lemma no_slash_nilzero_int (z : Z) :
  no_slash (NilZero.string_of_int (Z.to_int z)) = true.
Proof.
  destruct (Z.to_int z) as [d|d]; cbn [NilZero.string_of_int].
  - apply no_slash_nilzero.
  - change (String "-" (NilZero.string_of_uint d))
      with ("-" ++ NilZero.string_of_uint d).
    rewrite no_slash_app, no_slash_nilzero. reflexivity.
Qed.

Lemma no_slash_digits_of (s : Z) : no_slash (digits_of s) = true.
Proof. apply no_slash_nilzero. Qed.

Lemma no_slash_zeros (n : nat) : no_slash (zeros n) = true.
Proof. induction n as [|n IH]; [reflexivity | exact IH]. Qed.

Lemma no_slash_cons (c : ascii) (s : string) :
  no_slash (String c s) = negb (is_slash c) && no_slash s.
Proof. reflexivity. Qed.

Lemma no_slash_format (s k n : Z) : no_slash (format s k n) = true.
Proof.
  unfold format. destruct (n <=? 21).
  - now rewrite no_slash_app, no_slash_digits_of, no_slash_zeros.
  - pose proof (no_slash_digits_of s) as Hs.
    pose proof (no_slash_digits_of (n - 1)) as He.
    destruct (digits_of s) as [|c rest]; [reflexivity|].
    rewrite no_slash_cons in Hs. apply andb_prop in Hs as [Hc Hrest].
    destruct rest as [|c' rest].
    + rewrite no_slash_cons, Hc, no_slash_app, He. reflexivity.
    + rewrite no_slash_cons, Hc, !no_slash_app, Hrest, He. reflexivity.
Qed.

Lemma no_slash_shortest (a : Z) : no_slash (shortest a) = true.
Proof.
  unfold shortest. destruct (reads_as a _); [apply no_slash_format|].
  destruct (search a _ 1 _) as [s k]. apply no_slash_format.
Qed.

Lemma toString_no_slash (x : number) : no_slash (toString x) = true.
Proof.
  destruct x as [|z|[|]]; try reflexivity.
  unfold toString. destruct (Z.abs z <? 2 ^ 53).
  - apply no_slash_nilzero_int.
  - destruct (z <? 0); [|apply no_slash_shortest].
    now rewrite no_slash_app, no_slash_shortest.
Qed.

Lemma nilzero_not_empty (d : uint) : NilZero.string_of_uint d <> EmptyString.
Proof.
  destruct d; cbn [NilZero.string_of_uint NilEmpty.string_of_uint];
    discriminate.
Qed.

Lemma format_not_empty (s k n : Z) : format s k n <> EmptyString.
Proof.
  unfold format. pose proof (nilzero_not_empty (N.to_uint (Z.to_N s))) as Hs.
  fold (digits_of s) in Hs.
  destruct (n <=? 21).
  - destruct (digits_of s); [congruence | discriminate].
  - destruct (digits_of s) as [|c [|c' rest]]; [congruence | |]; discriminate.
Qed.

Lemma shortest_not_empty (a : Z) : shortest a <> EmptyString.
Proof.
  unfold shortest. destruct (reads_as a _); [apply format_not_empty|].
  destruct (search a _ 1 _) as [s k]. apply format_not_empty.
Qed.

Lemma toString_not_empty (x : number) : toString x <> EmptyString.
Proof.
  destruct x as [|z|[|]]; try discriminate.
  unfold toString. destruct (Z.abs z <? 2 ^ 53).
  - destruct (Z.to_int z) as [d|d]; cbn [NilZero.string_of_int];
      [apply nilzero_not_empty | discriminate].
  - destruct (z <? 0); [discriminate | apply shortest_not_empty].
Qed.

(** The file name is a plain segment, whatever the number. *)
Lemma file_name_plain (x : number) : plain (toString x ++ ".png") = true.
Proof.
  unfold plain. rewrite no_slash_app, toString_no_slash.
  pose proof (toString_not_empty x) as Hne.
  destruct (toString x) as [|c1 [|c2 [|c3 s]]]; [congruence| | |]; cbn;
    try reflexivity;
    destruct c1 as [[] [] [] [] [] [] [] []]; try reflexivity;
    destruct c2 as [[] [] [] [] [] [] [] []]; reflexivity.
Qed.

Lemma file_name_not_tiles (x : number) : toString x ++ ".png" <> "tiles".
Proof.
  destruct (toString x) as [|c1 [|c2 [|c3 [|c4 [|c5 [|c6 s]]]]]]; cbn;
    congruence.
Qed.

Lemma finalFilePath_plain cwd fullId zStr xStr yPng :
  plain fullId = true -> plain zStr = true -> plain xStr = true ->
  finalFilePath cwd fullId zStr xStr yPng
  = (cwd ++ ["public"; "tiles"; fullId; zStr; xStr;
             (toString (yToUse (parseInt zStr) (parseInt (parse_name yPng)))
                ++ ".png")%string])%list.
Proof.
  intros Hf Hz Hx. unfold finalFilePath.
  rewrite TILE_BASE_PATH_segments, join_plain.
  - now rewrite <- app_assoc.
  - cbn [forallb]. now rewrite Hf, Hz, Hx, file_name_plain.
Qed.

Lemma starts_with_app (base rest : path) : starts_with base (base ++ rest)%list = true.
Proof.
  induction base as [|b base IH]; [reflexivity|].
  cbn. now rewrite String.eqb_refl.
Qed.

Lemma starts_with_same_front (front a b : path) :
  starts_with (front ++ a)%list (front ++ b)%list = starts_with a b.
Proof.
  induction front as [|s front IH]; [reflexivity|].
  cbn. now rewrite String.eqb_refl.
Qed.

(** ** Properties *)

(** X1: every answer of the tile route has status 200 or 400.  It is
    200 exactly when the request has four segments and the read of
    the file computed from them succeeds, and it is then the bytes of
    that file with the content type image/png; an answer with status
    400 is a text, with the content type text/plain;charset=UTF-8
    that a response made from a string gets and no other header. *)
Theorem tile_answer_is_200_or_400 :
  forall cwd fs pathSegments,
    let answer := snd (GET cwd fs pathSegments) in
    (status answer = 200 \/ status answer = 400)
    /\ (status answer = 200 <->
        exists fullId zStr xStr yPng fileBuffer,
          pathSegments = [fullId; zStr; xStr; yPng]
          /\ fs (finalFilePath cwd fullId zStr xStr yPng) = inr fileBuffer
          /\ answer
             = mkResponse 200 [("Content-Type", "image/png")] (Buffer fileBuffer))
    /\ (status answer = 400 ->
        headers answer = [("content-type", "text/plain;charset=UTF-8")]
        /\ exists t, payload answer = Text t).
Proof.
  intros cwd fs segs answer.
  assert (Hcases :
            (exists fullId zStr xStr yPng,
                segs = [fullId; zStr; xStr; yPng])
            \/ answer = invalid_format).
  { subst answer.
    destruct segs as [|a [|b [|c [|d [|e segs]]]]]; try (right; reflexivity).
    left. now exists a, b, c, d. }
  destruct Hcases as [(a & b & c & d & ->)|Hinv].
  - subst answer. rewrite GET_answer.
    destruct (fs (finalFilePath cwd a b c d)) as [code|bytes] eqn:Efs.
    + split; [now right|]. split; [split|].
      * discriminate.
      * intros (a' & b' & c' & d' & bytes & Hsegs & Hfs & _).
        injection Hsegs as <- <- <- <-. rewrite Efs in Hfs. discriminate.
      * intros _. split; [reflexivity|]. now eexists.
    + split; [now left|]. split; [split|].
      * intros _. now exists a, b, c, d, bytes.
      * reflexivity.
      * discriminate.
  - rewrite Hinv. split; [now right|]. split; [split|].
    + discriminate.
    + intros (a & b & c & d & bytes & Hsegs & _ & Hans).
      discriminate Hans.
    + intros _. split; [reflexivity|]. now eexists.
Qed.

Lemma tile_answer_is_200_or_400_witness :
  status (snd (GET ["srv"] (fun _ => inr []) ["sub1"; "3"; "2"; "7.png"])) = 200
  /\ headers (snd (GET ["srv"] (fun _ => inr []) ["sub1"; "3"; "2"]))
     = [("content-type", "text/plain;charset=UTF-8")].
Proof.
  destruct (tile_answer_is_200_or_400
              ["srv"] (fun _ => inr []) ["sub1"; "3"; "2"; "7.png"])
    as (_ & [_ H200] & _).
  destruct (tile_answer_is_200_or_400
              ["srv"] (fun _ => inr []) ["sub1"; "3"; "2"])
    as (_ & _ & H400).
  split.
  - apply H200. exists "sub1", "3", "2", "7.png", []. now repeat split.
  - apply H400. reflexivity.
Defined.

(** X2: when the dataset id, the zoom and the column of a request of
    four segments are plain (no slash, not empty, neither . nor ..),
    the one file that the handler reads is
    <cwd>/public/tiles/<id>/<zoom>/<column>/<row>.png, below the tile
    directory, whatever the last segment is: of the last segment only
    the number that parseInt reads from its base name is used, and
    the file name made from it is plain. *)
Theorem lookup_stays_in_tile_directory :
  forall cwd fs fullId zStr xStr yPng,
    plain fullId = true -> plain zStr = true -> plain xStr = true ->
    let name :=
      toString (yToUse (parseInt zStr) (parseInt (parse_name yPng))) ++ ".png" in
    reads (fst (GET cwd fs [fullId; zStr; xStr; yPng]))
    = [(cwd ++ ["public"; "tiles"; fullId; zStr; xStr; name])%list]
    /\ plain name = true
    /\ below (TILE_BASE_PATH cwd)
         (cwd ++ ["public"; "tiles"; fullId; zStr; xStr; name])%list = true.
Proof.
  intros cwd fs fullId zStr xStr yPng Hf Hz Hx name.
  rewrite GET_reads, finalFilePath_plain by assumption.
  split; [reflexivity|]. split; [apply file_name_plain|].
  rewrite TILE_BASE_PATH_segments. unfold below.
  change (cwd ++ ["public"; "tiles"; fullId; zStr; xStr; name])%list
    with (cwd ++ ["public"; "tiles"] ++ [fullId; zStr; xStr; name])%list.
  rewrite app_assoc. apply starts_with_app.
Qed.

Lemma lookup_stays_in_tile_directory_witness :
  reads (fst (GET ["srv"] (fun _ => inl "ENOENT")
                ["sub1"; "12"; "654"; "../../../etc/7.png"]))
  = [["srv"; "public"; "tiles"; "sub1"; "12"; "654"; "4088.png"]].
Proof.
  apply (lookup_stays_in_tile_directory
           ["srv"] (fun _ => inl "ENOENT") "sub1" "12" "654"
           "../../../etc/7.png");
    reflexivity.
Defined.

(** X3: the segments are not checked against the tile directory.  With
    .. as dataset id and as zoom and a plain column, path.join leaves
    public/tiles: the handler reads <cwd>/<column>/<-y>.png, which is
    not below the tile directory, and when that file can be read it
    is served with status 200 as an image. *)
Theorem dot_dot_segments_leave_tile_directory :
  forall cwd fs xStr yPng fileBuffer,
    plain xStr = true ->
    let name := toString (sub (Num 0) (parseInt (parse_name yPng))) ++ ".png" in
    fs (cwd ++ [xStr; name])%list = inr fileBuffer ->
    reads (fst (GET cwd fs [".."; ".."; xStr; yPng])) = [(cwd ++ [xStr; name])%list]
    /\ snd (GET cwd fs [".."; ".."; xStr; yPng])
       = mkResponse 200 [("Content-Type", "image/png")] (Buffer fileBuffer)
    /\ below (TILE_BASE_PATH cwd) (cwd ++ [xStr; name])%list = false.
Proof.
  intros cwd fs xStr yPng bytes Hx name Hfs. subst name.
  set (name := toString (sub (Num 0) (parseInt (parse_name yPng))) ++ ".png") in *.
  assert (Hname : plain name = true) by apply file_name_plain.
  assert (E : finalFilePath cwd ".." ".." xStr yPng = (cwd ++ [xStr; name])%list).
  { unfold finalFilePath. rewrite TILE_BASE_PATH_segments.
    change (cwd ++ ["public"; "tiles"])%list
      with (cwd ++ ["public"] ++ ["tiles"])%list.
    rewrite app_assoc, join_dot_dot, join_dot_dot.
    change (yToUse (parseInt "..") (parseInt (parse_name yPng)))
      with (sub (Num 0) (parseInt (parse_name yPng))).
    fold name. apply join_plain. cbn [forallb]. now rewrite Hx, Hname. }
  rewrite GET_reads, GET_answer, E, Hfs.
  split; [reflexivity|]. split; [reflexivity|].
  rewrite TILE_BASE_PATH_segments. unfold below.
  rewrite starts_with_same_front. cbn [starts_with].
  destruct (String.eqb "public" xStr); [|reflexivity]. cbn [andb].
  rewrite andb_true_r. apply String.eqb_neq.
  intros H. symmetry in H. revert H. apply file_name_not_tiles.
Qed.

Lemma dot_dot_segments_leave_tile_directory_witness :
  let fs : tile_store :=
    fun p => if list_eq_dec string_dec p ["srv"; "secret"; "-7.png"]
             then inr [] else inl "ENOENT" in
  snd (GET ["srv"] fs [".."; ".."; "secret"; "7.png"])
  = mkResponse 200 [("Content-Type", "image/png")] (Buffer []).
Proof.
  intros fs.
  apply (dot_dot_segments_leave_tile_directory ["srv"] fs "secret" "7.png" []);
    reflexivity.
Defined.

(** X4: coordinates that are not numbers are not rejected.  A row that
    parseInt does not read is looked up as NaN.png; a zoom that
    parseInt does not read makes 1 << z equal to 1, so the row y is
    looked up as -y; and a request of four segments never gets the
    invalid-format answer. *)
Theorem non_numeric_coordinates_are_looked_up :
  forall cwd fs fullId zStr xStr yPng,
    (parseInt (parse_name yPng) = NaN ->
     reads (fst (GET cwd fs [fullId; zStr; xStr; yPng]))
     = [join (TILE_BASE_PATH cwd) [fullId; zStr; xStr; "NaN.png"]])
    /\ (forall y,
          parseInt zStr = NaN -> parseInt (parse_name yPng) = Num y ->
          reads (fst (GET cwd fs [fullId; zStr; xStr; yPng]))
          = [join (TILE_BASE_PATH cwd)
               [fullId; zStr; xStr; toString (Num (- y)) ++ ".png"]])
    /\ snd (GET cwd fs [fullId; zStr; xStr; yPng]) <> invalid_format.
Proof.
  intros cwd fs fullId zStr xStr yPng. split; [|split].
  - intros Hy. rewrite GET_reads. unfold finalFilePath. rewrite Hy.
    unfold yToUse, CONVERT_Y_TO_TMS.
    now destruct (sub (shl (Num 1) (parseInt zStr)) (Num 1)).
  - intros y Hz Hy. rewrite GET_reads. unfold finalFilePath.
    rewrite Hz, Hy.
    change (yToUse NaN (Num y)) with (round_to_double (0 - y)).
    now rewrite Z.sub_0_l, (round_opp_double y y (parseInt_double _ _ Hy)).
  - rewrite GET_answer. destruct (fs _); discriminate.
Qed.

Lemma non_numeric_coordinates_are_looked_up_witness :
  reads (fst (GET ["srv"] (fun _ => inl "ENOENT") ["sub1"; "3"; "2"; "seven.png"]))
  = [["srv"; "public"; "tiles"; "sub1"; "3"; "2"; "NaN.png"]]
  /\ reads (fst (GET ["srv"] (fun _ => inl "ENOENT") ["sub1"; "deep"; "2"; "7.png"]))
     = [["srv"; "public"; "tiles"; "sub1"; "deep"; "2"; "-7.png"]].
Proof.
  destruct (non_numeric_coordinates_are_looked_up
              ["srv"] (fun _ => inl "ENOENT") "sub1" "3" "2" "seven.png")
    as (Hnan & _ & _).
  destruct (non_numeric_coordinates_are_looked_up
              ["srv"] (fun _ => inl "ENOENT") "sub1" "deep" "2" "7.png")
    as (_ & Hz & _).
  split; [apply Hnan | apply (Hz 7)]; reflexivity.
Defined.

End TilesMore.
(* ================================================================== *)
(** * More properties of the document store *)
(* ================================================================== *)

Module StoreMore.
Import Json Fs Data Api Store StoreCalls ListFacts JsonProofs StoreProofs.
Local Open Scope fs_scope.
Local Open Scope list_scope.


Section WithNumbers.
Context {NF : NumberFormat}.

Ltac fs_unfold :=
  unfold Substations.GET, Substations.POST, Polygons.GET, Polygons.POST,
    getSubstations, getComponentPolygons, writeSubstations,
    writeComponentPolygons, readJsonFile, read_steps, write_steps,
    request_json, JSON_parse, ensureDataDir,
    access_dir, mkdir, access, readFile, writeFile, open_w, write_all,
    try_catch, bind, guarded, ret, throw,
    substationsPath, polygonsPath, stored, absent, no_faults in *;
  cbn [fault data fst snd] in *.

(** ** The data directory *)

(** What [ensureDataDir] does in each case. *)
Lemma ensureDataDir_cases w :
  ensureDataDir w
  = match fault w access_directory, data w, fault w mkdir_directory with
    | None, Some _, _ => (inr tt, w)
    | _, _, Some c => (inl (ErrnoException c), w)
    | _, Some _, None => (inr tt, w)
    | _, None, None =>
        (inr tt, mkDisk (Some (mkDirectory None None)) (fault w) (cut w))
    end.
Proof.
  destruct w as [[d|] flt n]; fs_unfold;
    destruct (flt access_directory); cbn [data fault];
    destruct (flt mkdir_directory); reflexivity.
Qed.

(** ** Reading *)

(** What the steps of a read do in each case: the directory is
    made when it is missing, nothing else changes. *)
Lemma read_steps_cases f w :
  read_steps f w
  = match ensureDataDir w with
    | (inl e, w') => (inl e, w')
    | (inr _, w') =>
        match fault w (access_file f) with
        | Some c => (inl (ErrnoException c), w')
        | None =>
            match stored f w with
            | None => (inl ENOENT, w')
            | Some t =>
                match fault w (read_file f) with
                | Some c => (inl (ErrnoException c), w')
                | None =>
                    match parse t with
                    | Some v => (inr v, w')
                    | None => (inl SyntaxError, w')
                    end
                end
            end
        end
    end.
Proof.
  unfold read_steps, bind at 1. rewrite ensureDataDir_cases.
  destruct w as [[d|] flt n]; cbn [data fault cut];
    destruct (flt access_directory); destruct (flt mkdir_directory);
    try reflexivity;
    unfold bind, access, readFile, guarded, JSON_parse, ret, throw, stored;
    cbn [data fault];
    destruct (flt (access_file f)); try reflexivity;
    try (destruct (content f d) as [t|] eqn:Ec; cbn [data fault];
         rewrite ?Ec; try reflexivity;
         destruct (flt (read_file f)); try reflexivity;
         now destruct (parse t));
    now destruct f.
Qed.

Lemma ensureDataDir_cut w : cut (snd (ensureDataDir w)) = cut w.
Proof.
  rewrite ensureDataDir_cases.
  destruct w as [[d|] flt n]; cbn [data fault cut];
    destruct (flt access_directory); destruct (flt mkdir_directory);
    reflexivity.
Qed.

Lemma ensureDataDir_frame w :
  fault (snd (ensureDataDir w)) = fault w
  /\ forall f, stored f (snd (ensureDataDir w)) = stored f w.
Proof.
  rewrite ensureDataDir_cases.
  destruct w as [[d|] flt n]; cbn [data fault cut];
    destruct (flt access_directory); destruct (flt mkdir_directory);
    split; try reflexivity; intros f; unfold stored; cbn; now destruct f.
Qed.

Lemma read_steps_disk f w : snd (read_steps f w) = snd (ensureDataDir w).
Proof.
  rewrite read_steps_cases.
  destruct (ensureDataDir w) as [[e|[]] w']; [reflexivity|].
  destruct (fault w (access_file f)); [reflexivity|].
  destruct (stored f w) as [t|]; [|reflexivity].
  destruct (fault w (read_file f)); [reflexivity|].
  now destruct (parse t).
Qed.

Lemma readJsonFile_disk f w : snd (readJsonFile f w) = snd (ensureDataDir w).
Proof.
  rewrite readJsonFile_steps, <- (read_steps_disk f).
  destruct (read_steps f w) as [[e|v] w']; [|reflexivity].
  now destruct (code_is e "ENOENT").
Qed.

Lemma readJsonFile_frame f w :
  fault (snd (readJsonFile f w)) = fault w
  /\ forall g, stored g (snd (readJsonFile f w)) = stored g w.
Proof. rewrite readJsonFile_disk. apply ensureDataDir_frame. Qed.

(** What a read returns is the empty array or the value of the
    stored text. *)
Lemma readJsonFile_value f w v :
  fst (readJsonFile f w) = inr v ->
  v = JArr [] \/ exists t, stored f w = Some t /\ parse t = Some v.
Proof.
  rewrite readJsonFile_steps, read_steps_cases.
  destruct (ensureDataDir w) as [[e|[]] w'].
  - cbn. destruct (code_is e "ENOENT"); cbn; [|discriminate].
    intros [= <-]. now left.
  - destruct (fault w (access_file f)) as [c|].
    { destruct (code_is (ErrnoException c) "ENOENT"); cbn; [|discriminate].
      intros [= <-]. now left. }
    destruct (stored f w) as [t|].
    2:{ cbn. intros [= <-]. now left. }
    destruct (fault w (read_file f)) as [c|].
    { destruct (code_is (ErrnoException c) "ENOENT"); cbn; [|discriminate].
      intros [= <-]. now left. }
    destruct (parse t) as [v'|] eqn:Ep; cbn; [|discriminate].
    intros [= <-]. right. now exists t.
Qed.

Lemma readJsonFile_order f w v :
  fst (readJsonFile f w) = inr v -> property_order v = true.
Proof.
  intros H. destruct (readJsonFile_value f w v H) as [->|(t & _ & Hp)];
    [reflexivity|].
  now apply (parse_property_order t).
Qed.

(** A second read finds what the first one found. *)
Lemma ensureDataDir_again w :
  fst (ensureDataDir w) = inr tt ->
  ensureDataDir (snd (ensureDataDir w)) = (inr tt, snd (ensureDataDir w)).
Proof.
  rewrite !ensureDataDir_cases.
  destruct w as [[d|] flt n]; cbn [data fault cut];
    destruct (flt access_directory) eqn:Ea;
    destruct (flt mkdir_directory) eqn:Em;
    cbn [fst snd data fault]; intros H; try discriminate H;
    rewrite ?Ea, ?Em; reflexivity.
Qed.

Lemma ensureDataDir_failed w e :
  fst (ensureDataDir w) = inl e ->
  snd (ensureDataDir w) = w
  /\ exists c, e = ErrnoException c /\ fault w mkdir_directory = Some c.
Proof.
  rewrite !ensureDataDir_cases.
  destruct w as [[d|] flt n]; cbn [data fault cut];
    destruct (flt access_directory) eqn:Ea;
    destruct (flt mkdir_directory) eqn:Em;
    cbn [fst snd data fault]; intros H; try discriminate H;
    injection H as <-; (split; [reflexivity|]); now eexists.
Qed.

Lemma read_steps_again f w :
  read_steps f (snd (read_steps f w)) = read_steps f w.
Proof.
  rewrite read_steps_disk.
  rewrite (read_steps_cases f w), (read_steps_cases f (snd (ensureDataDir w))).
  destruct (ensureDataDir_frame w) as [Hflt Hst].
  rewrite Hflt, Hst.
  destruct (ensureDataDir w) as [[e|[]] w'] eqn:E.
  - destruct (ensureDataDir_failed w e) as [Hw _]; [now rewrite E|].
    rewrite E in Hw. cbn [snd] in *. subst w'. now rewrite E.
  - pose proof (ensureDataDir_again w) as Ha. rewrite E in Ha.
    cbn [fst snd] in *. now rewrite Ha.
Qed.

Lemma readJsonFile_again f w :
  readJsonFile f (snd (readJsonFile f w)) = readJsonFile f w.
Proof.
  rewrite readJsonFile_disk, <- (read_steps_disk f).
  rewrite (readJsonFile_steps f (snd (read_steps f w))), read_steps_again.
  now rewrite readJsonFile_steps.
Qed.

(** ** Writing *)

Lemma write_steps_cases f v w :
  write_steps f v w
  = match ensureDataDir w with
    | (inl e, w') => (inl e, w')
    | (inr _, w') =>
        match fault w (open_file f), data w' with
        | Some c, _ => (inl (ErrnoException c), w')
        | None, None => (inl ENOENT, w')
        | None, Some d =>
            match fault w (write_file f) with
            | Some c =>
                (inl (ErrnoException c),
                 mkDisk (Some (with_content f
                                 (firstn (cut w) (stringify2 v)) d))
                   (fault w) (cut w))
            | None =>
                (inr tt,
                 mkDisk (Some (with_content f (stringify2 v) d))
                   (fault w) (cut w))
            end
        end
    end.
Proof.
  unfold write_steps, bind. rewrite ensureDataDir_cases.
  destruct w as [[d|] flt n]; cbn [data fault cut];
    destruct (flt access_directory); destruct (flt mkdir_directory);
    try reflexivity;
    unfold writeFile, open_w, write_all, bind, guarded; cbn [data fault cut];
    destruct (flt (open_file f)); try reflexivity; cbn [data fault cut];
    destruct (flt (write_file f)); now rewrite with_content_twice.
Qed.

Lemma ensureDataDir_directory w :
  fst (ensureDataDir w) = inr tt -> data (snd (ensureDataDir w)) <> None.
Proof.
  rewrite ensureDataDir_cases.
  destruct w as [[d|] flt n]; cbn [data fault cut];
    destruct (flt access_directory); destruct (flt mkdir_directory);
    cbn [fst snd data]; intros H; discriminate.
Qed.

Lemma write_steps_succeeds f v w :
  fst (write_steps f v w) = inr tt
  <-> fst (ensureDataDir w) = inr tt
      /\ fault w (open_file f) = None /\ fault w (write_file f) = None.
Proof.
  rewrite write_steps_cases.
  pose proof (ensureDataDir_directory w) as Hd.
  destruct (ensureDataDir w) as [[e|[]] w']; cbn [fst snd] in *.
  - split; [discriminate | now intros [H _]].
  - destruct (fault w (open_file f)); cbn [fst].
    + split; [discriminate | now intros (_ & H & _)].
    + destruct (data w'); cbn [fst]; [|now destruct Hd].
      destruct (fault w (write_file f)); cbn [fst]; [|now split].
      split; [discriminate | now intros (_ & _ & H)].
Qed.

(** A write changes no fault and no other file.  When it throws,
    either nothing has changed (the directory could not be made or
    the file could not be opened) or the file has been cut and
    holds what was written before the failure. *)
Lemma write_steps_frame f v w :
  fault (snd (write_steps f v w)) = fault w
  /\ (forall g, g <> f ->
                stored g (snd (write_steps f v w)) = stored g w)
  /\ (fst (write_steps f v w) = inr tt ->
      stored f (snd (write_steps f v w)) = Some (stringify2 v))
  /\ (forall e, fst (write_steps f v w) = inl e ->
                (fst (ensureDataDir w) <> inr tt
                 \/ fault w (open_file f) <> None) ->
                forall g, stored g (snd (write_steps f v w)) = stored g w)
  /\ (forall c, fst (ensureDataDir w) = inr tt ->
                fault w (open_file f) = None ->
                fault w (write_file f) = Some c ->
                fst (write_steps f v w) = inl (ErrnoException c)
                /\ stored f (snd (write_steps f v w))
                   = Some (firstn (cut w) (stringify2 v))).
Proof.
  rewrite write_steps_cases.
  destruct (ensureDataDir_frame w) as [Hflt Hst].
  pose proof (ensureDataDir_directory w) as Hdir.
  destruct (ensureDataDir w) as [[e|[]] w']; cbn [fst snd] in *.
  - split; [exact Hflt|]. split; [auto|]. split; [discriminate|].
    split; [auto | discriminate].
  - destruct (fault w (open_file f)) eqn:Ho; cbn [fst snd].
    { split; [exact Hflt|]. split; [auto|]. split; [discriminate|].
      split; [auto | discriminate]. }
    destruct (data w') as [d|] eqn:Ed; [|now destruct Hdir].
    assert (Hother : forall t g, g <> f ->
              stored g (mkDisk (Some (with_content f t d)) (fault w) (cut w))
              = stored g w).
    { intros t g Hg. rewrite <- Hst. unfold stored. rewrite Ed. cbn [data].
      now apply content_with_other. }
    destruct (fault w (write_file f)) eqn:Hw; cbn [fst snd fault].
    + split; [reflexivity|]. split; [apply Hother|].
      split; [discriminate|]. split.
      * intros e _ [H|H]; now destruct H.
      * intros c _ _ [= <-]. split; [reflexivity|].
        unfold stored. cbn [data]. apply content_with_content.
    + split; [reflexivity|]. split; [apply Hother|]. split.
      * intros _. unfold stored. cbn [data]. apply content_with_content.
      * split; [discriminate|]. discriminate.
Qed.

Lemma write_steps_cut f v w : cut (snd (write_steps f v w)) = cut w.
Proof.
  rewrite write_steps_cases.
  pose proof (ensureDataDir_cut w) as Hc.
  destruct (ensureDataDir w) as [[e|[]] w']; cbn [fst snd] in *;
    [exact Hc|].
  destruct (fault w (open_file f)); [exact Hc|].
  destruct (data w'); [|exact Hc].
  now destruct (fault w (write_file f)).
Qed.

(** ** The routes *)

Lemma GET_substations_disk w :
  snd (Substations.GET w) = snd (readJsonFile substations_json w).
Proof.
  rewrite GET_substations_answer. unfold getSubstations, substationsPath.
  now destruct (readJsonFile substations_json w) as [[e|v] w'].
Qed.

Lemma GET_polygons_disk w :
  snd (Polygons.GET w) = snd (readJsonFile component_polygons_json w).
Proof.
  rewrite GET_polygons_answer. unfold getComponentPolygons, polygonsPath.
  now destruct (readJsonFile component_polygons_json w) as [[e|v] w'].
Qed.

Lemma GET_substations_again w :
  Substations.GET (snd (Substations.GET w)) = Substations.GET w.
Proof.
  rewrite GET_substations_disk, !GET_substations_answer.
  unfold getSubstations, substationsPath. now rewrite readJsonFile_again.
Qed.

Lemma GET_polygons_again w :
  Polygons.GET (snd (Polygons.GET w)) = Polygons.GET w.
Proof.
  rewrite GET_polygons_disk, !GET_polygons_answer.
  unfold getComponentPolygons, polygonsPath. now rewrite readJsonFile_again.
Qed.

(** What a POST leaves on the disk. *)
Lemma POST_substations_disk request w :
  snd (Substations.POST request w)
  = match request_value request with
    | Some v => snd (write_steps substations_json v w)
    | None => w
    end.
Proof.
  rewrite POST_substations_answer.
  destruct (request_value request) as [v|]; [|reflexivity].
  change (writeSubstations v w) with (write_steps substations_json v w).
  now destruct (write_steps substations_json v w) as [[e|[]] w'].
Qed.

Lemma POST_polygons_disk request w :
  snd (Polygons.POST request w)
  = match request_value request with
    | Some v => snd (write_steps component_polygons_json v w)
    | None => w
    end.
Proof.
  rewrite POST_polygons_answer.
  destruct (request_value request) as [v|]; [|reflexivity].
  change (writeComponentPolygons v w)
    with (write_steps component_polygons_json v w).
  now destruct (write_steps component_polygons_json v w) as [[e|[]] w'].
Qed.



Lemma stringify_parses v :
  property_order v = true -> parse (stringify v) <> None.
Proof.
  intros H. unfold stringify.
  rewrite parse_serialize_written by (assumption || reflexivity).
  discriminate.
Qed.






(** ** Properties *)

(** X5: ensureDataDir changes no file and no fault of the medium.  It
    succeeds exactly when the directory can be accessed or mkdir
    does not fail; after a success the directory exists and a second
    call succeeds and changes nothing; when it fails the disk is as
    before and the error is the one of mkdir. *)
Theorem ensureDataDir_only_makes_the_directory :
  forall w : disk,
    let r := fst (ensureDataDir w) in
    let w' := snd (ensureDataDir w) in
    fault w' = fault w
    /\ (forall f, stored f w' = stored f w)
    /\ (r = inr tt <->
        (fault w access_directory = None /\ data w <> None)
        \/ fault w mkdir_directory = None)
    /\ (r = inr tt ->
        data w' <> None /\ ensureDataDir w' = (inr tt, w'))
    /\ (forall e, r = inl e ->
                  w' = w
                  /\ exists c, e = ErrnoException c
                               /\ fault w mkdir_directory = Some c).
Proof.
  intros w r w'. subst r w'.
  destruct (ensureDataDir_frame w) as [Hflt Hst].
  split; [exact Hflt|]. split; [exact Hst|]. split; [|split].
  - rewrite ensureDataDir_cases.
    destruct w as [[d|] flt n]; cbn [data fault cut];
      destruct (flt access_directory); destruct (flt mkdir_directory);
      cbn [fst]; split; intros H; try discriminate H; auto;
      try (now right); try (left; split; [reflexivity | discriminate]);
      destruct H as [[H1 H2]|H]; try discriminate; now destruct H2.
  - intros H. split; [now apply ensureDataDir_directory|].
    now apply ensureDataDir_again.
  - intros e. apply ensureDataDir_failed.
Qed.

(** X6: GET of /api/substations and of /api/polygons changes the
    content of no file, and the same GET repeated on the disk that
    the first one leaves gives the same answer and the same disk.
    The one thing a GET can change is to create the data directory:
    when it exists the disk is left as it is. *)
Theorem GET_changes_no_file_and_can_be_repeated :
  forall w : disk,
    (forall f, stored f (snd (Substations.GET w)) = stored f w
               /\ stored f (snd (Polygons.GET w)) = stored f w)
    /\ Substations.GET (snd (Substations.GET w)) = Substations.GET w
    /\ Polygons.GET (snd (Polygons.GET w)) = Polygons.GET w
    /\ (data w <> None ->
        snd (Substations.GET w) = w /\ snd (Polygons.GET w) = w).
Proof.
  intros w. split; [|split; [|split]].
  - intros f. rewrite GET_substations_disk, GET_polygons_disk.
    split; apply readJsonFile_frame.
  - apply GET_substations_again.
  - apply GET_polygons_again.
  - intros Hd. rewrite GET_substations_disk, GET_polygons_disk.
    rewrite !readJsonFile_disk, ensureDataDir_cases.
    destruct w as [[d|] flt]; [|now destruct Hd]. cbn [data fault].
    destruct (flt access_directory); destruct (flt mkdir_directory);
      now split.
Qed.

(** X7: writeSubstations never changes the polygons file and
    writeComponentPolygons never changes the substations file.  A
    write that succeeds leaves JSON.stringify(data, null, 2) in its
    own file.  A write that throws before the text is written (the
    data directory cannot be made or the file cannot be opened)
    leaves its own file as it was; a write that throws while the
    text is written has cut the file: the old content is gone and
    the file holds the part of the new text that was written before
    the failure. *)
Theorem write_touches_only_its_file :
  forall (w : disk) (v : json),
    stored component_polygons_json (snd (writeSubstations v w))
    = stored component_polygons_json w
    /\ stored substations_json (snd (writeComponentPolygons v w))
       = stored substations_json w
    /\ (fst (writeSubstations v w) = inr tt ->
        stored substations_json (snd (writeSubstations v w))
        = Some (stringify2 v))
    /\ (fst (writeComponentPolygons v w) = inr tt ->
        stored component_polygons_json (snd (writeComponentPolygons v w))
        = Some (stringify2 v))
    /\ (forall e,
          fst (writeSubstations v w) = inl e ->
          fst (ensureDataDir w) <> inr tt
          \/ fault w (open_file substations_json) <> None ->
          stored substations_json (snd (writeSubstations v w))
          = stored substations_json w)
    /\ (forall e,
          fst (writeComponentPolygons v w) = inl e ->
          fst (ensureDataDir w) <> inr tt
          \/ fault w (open_file component_polygons_json) <> None ->
          stored component_polygons_json (snd (writeComponentPolygons v w))
          = stored component_polygons_json w)
    /\ (forall c,
          fst (ensureDataDir w) = inr tt ->
          fault w (open_file substations_json) = None ->
          fault w (write_file substations_json) = Some c ->
          fst (writeSubstations v w) = inl (ErrnoException c)
          /\ stored substations_json (snd (writeSubstations v w))
             = Some (firstn (cut w) (stringify2 v)))
    /\ (forall c,
          fst (ensureDataDir w) = inr tt ->
          fault w (open_file component_polygons_json) = None ->
          fault w (write_file component_polygons_json) = Some c ->
          fst (writeComponentPolygons v w) = inl (ErrnoException c)
          /\ stored component_polygons_json
               (snd (writeComponentPolygons v w))
             = Some (firstn (cut w) (stringify2 v))).
Proof.
  intros w v.
  change (writeSubstations v) with (write_steps substations_json v).
  change (writeComponentPolygons v)
    with (write_steps component_polygons_json v).
  destruct (write_steps_frame substations_json v w)
    as (_ & Ho1 & Hs1 & Hf1 & Hc1).
  destruct (write_steps_frame component_polygons_json v w)
    as (_ & Ho2 & Hs2 & Hf2 & Hc2).
  split; [apply Ho1; discriminate|]. split; [apply Ho2; discriminate|].
  split; [exact Hs1|]. split; [exact Hs2|].
  split; [intros e He Hb; now apply (Hf1 e)|].
  split; [intros e He Hb; now apply (Hf2 e)|].
  split; [exact Hc1 | exact Hc2].
Qed.

Lemma POST_substations_stored request v w :
  no_faults w -> request_value request = Some v ->
  let w' := snd (Substations.POST request w) in
  no_faults w'
  /\ stored substations_json w' = Some (stringify2 v)
  /\ stored component_polygons_json w' = stored component_polygons_json w.
Proof.
  intros Hnf Hv w'. subst w'. rewrite POST_substations_disk, Hv.
  destruct (write_steps_frame substations_json v w) as (Hflt & Ho & Hs & _).
  split; [|split].
  - intros op. now rewrite Hflt.
  - apply Hs. apply write_steps_succeeds.
    split; [|split; apply Hnf].
    rewrite ensureDataDir_cases, !Hnf. now destruct (data w).
  - apply Ho. discriminate.
Qed.

Lemma POST_polygons_stored request v w :
  no_faults w -> request_value request = Some v ->
  let w' := snd (Polygons.POST request w) in
  no_faults w'
  /\ stored component_polygons_json w' = Some (stringify2 v)
  /\ stored substations_json w' = stored substations_json w.
Proof.
  intros Hnf Hv w'. subst w'. rewrite POST_polygons_disk, Hv.
  destruct (write_steps_frame component_polygons_json v w)
    as (Hflt & Ho & Hs & _).
  split; [|split].
  - intros op. now rewrite Hflt.
  - apply Hs. apply write_steps_succeeds.
    split; [|split; apply Hnf].
    rewrite ensureDataDir_cases, !Hnf. now destruct (data w).
  - apply Ho. discriminate.
Qed.

Lemma GET_substations_stored request v w :
  no_faults w -> request_value request = Some v ->
  stored substations_json w = Some (stringify2 v) ->
  fst (Substations.GET w) = inr (NextResponse_json v 200).
Proof.
  intros Hnf Hv Hst. rewrite GET_substations_answer.
  unfold getSubstations, substationsPath.
  rewrite (readJsonFile_stored substations_json w (stringify2 v) (written v));
    try assumption.
  - cbn [fst]. now rewrite NextResponse_json_written.
  - apply parse_serialize_written; [reflexivity|].
    now apply (request_value_order request).
Qed.

Lemma GET_polygons_stored request v w :
  no_faults w -> request_value request = Some v ->
  stored component_polygons_json w = Some (stringify2 v) ->
  fst (Polygons.GET w) = inr (NextResponse_json v 200).
Proof.
  intros Hnf Hv Hst. rewrite GET_polygons_answer.
  unfold getComponentPolygons, polygonsPath.
  rewrite (readJsonFile_stored component_polygons_json w (stringify2 v)
             (written v));
    try assumption.
  - cbn [fst]. now rewrite NextResponse_json_written.
  - apply parse_serialize_written; [reflexivity|].
    now apply (request_value_order request).
Qed.

(** X8: on a medium without faults, a POST to one collection does not
    change what GET answers for the other one, and of two POSTs to
    the same collection the GET after them answers the body of the
    second.  After the POSTs of a first list of substations, of a
    list of polygons and of a second list of substations, the GETs
    answer the first list and the polygons before the third POST,
    and the second list and the polygons after it. *)
Theorem collections_are_independent_and_last_POST_wins :
  forall (w : disk) (first second polygons : Request) (a a' b : json),
    no_faults w ->
    request_value first = Some a ->
    request_value second = Some a' ->
    request_value polygons = Some b ->
    let w1 := snd (Substations.POST first w) in
    let w2 := snd (Polygons.POST polygons w1) in
    let w3 := snd (Substations.POST second w2) in
    fst (Substations.GET w2) = inr (NextResponse_json a 200)
    /\ fst (Polygons.GET w2) = inr (NextResponse_json b 200)
    /\ fst (Substations.GET w3) = inr (NextResponse_json a' 200)
    /\ fst (Polygons.GET w3) = inr (NextResponse_json b 200)
    /\ stored substations_json w3 = Some (stringify2 a').
Proof.
  intros w first second polygons a a' b Hnf Ha Ha' Hb w1 w2 w3.
  destruct (POST_substations_stored first a w Hnf Ha) as (Hnf1 & Hs1 & Hp1).
  fold w1 in Hnf1, Hs1, Hp1.
  destruct (POST_polygons_stored polygons b w1 Hnf1 Hb) as (Hnf2 & Hp2 & Hs2).
  fold w2 in Hnf2, Hp2, Hs2.
  destruct (POST_substations_stored second a' w2 Hnf2 Ha') as (Hnf3 & Hs3 & Hp3).
  fold w3 in Hnf3, Hs3, Hp3.
  split; [|split; [|split; [|split]]].
  - apply (GET_substations_stored first); try assumption. now rewrite Hs2.
  - now apply (GET_polygons_stored polygons).
  - now apply (GET_substations_stored second).
  - apply (GET_polygons_stored polygons); try assumption. now rewrite Hp3.
  - exact Hs3.
Qed.


Lemma message_parses s : parse (stringify (message s)) <> None.
Proof. apply stringify_parses. reflexivity. Qed.

(** X10: the four route handlers never throw: on every disk and for
    every request each of them returns a response, its status is 200
    or 500, and its body is a JSON text. *)
Theorem routes_always_answer_with_JSON :
  forall (c : call) (w : disk),
    exists r,
      fst (serve c w) = inr r
      /\ (status r = 200 \/ status r = 500)
      /\ parse (body r) <> None.
Proof.
  intros c w. destruct c; cbn [serve].
  - rewrite GET_substations_answer. unfold getSubstations, substationsPath.
    destruct (readJsonFile substations_json w) as [[e|v] w'] eqn:E.
    + eexists. split; [reflexivity|]. split; [now right|].
      apply message_parses.
    + eexists. split; [reflexivity|]. split; [now left|].
      apply stringify_parses.
      apply (readJsonFile_order substations_json w). now rewrite E.
  - rewrite POST_substations_answer.
    destruct (request_value request) as [v|].
    + destruct (writeSubstations v w) as [[e|[]] w'];
        eexists; (split; [reflexivity|]);
        (split; [(now left) || (now right) | apply message_parses]).
    + eexists. split; [reflexivity|]. split; [now right|].
      apply message_parses.
  - rewrite GET_polygons_answer. unfold getComponentPolygons, polygonsPath.
    destruct (readJsonFile component_polygons_json w) as [[e|v] w'] eqn:E.
    + eexists. split; [reflexivity|]. split; [now right|].
      apply message_parses.
    + eexists. split; [reflexivity|]. split; [now left|].
      apply stringify_parses.
      apply (readJsonFile_order component_polygons_json w). now rewrite E.
  - rewrite POST_polygons_answer.
    destruct (request_value request) as [v|].
    + destruct (writeComponentPolygons v w) as [[e|[]] w'];
        eexists; (split; [reflexivity|]);
        (split; [(now left) || (now right) | apply message_parses]).
    + eexists. split; [reflexivity|]. split; [now right|].
      apply message_parses.
Qed.

(** X11: an error with the code ENOENT from any step of readJsonFile
    (mkdir of the data directory, the access of the file or the read
    itself) is answered as the empty collection with status 200, also
    when the file exists and holds records. *)
Theorem ENOENT_from_any_step_reads_as_empty :
  forall w : disk,
    (forall e,
        fst (read_steps substations_json w) = inl e ->
        code_is e "ENOENT" = true ->
        fst (getSubstations w) = inr (JArr [])
        /\ fst (Substations.GET w) = inr (mkResponse 200 (js "[]")))
    /\ (forall e,
          fst (read_steps component_polygons_json w) = inl e ->
          code_is e "ENOENT" = true ->
          fst (getComponentPolygons w) = inr (JArr [])
          /\ fst (Polygons.GET w) = inr (mkResponse 200 (js "[]"))).
Proof.
  intros w. split; intros e He Hc.
  - rewrite GET_substations_answer. unfold getSubstations, substationsPath.
    rewrite readJsonFile_steps.
    destruct (read_steps substations_json w) as [[e'|v] w'];
      [|discriminate He].
    injection He as ->. rewrite Hc. now split.
  - rewrite GET_polygons_answer. unfold getComponentPolygons, polygonsPath.
    rewrite readJsonFile_steps.
    destruct (read_steps component_polygons_json w) as [[e'|v] w'];
      [|discriminate He].
    injection He as ->. rewrite Hc. now split.
Qed.

End WithNumbers.

(** ** Examples, with integer numbers *)

Import IntegerNumbers IntegerNumbersProofs Examples MoreExamples.

Ltac by_evaluation := first [reflexivity | exact I].


Lemma collections_are_independent_and_last_POST_wins_witness :
  let w1 := snd (Substations.POST (post "[1]") first_run) in
  let w2 := snd (Polygons.POST (post "{ }") w1) in
  let w3 := snd (Substations.POST (post "[]") w2) in
  fst (Substations.GET w2) = inr (mkResponse 200 (js "[1]"))
  /\ fst (Polygons.GET w3) = inr (mkResponse 200 (js "{}"))
  /\ fst (Substations.GET w3) = inr (mkResponse 200 (js "[]")).
Proof.
  assert (Hq : no_faults first_run) by (now apply quiet_no_faults).
  assert (E1 : request_value (post "[1]") = Some (JArr [JNum (Int 1)]))
    by by_evaluation.
  assert (E2 : request_value (post "[]") = Some (JArr [])) by by_evaluation.
  assert (E3 : request_value (post "{ }") = Some (JObj [])) by by_evaluation.
  destruct (collections_are_independent_and_last_POST_wins
              first_run (post "[1]") (post "[]") (post "{ }")
              _ _ _ Hq E1 E2 E3) as (H1 & _ & H3 & H4 & _).
  exact (conj H1 (conj H4 H3)).
Defined.


Lemma ENOENT_from_any_step_reads_as_empty_witness :
  stored component_polygons_json vanishing_polygons
  = Some (stringify2 one_polygon)
  /\ fst (Polygons.GET vanishing_polygons) = inr (mkResponse 200 (js "[]")).
Proof.
  split; [reflexivity|].
  destruct (ENOENT_from_any_step_reads_as_empty vanishing_polygons)
    as [_ H].
  assert (E : fst (read_steps component_polygons_json vanishing_polygons)
              = inl (ErrnoException "ENOENT")) by by_evaluation.
  destruct (H _ E eq_refl) as [_ Hget]. exact Hget.
Defined.

Lemma ensureDataDir_only_makes_the_directory_witness :
  ensureDataDir first_run
  = (inr tt, mkDisk (Some (mkDirectory None None)) quiet 0)
  /\ fst (ensureDataDir read_only_medium) = inl (ErrnoException "EROFS").
Proof.
  destruct (ensureDataDir_only_makes_the_directory read_only_medium)
    as (_ & _ & _ & _ & Hfail).
  split; [reflexivity|].
  destruct (ensureDataDir read_only_medium) as [[e|[]] w'] eqn:E.
  - destruct (Hfail e eq_refl) as (_ & c & -> & Hc).
    injection Hc as <-. reflexivity.
  - discriminate E.
Defined.

Lemma GET_changes_no_file_and_can_be_repeated_witness :
  snd (Polygons.GET one_polygon_stored) = one_polygon_stored
  /\ snd (Substations.GET one_polygon_stored) = one_polygon_stored.
Proof.
  destruct (GET_changes_no_file_and_can_be_repeated one_polygon_stored)
    as (_ & _ & _ & H).
  destruct H as [H1 H2]; [discriminate|]. now split.
Defined.

Lemma write_touches_only_its_file_witness :
  stored substations_json (snd (writeSubstations (JArr []) one_polygon_stored))
  = Some (js "[]")
  /\ stored component_polygons_json
       (snd (writeSubstations (JArr []) one_polygon_stored))
     = Some (stringify2 one_polygon)
  /\ stored substations_json (snd (writeSubstations (JArr [s1]) locked_files))
     = Some (js "[]")
  /\ stored substations_json (snd (writeSubstations (JArr [s1]) full_disk))
     = Some []
  /\ stored component_polygons_json
       (snd (writeComponentPolygons (JArr []) filling_disk))
     = Some (js "[").
Proof.
  destruct (write_touches_only_its_file one_polygon_stored (JArr []))
    as (Hother & _ & Hsame & _).
  destruct (write_touches_only_its_file locked_files (JArr [s1]))
    as (_ & _ & _ & _ & Hlocked & _).
  destruct (write_touches_only_its_file full_disk (JArr [s1]))
    as (_ & _ & _ & _ & _ & _ & Hfull & _).
  destruct (write_touches_only_its_file filling_disk (JArr []))
    as (_ & _ & _ & _ & _ & _ & _ & Hfilling).
  split; [apply Hsame; reflexivity|]. split; [exact Hother|].
  split; [|split].
  - apply (Hlocked (ErrnoException "EACCES")); [reflexivity|].
    right. discriminate.
  - destruct (Hfull "ENOSPC"%string) as [_ H];
      [reflexivity | reflexivity | reflexivity | exact H].
  - destruct (Hfilling "ENOSPC"%string) as [_ H];
      [reflexivity | reflexivity | reflexivity | exact H].
Defined.

End StoreMore.
(* ================================================================== *)
(** * More properties of [handleSavePolygon] *)
(* ================================================================== *)

Module CompleteTabMore.
Import Json Fs Data Api Store CompleteTab Dialog ListFacts JsonProofs
       StoreProofs StoreMore.
Local Open Scope list_scope.

Section WithNumbers.
Context {NF : NumberFormat}.

(** ** The two requests *)

Lemma stored_data f w t : stored f w = Some t -> exists d, data w = Some d.
Proof.
  unfold stored. destruct (data w) as [d|]; [now exists d | discriminate].
Qed.

Lemma GET_polygons_value w t v :
  no_faults w -> stored component_polygons_json w = Some t ->
  parse t = Some v ->
  Polygons.GET w = (inr (NextResponse_json v 200), w).
Proof.
  intros Hnf Hst Hp. rewrite GET_polygons_answer.
  unfold getComponentPolygons, polygonsPath.
  rewrite (readJsonFile_stored component_polygons_json w t v);
    [reflexivity | assumption..].
Qed.

Lemma GET_polygons_read w v :
  fst (getComponentPolygons w) = inr v ->
  Polygons.GET w
  = (inr (NextResponse_json v 200),
     snd (readJsonFile component_polygons_json w)).
Proof.
  rewrite GET_polygons_answer. unfold getComponentPolygons, polygonsPath.
  destruct (readJsonFile component_polygons_json w) as [[e|v'] w'];
    [discriminate|].
  now intros [= ->].
Qed.

(** After a read on a medium without faults the directory is
    there, with the files as they were. *)
Lemma read_directory f w :
  no_faults w ->
  exists d,
    data (snd (readJsonFile f w)) = Some d
    /\ no_faults (snd (readJsonFile f w))
    /\ forall g, content g d = stored g w.
Proof.
  intros Hnf. destruct (readJsonFile_frame f w) as [Hflt Hst].
  rewrite readJsonFile_disk in *.
  assert (Hok : fst (ensureDataDir w) = inr tt).
  { rewrite ensureDataDir_cases, !Hnf. now destruct (data w). }
  pose proof (ensureDataDir_directory w Hok) as Hd.
  destruct (data (snd (ensureDataDir w))) as [d|] eqn:Ed; [|now destruct Hd].
  exists d. split; [reflexivity|]. split.
  - intros op. now rewrite Hflt.
  - intros g. rewrite <- Hst. unfold stored. now rewrite Ed.
Qed.

Lemma response_json_value v status w out :
  property_order v = true ->
  response_json (NextResponse_json v status) w out = (inr (written v), w, out).
Proof.
  intros Hord. unfold response_json, NextResponse_json. cbn [body].
  unfold stringify. now rewrite parse_serialize_written.
Qed.

Lemma POST_polygons_ok w d v :
  no_faults w -> data w = Some d -> property_order v = true ->
  Polygons.POST (mkRequest (Some (stringify v))) w
  = (inr (NextResponse_json (message "Polygons updated successfully") 200),
     mkDisk (Some (with_content component_polygons_json (stringify2 v) d))
            (fault w) (cut w)).
Proof.
  intros Hnf Hd Hord. rewrite POST_polygons_answer.
  unfold request_value. cbn [text]. unfold stringify.
  rewrite parse_serialize_written by (assumption || reflexivity).
  change (writeComponentPolygons (written v))
    with (write_steps component_polygons_json (written v)).
  rewrite write_steps_cases, ensureDataDir_cases, !Hnf, Hd. cbn [data].
  rewrite Hd. unfold stringify2. now rewrite serialize_written.
Qed.

(** ** Filters *)

Lemma filter_property_not_null key s l :
  forallb not_null l = true ->
  filter_property key s l = inr (filter (property_eq key s) l).
Proof.
  induction l as [|p l IH]; [reflexivity|]. cbn [forallb filter_property filter].
  intros H. apply andb_prop in H as [Hp Hl]. rewrite (IH Hl).
  unfold property_eq.
  destruct p; try discriminate Hp; cbn;
    try reflexivity.
  destruct (get (js key) members) as [[]|]; try reflexivity.
Qed.

(** ** Saving a new polygon *)

Lemma new_record_order uuid now st sub geometry :
  property_order (JObj geometry) = true ->
  property_order (new_record uuid now st sub geometry) = true.
Proof.
  intros Hg. unfold new_record.
  cbn [property_order List.map fst snd forallb] in *. rewrite Hg.
  destruct (SubstationData.full_id sub) as [f|];
    [destruct (or_null f)|];
    destruct (or_null (trim (dialogAdditionalInfo st))); reflexivity.
Qed.

Lemma ready_parts st :
  ready st = true ->
  exists poly sub geometry,
    dialogPolygon st = Some poly /\ selectedSubstation st = Some sub
    /\ CompleteTab.geometry poly = Some geometry
    /\ is_empty (selectedComponent st) = false
    /\ jsstring_eqb (selectedComponent st) (js "Other")
       && is_empty (trim (dialogAdditionalInfo st)) = false
    /\ is_empty (annotatorName st) = false.
Proof.
  unfold ready. destruct (dialogPolygon st) as [poly|]; [|discriminate].
  destruct (selectedSubstation st) as [sub|]; [|discriminate].
  intros H. apply andb_prop in H as [H Hg]. apply andb_prop in H as [H Hn].
  apply andb_prop in H as [Hc Ho].
  destruct (CompleteTab.geometry poly) as [g|] eqn:Eg; [|discriminate].
  exists poly, sub, g.
  split; [reflexivity|]. split; [reflexivity|]. split; [exact Eg|].
  repeat split; now apply negb_true_iff.
Qed.

Lemma handleSavePolygon_ready uuid now st w poly sub geometry :
  ready st = true ->
  dialogPolygon st = Some poly -> selectedSubstation st = Some sub ->
  CompleteTab.geometry poly = Some geometry ->
  handleSavePolygon uuid now st w
  = let isTemp := startsWith (id poly) (js "temp-") in
    match try_block uuid now st sub poly geometry isTemp w [] with
    | (inr st', w', out) => (out, st', w')
    | (inl error, w', out) => (out ++ failure isTemp error, st, w')
    end.
Proof.
  intros Hr Hp Hs Hg.
  destruct (ready_parts st Hr) as (p & s & g & Hp' & Hs' & Hg' & Hc & Ho & Hn).
  rewrite Hp in Hp'. injection Hp' as <-.
  rewrite Hs in Hs'. injection Hs' as <-.
  rewrite Hg in Hg'. injection Hg' as <-.
  unfold handleSavePolygon. now rewrite Hp, Hs, Hc, Ho, Hn, Hg.
Qed.

(** X14: saving a polygon that has just been drawn (its id starts with
    temp-) appends one record to the stored list and keeps the
    records that were there, in their order; the record has the new
    uuid, the id of the selected substation, the chosen label, the
    geometry, the date, from_osm false, the trimmed additional
    information or null, and the annotator.  The substations file is
    unchanged, and the dialog is closed with the polygons of the
    selected substation shown. *)
Theorem drawn_polygon_is_appended :
  forall uuid now (st : State) (w : disk) poly sub geometry existing,
    ready st = true ->
    dialogPolygon st = Some poly -> selectedSubstation st = Some sub ->
    CompleteTab.geometry poly = Some geometry ->
    property_order (JObj geometry) = true ->
    startsWith (id poly) (js "temp-") = true ->
    no_faults w ->
    fst (getComponentPolygons w) = inr (JArr existing) ->
    finite_numbers (JArr existing) = true ->
    forallb not_null existing = true ->
    let saved := new_record uuid now st sub geometry in
    let '(out, st', w') := handleSavePolygon uuid now st w in
    out = [ request "GET" "/api/polygons";
            saved_toast "Annotation Saved" (selectedComponent st)
              (or_null (trim (dialogAdditionalInfo st))) "added";
            request "POST" "/api/polygons" ]
    /\ stored component_polygons_json w'
       = Some (stringify2 (JArr (existing ++ [saved])))
    /\ stored substations_json w' = stored substations_json w
    /\ st' = closed st
               (filter (property_eq "substation_uuid" (SubstationData.id sub))
                  existing ++ [saved]).
Proof.
  intros uuid now st w poly sub geometry existing
         Hr Hp Hs Hg Hgo Htemp Hnf Hread Hfin Hnn saved.
  rewrite (handleSavePolygon_ready uuid now st w poly sub geometry)
    by assumption.
  rewrite Htemp. cbv zeta.
  destruct (read_directory component_polygons_json w Hnf)
    as (d & Hd & Hnf' & Hsame).
  assert (Hord : property_order (JArr existing) = true)
    by (now apply (readJsonFile_order component_polygons_json w)).
  assert (Hsaved : property_order saved = true)
    by (now apply new_record_order).
  assert (Hnew : property_order (JArr (existing ++ [saved])) = true).
  { cbn [property_order] in *. rewrite forallb_app, Hord. cbn [forallb].
    now rewrite Hsaved. }
  unfold try_block, andThen, fetch.
  rewrite (GET_polygons_read w (JArr existing)) by assumption.
  rewrite response_json_value by assumption.
  rewrite (written_finite_id _ Hfin).
  cbn [spread lift done show].
  subst saved. fold (new_record uuid now st sub geometry).
  set (saved := new_record uuid now st sub geometry) in *.
  rewrite (POST_polygons_ok _ d (JArr (existing ++ [saved]))) by assumption.
  cbn [ok status NextResponse_json negb Z.leb andb].
  rewrite filter_property_not_null.
  2:{ rewrite forallb_app, Hnn. reflexivity. }
  cbn [lift done app]. rewrite filter_app.
  split; [reflexivity|]. split; [|split].
  - unfold stored. cbn [data]. reflexivity.
  - unfold stored at 1. cbn [data]. apply (Hsame substations_json).
  - unfold closed. f_equal. f_equal. cbn [filter].
    unfold property_eq, saved, new_record, property_is, property.
    cbn [get].
    replace (jsstring_eqb (js "id") (js "substation_uuid")) with false
      by reflexivity.
    replace (jsstring_eqb (js "substation_uuid") (js "substation_uuid"))
      with true by reflexivity.
    unfold jsstring_eqb at 1.
    now destruct (list_eq_dec N.eq_dec (SubstationData.id sub)
                    (SubstationData.id sub)).
Qed.

(** ** Properties of objects *)

Lemma jsstring_eqb_neq a b : a <> b -> jsstring_eqb a b = false.
Proof.
  intros H. destruct (jsstring_eqb a b) eqn:E; [|reflexivity].
  now apply jsstring_eqb_eq in E.
Qed.

Lemma get_no_key k (o : object) : has_key k o = false -> get k o = None.
Proof.
  induction o as [|[k' v'] o IH]; [reflexivity|]. cbn.
  destruct (jsstring_eqb k' k); [discriminate | exact IH].
Qed.

Lemma get_replace_value k k' v (o : object) :
  get k' (replace_value k v o)
  = if jsstring_eqb k k' && has_key k o then Some v else get k' o.
Proof.
  induction o as [|[k0 v0] o IH]; cbn.
  - now rewrite andb_false_r.
  - destruct (jsstring_eqb k0 k) eqn:E0; cbn.
    + apply jsstring_eqb_eq in E0. subst k0.
      destruct (jsstring_eqb k k'); reflexivity.
    + rewrite IH. destruct (jsstring_eqb k k') eqn:E; cbn; [|reflexivity].
      apply jsstring_eqb_eq in E. subst k'. rewrite E0.
      destruct (has_key k o) eqn:Eh; [reflexivity|].
      now rewrite get_no_key.
Qed.

Lemma get_insert_index i k k' v (o : object) :
  has_key k o = false ->
  get k' (insert_index i k v o)
  = if jsstring_eqb k k' then Some v else get k' o.
Proof.
  induction o as [|[k0 v0] o IH]; cbn; [reflexivity|].
  intros H. destruct (jsstring_eqb k0 k) eqn:E0; [discriminate H|].
  cbn in H.
  destruct (array_index k0) as [j|]; [destruct (j <? i)%N|]; cbn;
    try reflexivity.
  rewrite (IH H). destruct (jsstring_eqb k k') eqn:E; [|reflexivity].
  apply jsstring_eqb_eq in E. subst k'. now rewrite E0.
Qed.

Lemma get_app_last k k' v (o : object) :
  has_key k o = false ->
  get k' (o ++ [(k, v)]) = if jsstring_eqb k k' then Some v else get k' o.
Proof.
  induction o as [|[k0 v0] o IH]; cbn; [reflexivity|].
  intros H. destruct (jsstring_eqb k0 k) eqn:E0; [discriminate H|].
  cbn in H. rewrite (IH H).
  destruct (jsstring_eqb k k') eqn:E; [|reflexivity].
  apply jsstring_eqb_eq in E. subst k'. now rewrite E0.
Qed.

(** Reading a property after [o[k] = v]. *)
Lemma get_set k k' v (o : object) :
  get k' (set k v o) = if jsstring_eqb k k' then Some v else get k' o.
Proof.
  unfold set. destruct (has_key k o) eqn:Eh.
  - rewrite get_replace_value, Eh. now rewrite andb_true_r.
  - destruct (array_index k); [now apply get_insert_index|].
    now apply get_app_last.
Qed.

Lemma set_order k v (o : object) :
  property_order (JObj o) = true -> property_order v = true ->
  property_order (JObj (set k v o)) = true.
Proof.
  cbn [property_order]. intros H Hv. apply andb_prop in H as [H1 H2].
  rewrite set_ordered by exact H1. cbn [andb].
  now apply (set_forallb property_order).
Qed.

Lemma set_finite k v (o : object) :
  finite_numbers (JObj o) = true -> finite_numbers v = true ->
  finite_numbers (JObj (set k v o)) = true.
Proof.
  cbn [finite_numbers]. intros H Hv. now apply (set_forallb finite_numbers).
Qed.

(** ** Finding and replacing a record *)

Lemma property_is_not_null p key s :
  not_null p = true -> property_is p key s = inr (property_eq key s p).
Proof.
  unfold property_eq, property_is, property.
  destruct p; try discriminate; intros _; try reflexivity.
  now destruct (get (js key) members) as [[]|].
Qed.

Lemma findIndex_id_skip s p l i :
  not_null p = true -> property_eq "id" s p = false ->
  findIndex_id s (p :: l) i = findIndex_id s l (S i).
Proof.
  intros Hp Hq. simpl findIndex_id.
  now rewrite (property_is_not_null p "id" s Hp), Hq.
Qed.

Lemma findIndex_id_front s front members back i :
  forallb not_null front = true ->
  forallb (fun p => negb (property_eq "id" s p)) front = true ->
  get (js "id") members = Some (JStr s) ->
  findIndex_id s (front ++ JObj members :: back) i
  = inr (Some ((i + List.length front)%nat, members)).
Proof.
  revert i. induction front as [|p front IH]; intros i Hnn Hno Hid.
  - rewrite app_nil_l. simpl findIndex_id.
    unfold property_is, property. rewrite Hid.
    rewrite jsstring_eqb_refl. cbn. now rewrite Nat.add_0_r.
  - rewrite <- app_comm_cons. simpl forallb in Hnn, Hno.
    apply andb_prop in Hnn as [Hp Hnn]. apply andb_prop in Hno as [Hq Hno].
    apply negb_true_iff in Hq.
    rewrite findIndex_id_skip, (IH (S i) Hnn Hno Hid) by assumption.
    simpl List.length. do 3 f_equal. lia.
Qed.

Lemma findIndex_id_none s l i :
  forallb not_null l = true ->
  forallb (fun p => negb (property_eq "id" s p)) l = true ->
  findIndex_id s l i = inr None.
Proof.
  revert i. induction l as [|p l IH]; intros i Hnn Hno; [reflexivity|].
  simpl forallb in Hnn, Hno.
  apply andb_prop in Hnn as [Hp Hnn]. apply andb_prop in Hno as [Hq Hno].
  apply negb_true_iff in Hq.
  rewrite findIndex_id_skip by assumption. now apply IH.
Qed.

Lemma assign_middle front (x v : json) back :
  assign (front ++ x :: back) (List.length front) v = front ++ v :: back.
Proof.
  induction front as [|p front IH]; [reflexivity|].
  rewrite <- app_comm_cons. simpl. now rewrite IH.
Qed.

(** The record that [handleSavePolygon] makes of a stored one. *)
Lemma updated_record_order st members :
  property_order (JObj members) = true ->
  property_order (JObj (updated_fields st members)) = true.
Proof.
  intros H. unfold updated_fields. apply set_order; [|reflexivity].
  apply set_order; [|now destruct (or_null _)].
  now apply set_order.
Qed.

(** ** Updating a stored polygon *)

Lemma forallb_middle {A} (P : A -> bool) front x back :
  forallb P (front ++ x :: back) = P x && forallb P (front ++ back).
Proof.
  rewrite !forallb_app. cbn [forallb].
  destruct (forallb P front), (P x), (forallb P back); reflexivity.
Qed.

(** X15: saving a polygon that is stored replaces the first record with
    its id at the same position of the list and leaves the records
    before and after it as they are.  Of the record only label,
    additional_info and annotation_by are set (to the chosen
    component, the trimmed information or null, and the annotator);
    every other property keeps its value. *)
Theorem stored_polygon_is_updated_in_place :
  forall uuid now (st : State) (w : disk) poly sub geometry
         front members back,
    ready st = true ->
    dialogPolygon st = Some poly -> selectedSubstation st = Some sub ->
    CompleteTab.geometry poly = Some geometry ->
    startsWith (id poly) (js "temp-") = false ->
    no_faults w ->
    fst (getComponentPolygons w) = inr (JArr (front ++ JObj members :: back)) ->
    finite_numbers (JArr (front ++ JObj members :: back)) = true ->
    forallb not_null (front ++ back) = true ->
    forallb (fun p => negb (property_eq "id" (id poly) p)) front = true ->
    get (js "id") members = Some (JStr (id poly)) ->
    let updated := JObj (updated_fields st members) in
    let '(out, st', w') := handleSavePolygon uuid now st w in
    out = [ request "GET" "/api/polygons";
            saved_toast "Annotation Updated" (selectedComponent st)
              (or_null (trim (dialogAdditionalInfo st))) "updated";
            request "POST" "/api/polygons" ]
    /\ stored component_polygons_json w'
       = Some (stringify2 (JArr (front ++ updated :: back)))
    /\ stored substations_json w' = stored substations_json w
    /\ st' = closed st
               (filter (property_eq "substation_uuid" (SubstationData.id sub))
                  (front ++ updated :: back))
    /\ (forall key,
          key <> js "label" -> key <> js "additional_info" ->
          key <> js "annotation_by" ->
          get key (updated_fields st members) = get key members)
    /\ get (js "label") (updated_fields st members)
       = Some (JStr (selectedComponent st))
    /\ get (js "additional_info") (updated_fields st members)
       = Some (nullable (or_null (trim (dialogAdditionalInfo st))))
    /\ get (js "annotation_by") (updated_fields st members)
       = Some (JStr (annotatorName st)).
Proof.
  intros uuid now st w poly sub geometry front members back
         Hr Hp Hs Hg Htemp Hnf Hread Hfin Hnn Hfirst Hid updated.
  rewrite (handleSavePolygon_ready uuid now st w poly sub geometry)
    by assumption.
  rewrite Htemp. cbv zeta.
  destruct (read_directory component_polygons_json w Hnf)
    as (d & Hd & Hnf' & Hsame).
  assert (Hord : property_order (JArr (front ++ JObj members :: back)) = true)
    by (now apply (readJsonFile_order component_polygons_json w)).
  assert (Hparts : property_order (JObj members) = true
                   /\ forallb property_order (front ++ back) = true).
  { cbn [property_order] in Hord. rewrite forallb_middle in Hord.
    now apply andb_prop in Hord. }
  destruct Hparts as [Hm Hrest].
  assert (Hup : property_order updated = true)
    by (now apply updated_record_order).
  assert (Hnew : property_order (JArr (front ++ updated :: back)) = true).
  { cbn [property_order]. rewrite forallb_middle. now rewrite Hup, Hrest. }
  assert (Hfront : forallb not_null front = true).
  { rewrite forallb_app in Hnn. now apply andb_prop in Hnn. }
  unfold try_block, andThen, fetch.
  rewrite (GET_polygons_read w _ Hread).
  rewrite response_json_value by assumption.
  rewrite (written_finite_id _ Hfin).
  rewrite (findIndex_id_front _ front members back 0) by assumption.
  cbn [lift done show Nat.add]. rewrite assign_middle.
  fold (updated_fields st members). fold updated.
  rewrite (POST_polygons_ok _ d (JArr (front ++ updated :: back)))
    by assumption.
  cbn [ok status NextResponse_json negb Z.leb andb].
  rewrite filter_property_not_null.
  2:{ rewrite forallb_middle, Hnn. reflexivity. }
  cbn [lift done app].
  split; [reflexivity|]. split; [|split; [|split]].
  - unfold stored. cbn [data]. reflexivity.
  - unfold stored at 1. cbn [data]. apply (Hsame substations_json).
  - reflexivity.
  - unfold updated_fields. repeat split.
    + intros key H1 H2 H3. rewrite !get_set.
      rewrite !jsstring_eqb_neq by congruence. reflexivity.
    + rewrite !get_set. reflexivity.
    + rewrite !get_set. reflexivity.
    + rewrite get_set. reflexivity.
Qed.

(** ** Failures *)

(** X16: saving a polygon whose id is not a temp id and that no stored
    record has sends no POST: the update fails with Polygon to update
    not found in file, shown by the Update Failed toast, and the
    files and the state of the tab are unchanged. *)
Theorem unknown_polygon_is_not_saved :
  forall uuid now (st : State) (w : disk) poly sub geometry existing,
    ready st = true ->
    dialogPolygon st = Some poly -> selectedSubstation st = Some sub ->
    CompleteTab.geometry poly = Some geometry ->
    startsWith (id poly) (js "temp-") = false ->
    fst (getComponentPolygons w) = inr (JArr existing) ->
    finite_numbers (JArr existing) = true ->
    forallb not_null existing = true ->
    forallb (fun p => negb (property_eq "id" (id poly) p)) existing = true ->
    let '(out, st', w') := handleSavePolygon uuid now st w in
    out = request "GET" "/api/polygons"
          :: failure false (Error (js "Polygon to update not found in file."))
    /\ st' = st
    /\ (forall f, stored f w' = stored f w).
Proof.
  intros uuid now st w poly sub geometry existing
         Hr Hp Hs Hg Htemp Hread Hfin Hnn Hno.
  rewrite (handleSavePolygon_ready uuid now st w poly sub geometry)
    by assumption.
  rewrite Htemp. cbv zeta.
  assert (Hord : property_order (JArr existing) = true)
    by (now apply (readJsonFile_order component_polygons_json w)).
  unfold try_block, andThen, fetch.
  rewrite (GET_polygons_read w _ Hread).
  rewrite response_json_value by assumption.
  rewrite (written_finite_id _ Hfin).
  rewrite findIndex_id_none by assumption.
  cbn [lift done raise app].
  split; [reflexivity|]. split; [reflexivity|].
  intros f. apply readJsonFile_frame.
Qed.

(** A POST whose write throws. *)
Lemma POST_polygons_thrown w v e :
  property_order v = true ->
  fst (write_steps component_polygons_json v w) = inl e ->
  Polygons.POST (mkRequest (Some (stringify v))) w
  = (inr (NextResponse_json (message "Error writing polygons file") 500),
     snd (write_steps component_polygons_json v w)).
Proof.
  intros Hord He. rewrite POST_polygons_answer.
  unfold request_value. cbn [text]. unfold stringify.
  rewrite parse_serialize_written by (assumption || reflexivity).
  change (writeComponentPolygons (written v))
    with (write_steps component_polygons_json (written v)).
  assert (E : write_steps component_polygons_json (written v) w
              = write_steps component_polygons_json v w).
  { unfold write_steps, stringify2. now rewrite serialize_written. }
  rewrite E.
  destruct (write_steps component_polygons_json v w) as [[e'|[]] w'];
    [reflexivity | discriminate He].
Qed.

Lemma readJsonFile_cut f w : cut (snd (readJsonFile f w)) = cut w.
Proof. rewrite readJsonFile_disk. apply ensureDataDir_cut. Qed.

(** The save of a new polygon up to its POST, which is answered
    500. *)
Lemma save_with_failed_POST uuid now st w poly sub geometry existing e :
  ready st = true ->
  dialogPolygon st = Some poly -> selectedSubstation st = Some sub ->
  CompleteTab.geometry poly = Some geometry ->
  property_order (JObj geometry) = true ->
  startsWith (id poly) (js "temp-") = true ->
  fst (getComponentPolygons w) = inr (JArr existing) ->
  finite_numbers (JArr existing) = true ->
  let posted := JArr (existing ++ [new_record uuid now st sub geometry]) in
  let w0 := snd (readJsonFile component_polygons_json w) in
  fst (write_steps component_polygons_json posted w0) = inl e ->
  handleSavePolygon uuid now st w
  = ([ request "GET" "/api/polygons";
       saved_toast "Annotation Saved" (selectedComponent st)
         (or_null (trim (dialogAdditionalInfo st))) "added";
       request "POST" "/api/polygons" ]
       ++ failure true (Error (js "Failed to save polygons")),
     st, snd (write_steps component_polygons_json posted w0)).
Proof.
  intros Hr Hp Hs Hg Hgo Htemp Hread Hfin posted w0 He.
  rewrite (handleSavePolygon_ready uuid now st w poly sub geometry)
    by assumption.
  rewrite Htemp. cbv zeta.
  assert (Hord : property_order (JArr existing) = true)
    by (now apply (readJsonFile_order component_polygons_json w)).
  assert (Hsaved : property_order (new_record uuid now st sub geometry) = true)
    by (now apply new_record_order).
  assert (Hnew : property_order posted = true).
  { unfold posted. cbn [property_order] in *.
    rewrite forallb_app, Hord. cbn [forallb]. now rewrite Hsaved. }
  unfold try_block, andThen, fetch.
  rewrite (GET_polygons_read w _ Hread).
  rewrite response_json_value by assumption.
  rewrite (written_finite_id _ Hfin).
  cbn [spread lift done show].
  fold (new_record uuid now st sub geometry). fold posted. fold w0.
  rewrite (POST_polygons_thrown w0 posted e Hnew He).
  cbn [ok status NextResponse_json negb Z.leb andb raise app].
  reflexivity.
Qed.

(** X17: when the write of the polygons file fails, the POST is answered
    500 and handleSavePolygon shows Save Failed with Failed to save
    polygons, after the Annotation Saved toast that it has shown
    before the POST, and the dialog stays open.  When the file
    could not be opened no file is changed.  When the write failed
    after the file was opened, the polygons that were stored are
    lost: the file holds only the part of the new list that was
    written before the failure. *)
Theorem failed_POST_leaves_dialog_open :
  forall uuid now (st : State) (w : disk) poly sub geometry existing c,
    ready st = true ->
    dialogPolygon st = Some poly -> selectedSubstation st = Some sub ->
    CompleteTab.geometry poly = Some geometry ->
    property_order (JObj geometry) = true ->
    startsWith (id poly) (js "temp-") = true ->
    fst (getComponentPolygons w) = inr (JArr existing) ->
    finite_numbers (JArr existing) = true ->
    let saved := new_record uuid now st sub geometry in
    let shown :=
      [ request "GET" "/api/polygons";
        saved_toast "Annotation Saved" (selectedComponent st)
          (or_null (trim (dialogAdditionalInfo st))) "added";
        request "POST" "/api/polygons" ]
        ++ failure true (Error (js "Failed to save polygons")) in
    let '(out, st', w') := handleSavePolygon uuid now st w in
    (fault w (open_file component_polygons_json) = Some c ->
     out = shown /\ st' = st /\ (forall f, stored f w' = stored f w))
    /\ (fst (ensureDataDir w) = inr tt ->
        fault w (open_file component_polygons_json) = None ->
        fault w (write_file component_polygons_json) = Some c ->
        out = shown /\ st' = st
        /\ stored substations_json w' = stored substations_json w
        /\ stored component_polygons_json w'
           = Some (firstn (cut w)
                     (stringify2 (JArr (existing ++ [saved]))))).
Proof.
  intros uuid now st w poly sub geometry existing c
         Hr Hp Hs Hg Hgo Htemp Hread Hfin saved shown.
  set (posted := JArr (existing ++ [saved])).
  set (w0 := snd (readJsonFile component_polygons_json w)).
  destruct (readJsonFile_frame component_polygons_json w) as [Hflt Hst].
  pose proof (readJsonFile_cut component_polygons_json w) as Hcut.
  fold w0 in Hflt, Hst, Hcut.
  destruct (write_steps_frame component_polygons_json posted w0)
    as (_ & Hother & _ & Hbefore & Hwhile).
  assert (Hopen :
            fault w (open_file component_polygons_json) = Some c ->
            handleSavePolygon uuid now st w = (shown, st, snd (write_steps component_polygons_json posted w0))
            /\ forall f, stored f (snd (write_steps component_polygons_json posted w0)) = stored f w).
  { intros Ho.
    assert (Hno : fault w0 (open_file component_polygons_json) <> None)
      by (rewrite Hflt, Ho; discriminate).
    assert (He : exists e,
               fst (write_steps component_polygons_json posted w0) = inl e).
    { destruct (fst (write_steps component_polygons_json posted w0))
        as [e|[]] eqn:E; [now exists e|].
      apply write_steps_succeeds in E. now destruct E as (_ & E & _). }
    destruct He as [e He]. split.
    - now apply (save_with_failed_POST uuid now st w poly sub geometry
                   existing e).
    - intros f. rewrite (Hbefore e He) by (now right). apply Hst. }
  assert (Hwrite :
            fst (ensureDataDir w) = inr tt ->
            fault w (open_file component_polygons_json) = None ->
            fault w (write_file component_polygons_json) = Some c ->
            handleSavePolygon uuid now st w = (shown, st, snd (write_steps component_polygons_json posted w0))
            /\ stored substations_json (snd (write_steps component_polygons_json posted w0)) = stored substations_json w
            /\ stored component_polygons_json (snd (write_steps component_polygons_json posted w0))
               = Some (firstn (cut w) (stringify2 posted))).
  { intros Hdir Ho Hw.
    assert (Hdir0 : fst (ensureDataDir w0) = inr tt).
    { unfold w0. rewrite readJsonFile_disk.
      now rewrite (ensureDataDir_again w Hdir). }
    destruct (Hwhile c Hdir0) as [He Hleft];
      [now rewrite Hflt | now rewrite Hflt |].
    split; [|split].
    - now apply (save_with_failed_POST uuid now st w poly sub geometry
                   existing (ErrnoException c)).
    - rewrite Hother by discriminate. apply Hst.
    - now rewrite Hleft, Hcut. }
  destruct (handleSavePolygon uuid now st w) as [[out st'] w'].
  split.
  - intros Ho. destruct (Hopen Ho) as [[= -> -> ->] Hsame]. now repeat split.
  - intros Hdir Ho Hw.
    destruct (Hwrite Hdir Ho Hw) as ([= -> -> ->] & H1 & H2).
    now repeat split.
Qed.

Lemma filter_property_null key s l :
  In JNull l -> filter_property key s l = inl TypeError.
Proof.
  induction l as [|p l IH]; [contradiction|].
  intros [->|H]; [reflexivity|].
  simpl filter_property. rewrite (IH H).
  destruct (property_is p key s) as [e|b] eqn:E; [|reflexivity].
  destruct p; cbn in E; try discriminate E; try (now injection E as <-).
  unfold property_is, property in E.
  destruct (get (js key) members) as [[]|]; discriminate E.
Qed.

(** X18: when the stored list holds null, a new polygon is stored (the
    POST succeeds and the file holds the old list with the new
    record) and the refresh of the shown polygons then throws on the
    null: the handler shows Save Failed and leaves the dialog open
    although the polygon has been saved. *)
Theorem null_record_makes_a_stored_save_look_failed :
  forall uuid now (st : State) (w : disk) poly sub geometry existing,
    ready st = true ->
    dialogPolygon st = Some poly -> selectedSubstation st = Some sub ->
    CompleteTab.geometry poly = Some geometry ->
    property_order (JObj geometry) = true ->
    startsWith (id poly) (js "temp-") = true ->
    no_faults w ->
    fst (getComponentPolygons w) = inr (JArr existing) ->
    finite_numbers (JArr existing) = true ->
    In JNull existing ->
    let saved := new_record uuid now st sub geometry in
    let '(out, st', w') := handleSavePolygon uuid now st w in
    out = [ request "GET" "/api/polygons";
            saved_toast "Annotation Saved" (selectedComponent st)
              (or_null (trim (dialogAdditionalInfo st))) "added";
            request "POST" "/api/polygons" ]
          ++ failure true TypeError
    /\ st' = st
    /\ stored component_polygons_json w'
       = Some (stringify2 (JArr (existing ++ [saved]))).
Proof.
  intros uuid now st w poly sub geometry existing
         Hr Hp Hs Hg Hgo Htemp Hnf Hread Hfin Hnull saved.
  rewrite (handleSavePolygon_ready uuid now st w poly sub geometry)
    by assumption.
  rewrite Htemp. cbv zeta.
  destruct (read_directory component_polygons_json w Hnf)
    as (d & Hd & Hnf' & Hsame).
  assert (Hord : property_order (JArr existing) = true)
    by (now apply (readJsonFile_order component_polygons_json w)).
  assert (Hsaved : property_order saved = true)
    by (now apply new_record_order).
  assert (Hnew : property_order (JArr (existing ++ [saved])) = true).
  { cbn [property_order] in *. rewrite forallb_app, Hord. cbn [forallb].
    now rewrite Hsaved. }
  unfold try_block, andThen, fetch.
  rewrite (GET_polygons_read w (JArr existing)) by assumption.
  rewrite response_json_value by assumption.
  rewrite (written_finite_id _ Hfin).
  cbn [spread lift done show].
  subst saved. fold (new_record uuid now st sub geometry).
  set (saved := new_record uuid now st sub geometry) in *.
  rewrite (POST_polygons_ok _ d (JArr (existing ++ [saved]))) by assumption.
  cbn [ok status NextResponse_json negb Z.leb andb].
  rewrite filter_property_null by (apply in_or_app; now left).
  cbn [lift raise app].
  split; [reflexivity|]. split; [reflexivity|].
  unfold stored. cbn [data]. reflexivity.
Qed.

(** ** What a save never does *)

Lemma requests_app a b : requests (a ++ b) = requests a ++ requests b.
Proof. apply filter_app. Qed.

Lemma requests_failure isTemp e : requests (failure isTemp e) = [].
Proof. reflexivity. Qed.

Lemma requests_In x out : In x (requests out) -> In x out.
Proof. unfold requests. intros H. now apply filter_In in H. Qed.

(** The [try] block asks for the polygons and then, at most once,
    posts a list. *)
Lemma try_block_requests uuid now st sub poly geometry isTemp w :
  let '(r, w', out) := try_block uuid now st sub poly geometry isTemp w [] in
  (requests out = [request "GET" "/api/polygons"]
   /\ w' = snd (Polygons.GET w) /\ exists e, r = inl e)
  \/ (exists body,
         requests out = [request "GET" "/api/polygons";
                         request "POST" "/api/polygons"]
         /\ w' = snd (Polygons.POST body (snd (Polygons.GET w)))).
Proof.
  unfold try_block, andThen, fetch.
  destruct (Polygons.GET w) as [[e|r] w0]; cbn [snd].
  { left. repeat split. now exists e. }
  unfold response_json. destruct (parse (body r)) as [v|]; cbn [done raise].
  2:{ left. repeat split. now eexists. }
  destruct isTemp.
  - destruct (spread v) as [e|l]; cbn [lift done raise show].
    { left. repeat split. now eexists. }
    match goal with
    | |- context [Polygons.POST ?b w0] =>
        destruct (Polygons.POST b w0) as [[e|pr] w1] eqn:E
    end.
    + cbn [snd]. right. eexists. rewrite E. split; reflexivity.
    + cbn [snd].
      destruct (negb (ok pr)); cbn [raise];
        [right; eexists; rewrite E; split; reflexivity|].
      match goal with
      | |- context [filter_property ?k ?i ?l] =>
          destruct (filter_property k i l)
      end; cbn [lift done raise]; right; eexists; rewrite E;
        split; reflexivity.
  - destruct v; cbn [raise]; try (left; repeat split; now eexists).
    destruct (findIndex_id (id poly) elements 0) as [e|[[i m]|]];
      cbn [lift done raise show];
      try (left; repeat split; now eexists).
    match goal with
    | |- context [Polygons.POST ?b w0] =>
        destruct (Polygons.POST b w0) as [[e|pr] w1] eqn:E
    end.
    + cbn [snd]. right. eexists. rewrite E. split; reflexivity.
    + cbn [snd].
      destruct (negb (ok pr)); cbn [raise];
        [right; eexists; rewrite E; split; reflexivity|].
      match goal with
      | |- context [filter_property ?k ?i ?l] =>
          destruct (filter_property k i l)
      end; cbn [lift done raise]; right; eexists; rewrite E;
        split; reflexivity.
Qed.

(** The state changes only when the [try] block ends well. *)
Lemma handleSavePolygon_cases uuid now st w :
  handleSavePolygon uuid now st w
  = if ready st then
      match dialogPolygon st, selectedSubstation st with
      | Some poly, Some sub =>
          match geometry poly with
          | Some geometry =>
              let isTemp := startsWith (id poly) (js "temp-") in
              match try_block uuid now st sub poly geometry isTemp w [] with
              | (inr st', w', out) => (out, st', w')
              | (inl error, w', out) => (out ++ failure isTemp error, st, w')
              end
          | None => ([], st, w)
          end
      | _, _ => ([], st, w)
      end
    else (fst (fst (handleSavePolygon uuid now st w)), st, w).
Proof.
  unfold handleSavePolygon, ready.
  destruct (dialogPolygon st) as [poly|]; [|reflexivity].
  destruct (selectedSubstation st) as [sub|]; [|reflexivity].
  destruct (is_empty (selectedComponent st)); [reflexivity|].
  destruct (jsstring_eqb (selectedComponent st) (js "Other")
            && is_empty (trim (dialogAdditionalInfo st))); [reflexivity|].
  destruct (is_empty (annotatorName st)); [reflexivity|].
  destruct (geometry poly); reflexivity.
Qed.

Lemma handleSavePolygon_not_ready uuid now st w :
  ready st = false ->
  requests (fst (fst (handleSavePolygon uuid now st w))) = []
  /\ (List.length (fst (fst (handleSavePolygon uuid now st w))) <= 1)%nat.
Proof.
  assert (Hnone : requests (@nil effect) = [] /\ (@List.length effect [] <= 1)%nat)
    by (split; [reflexivity | cbn; lia]).
  assert (Hone : forall t d,
             requests [destructive t d] = []
             /\ (List.length [destructive t d] <= 1)%nat)
    by (intros; split; [reflexivity | cbn; lia]).
  unfold handleSavePolygon, ready.
  destruct (dialogPolygon st) as [poly|]; [|intros _; exact Hnone].
  destruct (selectedSubstation st) as [sub|]; [|intros _; exact Hnone].
  destruct (is_empty (selectedComponent st)); [intros _; apply Hone|].
  destruct (jsstring_eqb (selectedComponent st) (js "Other")
            && is_empty (trim (dialogAdditionalInfo st)));
    [intros _; apply Hone|].
  destruct (is_empty (annotatorName st)); [intros _; apply Hone|].
  destruct (geometry poly); [discriminate | intros _; apply Hone].
Qed.

(** X13: whatever the dialog and the disk are, handleSavePolygon never
    changes the substations file or the faults of the medium, it
    sends nothing, one GET, or one GET followed by one POST to
    /api/polygons, and when it has sent no POST the polygons file and
    the state of the tab are unchanged. *)
Theorem save_writes_only_through_its_POST :
  forall uuid now (st : State) (w : disk),
    let '(out, st', w') := handleSavePolygon uuid now st w in
    stored substations_json w' = stored substations_json w
    /\ fault w' = fault w
    /\ (requests out = []
        \/ requests out = [request "GET" "/api/polygons"]
        \/ requests out = [request "GET" "/api/polygons";
                           request "POST" "/api/polygons"])
    /\ (~ In (request "POST" "/api/polygons") out ->
        st' = st
        /\ stored component_polygons_json w'
           = stored component_polygons_json w).
Proof.
  intros uuid now st w. rewrite handleSavePolygon_cases.
  destruct (ready st) eqn:Hr.
  2:{ destruct (handleSavePolygon_not_ready uuid now st w Hr) as [H _].
      repeat split; auto. }
  destruct (dialogPolygon st) as [poly|]; [|repeat split; auto].
  destruct (selectedSubstation st) as [sub|]; [|repeat split; auto].
  destruct (geometry poly) as [geometry|]; [|repeat split; auto].
  cbv zeta.
  pose proof (try_block_requests uuid now st sub poly geometry
                (startsWith (id poly) (js "temp-")) w) as Hshape.
  destruct (try_block uuid now st sub poly geometry
              (startsWith (id poly) (js "temp-")) w [])
    as [[r w'] out].
  assert (Hreq : forall e,
             requests (out ++ failure (startsWith (id poly) (js "temp-")) e)
             = requests out).
  { intros e. now rewrite requests_app, requests_failure, app_nil_r. }
  destruct Hshape as [(Hout & -> & e & ->)|(body & Hout & ->)].
  - rewrite Hreq, Hout, GET_polygons_disk.
    destruct (readJsonFile_frame component_polygons_json w) as [Hflt Hst].
    split; [apply Hst|]. split; [exact Hflt|].
    split; [right; now left|]. intros _. split; [reflexivity | apply Hst].
  - assert (Hsub : stored substations_json
                     (snd (Polygons.POST body (snd (Polygons.GET w))))
                   = stored substations_json w
                   /\ fault (snd (Polygons.POST body (snd (Polygons.GET w))))
                      = fault w).
    { rewrite POST_polygons_disk, GET_polygons_disk.
      destruct (readJsonFile_frame component_polygons_json w) as [Hflt Hst].
      destruct (request_value body) as [v|]; [|split; [apply Hst | exact Hflt]].
      destruct (write_steps_frame component_polygons_json v
                  (snd (readJsonFile component_polygons_json w)))
        as (Hflt' & Hother & _).
      split.
      - rewrite Hother by discriminate. apply Hst.
      - now rewrite Hflt'. }
    destruct Hsub as [Hsub Hflt].
    assert (Hin : In (request "POST" "/api/polygons") out).
    { apply requests_In. rewrite Hout. right. now left. }
    destruct r as [e|st'].
    + rewrite Hreq, Hout. split; [exact Hsub|]. split; [exact Hflt|].
      split; [now right; right|].
      intros Hno. exfalso. apply Hno. apply in_or_app. now left.
    + rewrite Hout. split; [exact Hsub|]. split; [exact Hflt|].
      split; [now right; right|].
      intros Hno. now destruct Hno.
Qed.

Lemma try_block_first uuid now st sub poly geometry isTemp w :
  exists rest,
    snd (try_block uuid now st sub poly geometry isTemp w [])
    = request "GET" "/api/polygons" :: rest.
Proof.
  unfold try_block, andThen, fetch.
  destruct (Polygons.GET w) as [[e|r] w0].
  { eexists. reflexivity. }
  unfold response_json. destruct (parse (body r)) as [v|]; cbn [done raise].
  2:{ eexists. reflexivity. }
  destruct isTemp.
  - destruct (spread v) as [e|l]; cbn [lift done raise show].
    { eexists. reflexivity. }
    match goal with
    | |- context [Polygons.POST ?b w0] =>
        destruct (Polygons.POST b w0) as [[e|pr] w1]
    end.
    + eexists. reflexivity.
    + destruct (negb (ok pr)); cbn [raise]; [eexists; reflexivity|].
      match goal with
      | |- context [filter_property ?k ?i ?l] =>
          destruct (filter_property k i l)
      end; cbn [lift done raise]; eexists; reflexivity.
  - destruct v; cbn [raise]; try (eexists; reflexivity).
    destruct (findIndex_id (id poly) elements 0) as [e|[[i m]|]];
      cbn [lift done raise show];
      try (eexists; reflexivity).
    match goal with
    | |- context [Polygons.POST ?b w0] =>
        destruct (Polygons.POST b w0) as [[e|pr] w1]
    end.
    + eexists. reflexivity.
    + destruct (negb (ok pr)); cbn [raise]; [eexists; reflexivity|].
      match goal with
      | |- context [filter_property ?k ?i ?l] =>
          destruct (filter_property k i l)
      end; cbn [lift done raise]; eexists; reflexivity.
Qed.

(** X12: handleSavePolygon sends a request only when the dialog passes
    its four checks (a polygon and a substation are selected, a
    component is chosen, Other comes with additional information,
    the annotator has a name, the polygon has a geometry).  When a
    check fails it sends nothing, shows at most one toast and leaves
    the state and the disk as they are; when all pass, the first
    thing it does is GET /api/polygons. *)
Theorem save_asks_the_server_only_when_the_dialog_is_complete :
  forall uuid now (st : State) (w : disk),
    let '(out, st', w') := handleSavePolygon uuid now st w in
    (ready st = false ->
     requests out = [] /\ (List.length out <= 1)%nat /\ st' = st /\ w' = w)
    /\ (ready st = true ->
        exists rest, out = request "GET" "/api/polygons" :: rest).
Proof.
  intros uuid now st w. rewrite handleSavePolygon_cases.
  destruct (ready st) eqn:Hr.
  2:{ destruct (handleSavePolygon_not_ready uuid now st w Hr) as [H1 H2].
      split; [now intros _ | discriminate]. }
  destruct (ready_parts st Hr) as (poly & sub & geometry & -> & -> & Hg & _).
  rewrite Hg. cbv zeta.
  destruct (try_block_first uuid now st sub poly geometry
              (startsWith (id poly) (js "temp-")) w) as [rest Hrest].
  destruct (try_block uuid now st sub poly geometry
              (startsWith (id poly) (js "temp-")) w [])
    as [[[e|st'] w'] out]; cbn [snd] in Hrest; subst out;
    (split; [discriminate|]); intros _; eexists;
    try rewrite <- app_comm_cons; reflexivity.
Qed.

End WithNumbers.

(** ** Examples, with integer numbers *)

Import IntegerNumbers IntegerNumbersProofs Examples MoreExamples DialogExamples.

Ltac by_evaluation := first [reflexivity | exact I].

Lemma drawn_polygon_is_appended_witness :
  let saved :=
    new_record (js "0b6e") (js "2024-02-02T00:00:00Z") drawing_fuse
      substation_s1 square in
  let '(out, st', w') :=
    handleSavePolygon (js "0b6e") (js "2024-02-02T00:00:00Z")
      drawing_fuse one_polygon_stored in
  out = [ request "GET" "/api/polygons";
          saved_toast "Annotation Saved" (selectedComponent drawing_fuse)
            (or_null (trim (dialogAdditionalInfo drawing_fuse))) "added";
          request "POST" "/api/polygons" ]
  /\ stored component_polygons_json w' = Some (stringify2 (JArr ([p1] ++ [saved])))
  /\ stored substations_json w' = stored substations_json one_polygon_stored
  /\ st' = closed drawing_fuse
             (filter (property_eq "substation_uuid" (SubstationData.id substation_s1))
                [p1] ++ [saved]).
Proof.
  assert (H1 : ready drawing_fuse = true) by by_evaluation.
  assert (H2 : startsWith (js "temp-1700000000000") (js "temp-") = true)
    by by_evaluation.
  assert (H3 : no_faults one_polygon_stored) by (now apply quiet_no_faults).
  assert (H4 : fst (getComponentPolygons one_polygon_stored) = inr (JArr [p1]))
    by by_evaluation.
  assert (H5 : finite_numbers (JArr [p1]) = true) by by_evaluation.
  assert (H6 : forallb not_null [p1] = true) by by_evaluation.
  assert (H7 : property_order (JObj square) = true) by by_evaluation.
  exact (drawn_polygon_is_appended
           (js "0b6e") (js "2024-02-02T00:00:00Z") drawing_fuse
           one_polygon_stored _ substation_s1 square [p1]
           H1 eq_refl eq_refl eq_refl H7 H2 H3 H4 H5 H6).
Defined.

Lemma stored_polygon_is_updated_in_place_witness :
  let '(out, st', w') :=
    handleSavePolygon (js "0b6e") (js "2024-02-02T00:00:00Z")
      editing_p1 one_polygon_stored in
  stored component_polygons_json w'
  = Some (stringify2
            (JArr [JObj [ (js "id", JStr (js "p1"));
                          (js "substation_uuid", JStr (js "s1"));
                          (js "label", JStr (js "Other"));
                          (js "from_osm", JBool false);
                          (js "additional_info", JStr (js "spare part"));
                          (js "annotation_by", JStr (js "Ann")) ]])).
Proof.
  assert (H1 : ready editing_p1 = true) by by_evaluation.
  assert (H2 : startsWith (js "p1") (js "temp-") = false) by by_evaluation.
  assert (H3 : no_faults one_polygon_stored) by (now apply quiet_no_faults).
  assert (H4 : fst (getComponentPolygons one_polygon_stored)
               = inr (JArr ([] ++ p1 :: []))) by by_evaluation.
  assert (H5 : finite_numbers (JArr ([] ++ p1 :: [])) = true) by by_evaluation.
  pose proof (stored_polygon_is_updated_in_place
                (js "0b6e") (js "2024-02-02T00:00:00Z") editing_p1
                one_polygon_stored _ substation_s1 square [] _ []
                H1 eq_refl eq_refl eq_refl H2 H3 H4 H5
                eq_refl eq_refl eq_refl) as H.
  destruct (handleSavePolygon (js "0b6e") (js "2024-02-02T00:00:00Z")
              editing_p1 one_polygon_stored) as [[out st'] w'].
  destruct H as (_ & H & _). rewrite H. reflexivity.
Defined.

Lemma unknown_polygon_is_not_saved_witness :
  let '(out, st', w') :=
    handleSavePolygon (js "0b6e") (js "2024-02-02T00:00:00Z")
      editing_p9 one_polygon_stored in
  out = request "GET" "/api/polygons"
        :: failure false (Error (js "Polygon to update not found in file."))
  /\ st' = editing_p9
  /\ (forall f, stored f w' = stored f one_polygon_stored).
Proof.
  assert (H1 : ready editing_p9 = true) by by_evaluation.
  assert (H2 : startsWith (js "p9") (js "temp-") = false) by by_evaluation.
  assert (H4 : fst (getComponentPolygons one_polygon_stored) = inr (JArr [p1]))
    by by_evaluation.
  assert (H5 : finite_numbers (JArr [p1]) = true) by by_evaluation.
  assert (H6 : forallb not_null [p1] = true) by by_evaluation.
  assert (H7 : forallb (fun p => negb (property_eq "id" (js "p9") p)) [p1] = true)
    by by_evaluation.
  exact (unknown_polygon_is_not_saved
           (js "0b6e") (js "2024-02-02T00:00:00Z") editing_p9
           one_polygon_stored _ substation_s1 square [p1]
           H1 eq_refl eq_refl eq_refl H2 H4 H5 H6 H7).
Defined.

Lemma failed_POST_leaves_dialog_open_witness :
  (let '(out, st', w') :=
     handleSavePolygon (js "0b6e") (js "2024-02-02T00:00:00Z")
       drawing_fuse locked_files in
   st' = drawing_fuse
   /\ stored component_polygons_json w' = Some (stringify2 one_polygon))
  /\ (let '(out, st', w') :=
        handleSavePolygon (js "0b6e") (js "2024-02-02T00:00:00Z")
          drawing_fuse filling_disk in
      st' = drawing_fuse
      /\ stored component_polygons_json w' = Some (js "[")).
Proof.
  assert (H1 : ready drawing_fuse = true) by by_evaluation.
  assert (H2 : startsWith (js "temp-1700000000000") (js "temp-") = true)
    by by_evaluation.
  assert (H4 : fst (getComponentPolygons locked_files) = inr (JArr [p1]))
    by by_evaluation.
  assert (H4' : fst (getComponentPolygons filling_disk) = inr (JArr [p1]))
    by by_evaluation.
  assert (H5 : finite_numbers (JArr [p1]) = true) by by_evaluation.
  assert (H7 : property_order (JObj square) = true) by by_evaluation.
  pose proof (failed_POST_leaves_dialog_open
                (js "0b6e") (js "2024-02-02T00:00:00Z") drawing_fuse
                locked_files _ substation_s1 square [p1] "EACCES"
                H1 eq_refl eq_refl eq_refl H7 H2 H4 H5) as Hlocked.
  pose proof (failed_POST_leaves_dialog_open
                (js "0b6e") (js "2024-02-02T00:00:00Z") drawing_fuse
                filling_disk _ substation_s1 square [p1] "ENOSPC"
                H1 eq_refl eq_refl eq_refl H7 H2 H4' H5) as Hfilling.
  cbv zeta in Hlocked, Hfilling.
  split.
  - destruct (handleSavePolygon (js "0b6e") (js "2024-02-02T00:00:00Z")
                drawing_fuse locked_files) as [[out st'] w'].
    destruct Hlocked as [H _]. destruct (H eq_refl) as (_ & Hst & Hf).
    split; [exact Hst|]. rewrite Hf. reflexivity.
  - destruct (handleSavePolygon (js "0b6e") (js "2024-02-02T00:00:00Z")
                drawing_fuse filling_disk) as [[out st'] w'].
    destruct Hfilling as [_ H].
    destruct (H eq_refl eq_refl eq_refl) as (_ & Hst & _ & Hf).
    split; [exact Hst|]. rewrite Hf. reflexivity.
Defined.

Lemma null_record_makes_a_stored_save_look_failed_witness :
  let saved :=
    new_record (js "0b6e") (js "2024-02-02T00:00:00Z") drawing_fuse
      substation_s1 square in
  let '(out, st', w') :=
    handleSavePolygon (js "0b6e") (js "2024-02-02T00:00:00Z")
      drawing_fuse null_record_stored in
  out = [ request "GET" "/api/polygons";
          saved_toast "Annotation Saved" (selectedComponent drawing_fuse)
            (or_null (trim (dialogAdditionalInfo drawing_fuse))) "added";
          request "POST" "/api/polygons" ]
        ++ failure true TypeError
  /\ st' = drawing_fuse
  /\ stored component_polygons_json w'
     = Some (stringify2 (JArr ([JNull] ++ [saved]))).
Proof.
  assert (H1 : ready drawing_fuse = true) by by_evaluation.
  assert (H2 : startsWith (js "temp-1700000000000") (js "temp-") = true)
    by by_evaluation.
  assert (H3 : no_faults null_record_stored) by (now apply quiet_no_faults).
  assert (H4 : fst (getComponentPolygons null_record_stored) = inr (JArr [JNull]))
    by by_evaluation.
  assert (H5 : finite_numbers (JArr [JNull]) = true) by by_evaluation.
  assert (H6 : In JNull [JNull]) by (now left).
  assert (H7 : property_order (JObj square) = true) by by_evaluation.
  exact (null_record_makes_a_stored_save_look_failed
           (js "0b6e") (js "2024-02-02T00:00:00Z") drawing_fuse
           null_record_stored _ substation_s1 square [JNull]
           H1 eq_refl eq_refl eq_refl H7 H2 H3 H4 H5 H6).
Defined.

Lemma save_asks_the_server_only_when_the_dialog_is_complete_witness :
  let '(out, st', w') :=
    handleSavePolygon (js "0b6e") (js "2024-02-02T00:00:00Z")
      drawing_other_blank one_polygon_stored in
  requests out = [] /\ (List.length out <= 1)%nat
  /\ st' = drawing_other_blank /\ w' = one_polygon_stored.
Proof.
  pose proof (save_asks_the_server_only_when_the_dialog_is_complete
                (js "0b6e") (js "2024-02-02T00:00:00Z")
                drawing_other_blank one_polygon_stored) as H.
  destruct (handleSavePolygon (js "0b6e") (js "2024-02-02T00:00:00Z")
              drawing_other_blank one_polygon_stored) as [[out st'] w'].
  destruct H as [H _]. apply H. reflexivity.
Defined.

Lemma save_writes_only_through_its_POST_witness :
  let r := handleSavePolygon (js "0b6e") (js "2024-02-02T00:00:00Z")
             editing_p9 one_polygon_stored in
  snd (fst r) = editing_p9
  /\ stored component_polygons_json (snd r)
     = stored component_polygons_json one_polygon_stored.
Proof.
  intros r.
  assert (Hout : fst (fst r)
                 = request "GET" "/api/polygons"
                   :: failure false
                        (Error (js "Polygon to update not found in file.")))
    by by_evaluation.
  pose proof (save_writes_only_through_its_POST
                (js "0b6e") (js "2024-02-02T00:00:00Z")
                editing_p9 one_polygon_stored) as H.
  fold r in H. destruct r as [[out st'] w']. cbn [fst snd] in *.
  destruct H as (_ & _ & _ & H). apply H. rewrite Hout.
  intros [E|[E|[E|[]]]]; discriminate E.
Defined.

End CompleteTabMore.
(* ================================================================== *)
(** * Properties of the other handlers of the tab *)
(* ================================================================== *)

Module HandlersProofs.
Import Json Fs Data Api Store CompleteTab Dialog CompleteTabHandlers
       ListFacts JsonProofs StoreProofs StoreMore CompleteTabMore.
Local Open Scope list_scope.

Section WithNumbers.
Context {NF : NumberFormat}.

(** ** Filters *)

Lemma filter_property_Forall key s l shown :
  filter_property key s l = inr shown ->
  Forall (fun p => property_is p key s = inr true) shown.
Proof.
  revert shown. induction l as [|p l IH]; intros shown.
  - intros [= <-]. constructor.
  - simpl filter_property.
    destruct (property_is p key s) as [e|keep] eqn:E; [discriminate|].
    destruct (filter_property key s l) as [e|r']; [discriminate|].
    intros [= <-]. destruct keep; [|now apply IH].
    constructor; [exact E | now apply IH].
Qed.

Lemma reject_property_not_null key s l :
  forallb not_null l = true ->
  reject_property key s l
  = inr (filter (fun p => negb (property_eq key s p)) l).
Proof.
  induction l as [|p l IH]; [reflexivity|].
  simpl forallb. intros H. apply andb_prop in H as [Hp Hl].
  simpl reject_property. simpl filter.
  rewrite (property_is_not_null p key s Hp), (IH Hl).
  now destruct (property_eq key s p).
Qed.

Lemma filter_length_le {A} (P : A -> bool) l :
  (List.length (filter P l) <= List.length l)%nat.
Proof.
  induction l as [|x l IH]; [reflexivity|]. simpl.
  destruct (P x); simpl; lia.
Qed.

(** Nothing is dropped exactly when no record has the property. *)
Lemma filter_negb_length {A} (P : A -> bool) l :
  (List.length (filter (fun x => negb (P x)) l) =? List.length l)%nat
  = negb (existsb P l).
Proof.
  induction l as [|x l IH]; [reflexivity|]. simpl.
  pose proof (filter_length_le (fun x => negb (P x)) l) as Hle.
  destruct (P x); simpl.
  - apply Nat.eqb_neq. lia.
  - exact IH.
Qed.

(** ** The requests for the substations *)

Lemma GET_substations_read w v :
  fst (getSubstations w) = inr v ->
  Substations.GET w
  = (inr (NextResponse_json v 200),
     snd (readJsonFile substations_json w)).
Proof.
  rewrite GET_substations_answer. unfold getSubstations, substationsPath.
  destruct (readJsonFile substations_json w) as [[e|v'] w'];
    [discriminate|].
  now intros [= ->].
Qed.

Lemma POST_substations_ok w d v :
  no_faults w -> data w = Some d -> property_order v = true ->
  Substations.POST (mkRequest (Some (stringify v))) w
  = (inr (NextResponse_json (message "Substations updated successfully") 200),
     mkDisk (Some (with_content substations_json (stringify2 v) d))
            (fault w) (cut w)).
Proof.
  intros Hnf Hd Hord. rewrite POST_substations_answer.
  unfold request_value. cbn [text]. unfold stringify.
  rewrite parse_serialize_written by (assumption || reflexivity).
  change (writeSubstations (written v))
    with (write_steps substations_json (written v)).
  rewrite write_steps_cases, ensureDataDir_cases, !Hnf, Hd. cbn [data].
  rewrite Hd. unfold stringify2. now rewrite serialize_written.
Qed.

(** ** [fetchComponentPolygons] *)

(** The parts of the statement that hold when the fetch fails. *)
Ltac failed_fetch :=
  cbn; split; [constructor|]; split; [reflexivity|];
  split; [assumption|]; split; [reflexivity|];
  split; [intros _; split; [reflexivity | cbn; auto]|].

(** X19: fetchComponentPolygons sends one GET and changes no file;
    afterwards every polygon shown has the substation_uuid asked for
    and nothing else of the state has changed.  On any failure the
    shown list is empty and the error toast is shown; when the file
    holds an array without null, the shown list is the stored list
    filtered by the substation id, in the stored order. *)
Theorem fetched_polygons_belong_to_the_substation :
  forall substationId (st : State) (w : disk),
    let '(out, st', w') := fetchComponentPolygons substationId st w in
    Forall (fun p => property_is p "substation_uuid" substationId = inr true)
           (componentPolygons st')
    /\ st' = with_polygons st (componentPolygons st')
    /\ (forall f, stored f w' = stored f w)
    /\ requests out = [request "GET" "/api/polygons"]
    /\ (out <> [request "GET" "/api/polygons"] ->
        componentPolygons st' = []
        /\ In (destructive "Error" "Could not load component polygons.") out)
    /\ (forall existing,
          fst (getComponentPolygons w) = inr (JArr existing) ->
          finite_numbers (JArr existing) = true ->
          forallb not_null existing = true ->
          out = [request "GET" "/api/polygons"]
          /\ componentPolygons st'
             = filter (property_eq "substation_uuid" substationId) existing).
Proof.
  intros substationId st w. unfold fetchComponentPolygons, andThen, fetch.
  rewrite GET_polygons_answer. unfold getComponentPolygons, polygonsPath.
  destruct (readJsonFile_frame component_polygons_json w) as [_ Hframe].
  pose proof (readJsonFile_order component_polygons_json w) as Horder.
  destruct (readJsonFile component_polygons_json w) as [[e|v] w0];
    cbn [fst snd] in *.
  { failed_fetch. intros existing H. discriminate H. }
  change (negb (ok (NextResponse_json v 200))) with false. cbv beta iota.
  rewrite response_json_value by (now apply Horder).
  destruct (array_of (written v)) as [e|elements] eqn:Harr;
    cbn [lift done raise].
  { failed_fetch. intros existing [= ->] Hfin Hnn.
    rewrite (written_finite_id (JArr existing) Hfin) in Harr. discriminate Harr. }
  destruct (filter_property "substation_uuid" substationId elements)
    as [e|shown] eqn:Hfilter; cbn [lift done raise].
  { failed_fetch. intros existing [= ->] Hfin Hnn.
    rewrite (written_finite_id (JArr existing) Hfin) in Harr. injection Harr as <-.
    rewrite filter_property_not_null in Hfilter by assumption.
    discriminate Hfilter. }
  cbn [componentPolygons with_polygons app].
  split; [now apply (filter_property_Forall _ _ elements)|].
  split; [reflexivity|]. split; [exact Hframe|].
  split; [reflexivity|]. split; [intros H; now destruct H|].
  intros existing [= ->] Hfin Hnn.
  rewrite (written_finite_id (JArr existing) Hfin) in Harr. injection Harr as <-.
  rewrite filter_property_not_null in Hfilter by assumption.
  injection Hfilter as <-. now split.
Qed.

(** ** [handleDeletePolygon] *)

Lemma existsb_map_id s t l :
  existsb (property_eq "id" s) (List.map (completed_as s t) l)
  = existsb (property_eq "id" s) l.
Proof.
  induction l as [|p l IH]; [reflexivity|]. simpl.
  rewrite IH. f_equal. unfold completed_as. destruct p; try reflexivity.
  destruct (property_eq "id" s (JObj members)) eqn:E; [|exact E].
  unfold property_eq, property_is, property in *.
  rewrite !get_set.
  replace (jsstring_eqb (js "substation_type") (js "id")) with false
    by reflexivity.
  replace (jsstring_eqb (js "completed") (js "id")) with false
    by reflexivity.
  exact E.
Qed.

Lemma forallb_filter {A} (P Q : A -> bool) l :
  forallb P l = true -> forallb P (filter Q l) = true.
Proof.
  induction l as [|x l IH]; [reflexivity|]. simpl.
  intros H. apply andb_prop in H as [Hx Hl].
  destruct (Q x); simpl; rewrite ?Hx; auto.
Qed.

Lemma handleDeletePolygon_confirmed confirm st w poly :
  dialogPolygon st = Some poly -> from_osm poly = false ->
  startsWith (id poly) (js "temp-") = false ->
  confirm (delete_question (label poly)) = true ->
  handleDeletePolygon confirm st w
  = match delete_block poly w [] with
    | (inr _, w', out) =>
        (out,
         match reject_property "id" (id poly) (componentPolygons st) with
         | inr shown => inr (close (with_polygons st shown))
         | inl e => inl e
         end,
         w')
    | (inl error, w', out) => (out ++ delete_failed error, inr st, w')
    end.
Proof.
  intros Hp Hosm Htemp Hyes. unfold handleDeletePolygon.
  now rewrite Hp, Hosm, Htemp, Hyes.
Qed.

(** X20: a confirmed delete of a stored polygon writes back the stored
    list without every record that has the id, the other records in
    their order; the substations file is unchanged, and the dialog is
    closed with the same records removed from the polygons shown. *)
Theorem confirmed_delete_removes_the_records_with_the_id :
  forall confirm (st : State) (w : disk) poly existing,
    dialogPolygon st = Some poly -> from_osm poly = false ->
    startsWith (id poly) (js "temp-") = false ->
    confirm (delete_question (label poly)) = true ->
    no_faults w ->
    fst (getComponentPolygons w) = inr (JArr existing) ->
    finite_numbers (JArr existing) = true ->
    forallb not_null existing = true ->
    existsb (property_eq "id" (id poly)) existing = true ->
    let others := filter (fun p => negb (property_eq "id" (id poly) p)) in
    let '(out, st', w') := handleDeletePolygon confirm st w in
    out = [ request "GET" "/api/polygons";
            request "POST" "/api/polygons";
            deleted_toast (label poly) ]
    /\ stored component_polygons_json w'
       = Some (stringify2 (JArr (others existing)))
    /\ stored substations_json w' = stored substations_json w
    /\ (forallb not_null (componentPolygons st) = true ->
        st' = inr (close (with_polygons st (others (componentPolygons st))))).
Proof.
  intros confirm st w poly existing
         Hp Hosm Htemp Hyes Hnf Hread Hfin Hnn Hex others.
  rewrite (handleDeletePolygon_confirmed confirm st w poly) by assumption.
  destruct (read_directory component_polygons_json w Hnf)
    as (d & Hd & Hnf' & Hsame).
  assert (Hord : property_order (JArr existing) = true)
    by (now apply (readJsonFile_order component_polygons_json w)).
  assert (Hnew : property_order (JArr (others existing)) = true)
    by (cbn [property_order] in *; now apply forallb_filter).
  unfold delete_block, andThen, fetch.
  rewrite (GET_polygons_read w _ Hread).
  change (negb (ok (NextResponse_json (JArr existing) 200))) with false.
  cbv beta iota.
  rewrite response_json_value by assumption.
  rewrite (written_finite_id _ Hfin).
  cbn [array_of lift done].
  rewrite reject_property_not_null by assumption.
  cbn [lift done]. fold (others existing).
  unfold others at 1. rewrite filter_negb_length, Hex. cbn [negb].
  fold (others existing).
  rewrite (POST_polygons_ok _ d (JArr (others existing))) by assumption.
  change (negb (ok (NextResponse_json
                      (message "Polygons updated successfully") 200)))
    with false.
  cbv beta iota. cbn [show app].
  split; [reflexivity|]. split; [|split].
  - unfold stored. cbn [data]. reflexivity.
  - unfold stored at 1. cbn [data]. apply (Hsame substations_json).
  - intros Hst. now rewrite reject_property_not_null.
Qed.

(** X21: a confirmed delete of a polygon that no stored record has sends
    no POST: it fails with Polygon to delete not found in file, shown
    by the Delete Failed toast, and the files and the state of the
    tab are unchanged. *)
Theorem delete_of_unknown_polygon_changes_nothing :
  forall confirm (st : State) (w : disk) poly existing,
    dialogPolygon st = Some poly -> from_osm poly = false ->
    startsWith (id poly) (js "temp-") = false ->
    confirm (delete_question (label poly)) = true ->
    fst (getComponentPolygons w) = inr (JArr existing) ->
    finite_numbers (JArr existing) = true ->
    forallb not_null existing = true ->
    existsb (property_eq "id" (id poly)) existing = false ->
    let '(out, st', w') := handleDeletePolygon confirm st w in
    out = request "GET" "/api/polygons"
          :: delete_failed (Error (js "Polygon to delete not found in file."))
    /\ st' = inr st
    /\ (forall f, stored f w' = stored f w).
Proof.
  intros confirm st w poly existing Hp Hosm Htemp Hyes Hread Hfin Hnn Hex.
  rewrite (handleDeletePolygon_confirmed confirm st w poly) by assumption.
  assert (Hord : property_order (JArr existing) = true)
    by (now apply (readJsonFile_order component_polygons_json w)).
  unfold delete_block, andThen, fetch.
  rewrite (GET_polygons_read w _ Hread).
  change (negb (ok (NextResponse_json (JArr existing) 200))) with false.
  cbv beta iota.
  rewrite response_json_value by assumption.
  rewrite (written_finite_id _ Hfin).
  cbn [array_of lift done].
  rewrite reject_property_not_null by assumption.
  cbn [lift done]. rewrite filter_negb_length, Hex. cbn [negb raise app].
  split; [reflexivity|]. split; [reflexivity|].
  intros f. apply readJsonFile_frame.
Qed.

Lemma requests_delete_failed e : requests (delete_failed e) = [].
Proof. reflexivity. Qed.

Lemma delete_block_requests poly w :
  let '(r, w', out) := delete_block poly w [] in
  (requests out = [request "GET" "/api/polygons"]
   /\ w' = snd (Polygons.GET w) /\ exists e, r = inl e)
  \/ (exists body,
         requests out = [request "GET" "/api/polygons";
                         request "POST" "/api/polygons"]
         /\ w' = snd (Polygons.POST body (snd (Polygons.GET w)))).
Proof.
  unfold delete_block, andThen, fetch.
  destruct (Polygons.GET w) as [[e|r] w0]; cbn [snd].
  { left. repeat split. now exists e. }
  destruct (negb (ok r)); cbn [raise].
  { left. repeat split. now eexists. }
  unfold response_json. destruct (parse (body r)) as [v|]; cbn [done raise].
  2:{ left. repeat split. now eexists. }
  destruct (array_of v) as [e|elements]; cbn [lift done raise].
  { left. repeat split. now eexists. }
  destruct (reject_property "id" (id poly) elements) as [e|kept];
    cbn [lift done raise].
  { left. repeat split. now eexists. }
  destruct (List.length kept =? List.length elements)%nat; cbn [raise].
  { left. repeat split. now eexists. }
  match goal with
  | |- context [Polygons.POST ?b w0] =>
      destruct (Polygons.POST b w0) as [[e|pr] w1] eqn:E
  end; cbn [snd].
  - right. eexists. rewrite E. split; reflexivity.
  - destruct (negb (ok pr)); cbn [raise show];
      right; eexists; rewrite E; split; reflexivity.
Qed.

(** X22: handleDeletePolygon never changes the substations file; it
    sends nothing, one GET, or one GET followed by one POST to
    /api/polygons, and without a POST the polygons file and the
    polygons shown are unchanged.  For a polygon from OSM, a polygon
    that is not saved yet (temp id) or a question answered no, it
    sends nothing and leaves the disk as it is; the unsaved polygon
    only has its dialog closed. *)
Theorem delete_writes_only_through_its_POST :
  forall confirm (st : State) (w : disk),
    let '(out, st', w') := handleDeletePolygon confirm st w in
    stored substations_json w' = stored substations_json w
    /\ (requests out = []
        \/ requests out = [request "GET" "/api/polygons"]
        \/ requests out = [request "GET" "/api/polygons";
                           request "POST" "/api/polygons"])
    /\ (~ In (request "POST" "/api/polygons") out ->
        stored component_polygons_json w' = stored component_polygons_json w
        /\ exists st'', st' = inr st''
                        /\ componentPolygons st'' = componentPolygons st)
    /\ (forall poly,
          dialogPolygon st = Some poly ->
          from_osm poly || startsWith (id poly) (js "temp-")
          || negb (confirm (delete_question (label poly))) = true ->
          out = [] /\ w' = w
          /\ st' = inr (if startsWith (id poly) (js "temp-")
                        then close st else st))
    /\ (dialogPolygon st = None -> out = [] /\ w' = w /\ st' = inr st).
Proof.
  intros confirm st w. unfold handleDeletePolygon.
  destruct (dialogPolygon st) as [poly|] eqn:Hp.
  2:{ split; [reflexivity|]. split; [now left|].
      split; [intros _; split; [reflexivity | now exists st]|].
      split; [discriminate | now intros _]. }
  destruct (from_osm poly || startsWith (id poly) (js "temp-")) eqn:Hguard.
  { split; [reflexivity|]. split; [now left|]. split; [|split].
    - intros _. split; [reflexivity|].
      destruct (startsWith (id poly) (js "temp-")); eexists;
        (split; [reflexivity|]); reflexivity.
    - intros p [= <-] _. now repeat split.
    - discriminate. }
  destruct (negb (confirm (delete_question (label poly)))) eqn:Hno.
  { split; [reflexivity|]. split; [now left|]. split; [|split].
    - intros _. split; [reflexivity|]. now exists st.
    - intros p [= <-] _. apply orb_false_iff in Hguard as [_ ->].
      now repeat split.
    - discriminate. }
  pose proof (delete_block_requests poly w) as Hshape.
  destruct (delete_block poly w []) as [[r w'] out].
  assert (Hreq : forall e, requests (out ++ delete_failed e) = requests out).
  { intros e. now rewrite requests_app, requests_delete_failed, app_nil_r. }
  destruct Hshape as [(Hout & -> & e & ->)|(body & Hout & ->)].
  - rewrite Hreq, Hout, GET_polygons_disk.
    destruct (readJsonFile_frame component_polygons_json w) as [Hflt Hst].
    split; [apply Hst|]. split; [right; now left|]. split; [|split].
    + intros _. split; [apply Hst|]. now exists st.
    + intros p [= <-] H. rewrite Hguard, Hno in H. discriminate H.
    + discriminate.
  - assert (Hsub : stored substations_json
                     (snd (Polygons.POST body (snd (Polygons.GET w))))
                   = stored substations_json w).
    { rewrite POST_polygons_disk, GET_polygons_disk.
      destruct (readJsonFile_frame component_polygons_json w) as [Hflt Hst].
      destruct (request_value body) as [v|]; [|apply Hst].
      destruct (write_steps_frame component_polygons_json v
                  (snd (readJsonFile component_polygons_json w)))
        as (_ & Hother & _).
      rewrite Hother by discriminate. apply Hst. }
    assert (Hin : In (request "POST" "/api/polygons") out).
    { apply requests_In. rewrite Hout. right. now left. }
    destruct r as [e|[]].
    + rewrite Hreq, Hout. split; [exact Hsub|].
      split; [now right; right|]. split; [|split].
      * intros Hn. exfalso. apply Hn. apply in_or_app. now left.
      * intros p [= <-] H. rewrite Hguard, Hno in H. discriminate H.
      * discriminate.
    + rewrite Hout. split; [exact Hsub|].
      split; [now right; right|]. split; [|split].
      * intros Hn. now destruct Hn.
      * intros p [= <-] H. rewrite Hguard, Hno in H. discriminate H.
      * discriminate.
Qed.

(** ** [handleReopenSubstation] *)

Lemma reopen_all_not_null s l :
  forallb not_null l = true ->
  reopen_all s l
  = inr (List.map (reopened s) l, existsb (property_eq "id" s) l).
Proof.
  induction l as [|p l IH]; [reflexivity|].
  simpl forallb. intros H. apply andb_prop in H as [Hp Hl].
  simpl reopen_all. rewrite (property_is_not_null p "id" s Hp), (IH Hl).
  simpl List.map. simpl existsb. unfold reopened.
  destruct (property_eq "id" s p) eqn:E; [|now destruct p].
  destruct p; try reflexivity.
  all: unfold property_eq, property_is, property in E; discriminate E.
Qed.

Lemma reopened_order s p :
  property_order p = true -> property_order (reopened s p) = true.
Proof.
  intros H. unfold reopened. destruct p; try exact H.
  destruct (property_eq "id" s (JObj members)); [|exact H].
  now apply set_order.
Qed.

Lemma handleReopenSubstation_confirmed confirm st w sub :
  selectedSubstation st = Some sub -> confirm (reopen_question sub) = true ->
  handleReopenSubstation confirm st w
  = match reopen_block sub w [] with
    | (inr _, w', out) => (out, true, w')
    | (inl error, w', out) => (out ++ reopen_failed error, false, w')
    end.
Proof.
  intros Hs Hyes. unfold handleReopenSubstation. now rewrite Hs, Hyes.
Qed.

Lemma reopened_other s p :
  property_eq "id" s p = false -> reopened s p = p.
Proof.
  intros Hp. unfold reopened. destruct p; try reflexivity. now rewrite Hp.
Qed.

Lemma reopened_record s members :
  property_eq "id" s (JObj members) = true ->
  exists members',
    reopened s (JObj members) = JObj members'
    /\ get (js "completed") members' = Some (JBool false)
    /\ forall key, key <> js "completed" -> get key members' = get key members.
Proof.
  intros Hm. unfold reopened. rewrite Hm. eexists.
  split; [reflexivity|]. split.
  - rewrite get_set. now rewrite jsstring_eqb_refl.
  - intros key Hkey. rewrite get_set.
    now rewrite jsstring_eqb_neq by congruence.
Qed.

(** A confirmed reopening of a substation that the file holds. *)
Lemma handleReopenSubstation_success confirm st w sub existing :
  selectedSubstation st = Some sub ->
  confirm (reopen_question sub) = true ->
  no_faults w ->
  fst (getSubstations w) = inr (JArr existing) ->
  finite_numbers (JArr existing) = true ->
  forallb not_null existing = true ->
  existsb (property_eq "id" (SubstationData.id sub)) existing = true ->
  exists w',
    handleReopenSubstation confirm st w
    = ([ request "GET" "/api/substations";
         request "POST" "/api/substations";
         reopened_toast sub ], true, w')
    /\ no_faults w'
    /\ stored substations_json w'
       = Some (stringify2
                 (JArr (List.map (reopened (SubstationData.id sub)) existing)))
    /\ stored component_polygons_json w'
       = stored component_polygons_json w.
Proof.
  intros Hs Hyes Hnf Hread Hfin Hnn Hex.
  rewrite (handleReopenSubstation_confirmed confirm st w sub) by assumption.
  destruct (read_directory substations_json w Hnf)
    as (d & Hd & Hnf' & Hsame).
  assert (Hord : property_order (JArr existing) = true)
    by (now apply (readJsonFile_order substations_json w)).
  assert (Hnew : property_order
                   (JArr (List.map (reopened (SubstationData.id sub)) existing))
                 = true).
  { cbn [property_order] in *. rewrite forallb_map.
    apply forallb_forall. intros p Hin. apply reopened_order.
    now apply (proj1 (forallb_forall _ _) Hord). }
  unfold reopen_block, andThen, fetch.
  rewrite (GET_substations_read w _ Hread).
  change (negb (ok (NextResponse_json (JArr existing) 200))) with false.
  cbv beta iota.
  rewrite response_json_value by assumption.
  rewrite (written_finite_id _ Hfin).
  cbn [array_of lift done].
  rewrite reopen_all_not_null by assumption.
  cbn [lift done]. rewrite Hex. cbn [negb].
  rewrite (POST_substations_ok _ d
             (JArr (List.map (reopened (SubstationData.id sub)) existing)))
    by assumption.
  change (negb (ok (NextResponse_json
                      (message "Substations updated successfully") 200)))
    with false.
  cbv beta iota. cbn [show app].
  eexists. split; [reflexivity|]. split; [|split].
  - intros op. cbn [fault]. apply Hnf'.
  - unfold stored. cbn [data]. reflexivity.
  - unfold stored at 1. cbn [data]. apply (Hsame component_polygons_json).
Qed.

(** X23: a confirmed reopening of a stored substation writes back the
    stored list with completed set to false in every record that has
    the id of the substation: the other records, and every other
    property of these records, are unchanged, the order is kept, the
    polygons file is not touched, and the refresh of the list is
    started. *)
Theorem reopen_clears_completed_of_the_substation :
  forall confirm (st : State) (w : disk) sub existing,
    selectedSubstation st = Some sub ->
    confirm (reopen_question sub) = true ->
    no_faults w ->
    fst (getSubstations w) = inr (JArr existing) ->
    finite_numbers (JArr existing) = true ->
    forallb not_null existing = true ->
    existsb (property_eq "id" (SubstationData.id sub)) existing = true ->
    let s := SubstationData.id sub in
    let '(out, refresh, w') := handleReopenSubstation confirm st w in
    out = [ request "GET" "/api/substations";
            request "POST" "/api/substations";
            reopened_toast sub ]
    /\ refresh = true
    /\ stored substations_json w'
       = Some (stringify2 (JArr (List.map (reopened s) existing)))
    /\ stored component_polygons_json w'
       = stored component_polygons_json w
    /\ (forall p, property_eq "id" s p = false -> reopened s p = p)
    /\ (forall members,
          property_eq "id" s (JObj members) = true ->
          exists members',
            reopened s (JObj members) = JObj members'
            /\ get (js "completed") members' = Some (JBool false)
            /\ forall key, key <> js "completed" ->
                           get key members' = get key members).
Proof.
  intros confirm st w sub existing Hs Hyes Hnf Hread Hfin Hnn Hex s.
  destruct (handleReopenSubstation_success confirm st w sub existing)
    as (w' & -> & _ & Hst & Hp); try assumption.
  split; [reflexivity|]. split; [reflexivity|].
  split; [exact Hst|]. split; [exact Hp|].
  split; [apply reopened_other | apply reopened_record].
Qed.

Lemma requests_reopen_failed e : requests (reopen_failed e) = [].
Proof. reflexivity. Qed.

Lemma reopen_block_requests sub w :
  let '(r, w', out) := reopen_block sub w [] in
  (requests out = [request "GET" "/api/substations"]
   /\ w' = snd (Substations.GET w) /\ exists e, r = inl e)
  \/ (exists body,
         requests out = [request "GET" "/api/substations";
                         request "POST" "/api/substations"]
         /\ w' = snd (Substations.POST body (snd (Substations.GET w)))).
Proof.
  unfold reopen_block, andThen, fetch.
  destruct (Substations.GET w) as [[e|r] w0]; cbn [snd].
  { left. repeat split. now exists e. }
  destruct (negb (ok r)); cbn [raise].
  { left. repeat split. now eexists. }
  unfold response_json. destruct (parse (body r)) as [v|]; cbn [done raise].
  2:{ left. repeat split. now eexists. }
  destruct (array_of v) as [e|elements]; cbn [lift done raise].
  { left. repeat split. now eexists. }
  destruct (reopen_all (SubstationData.id sub) elements)
    as [e|[updated wasUpdated]]; cbn [lift done raise].
  { left. repeat split. now eexists. }
  destruct (negb wasUpdated); cbn [raise].
  { left. repeat split. now eexists. }
  match goal with
  | |- context [Substations.POST ?b w0] =>
      destruct (Substations.POST b w0) as [[e|pr] w1] eqn:E
  end; cbn [snd].
  - right. eexists. rewrite E. split; reflexivity.
  - destruct (negb (ok pr)); cbn [raise show];
      right; eexists; rewrite E; split; reflexivity.
Qed.

(** X24: handleReopenSubstation never changes the polygons file; it
    sends nothing, one GET, or one GET followed by one POST to
    /api/substations, and without a POST the substations file is
    unchanged and no refresh is started.  Without a selected
    substation, or when the question is answered no, it does
    nothing. *)
Theorem reopen_never_touches_the_polygons :
  forall confirm (st : State) (w : disk),
    let '(out, refresh, w') := handleReopenSubstation confirm st w in
    stored component_polygons_json w' = stored component_polygons_json w
    /\ (requests out = []
        \/ requests out = [request "GET" "/api/substations"]
        \/ requests out = [request "GET" "/api/substations";
                           request "POST" "/api/substations"])
    /\ (~ In (request "POST" "/api/substations") out ->
        refresh = false
        /\ stored substations_json w' = stored substations_json w)
    /\ (forall sub,
          selectedSubstation st = Some sub ->
          confirm (reopen_question sub) = false ->
          out = [] /\ refresh = false /\ w' = w)
    /\ (selectedSubstation st = None ->
        out = [] /\ refresh = false /\ w' = w).
Proof.
  intros confirm st w. unfold handleReopenSubstation.
  destruct (selectedSubstation st) as [sub|] eqn:Hs.
  2:{ split; [reflexivity|]. split; [now left|].
      split; [now intros _|]. split; [discriminate | now intros _]. }
  destruct (negb (confirm (reopen_question sub))) eqn:Hno.
  { split; [reflexivity|]. split; [now left|].
    split; [now intros _|]. split; [|discriminate].
    intros s [= <-] _. now repeat split. }
  pose proof (reopen_block_requests sub w) as Hshape.
  destruct (reopen_block sub w []) as [[r w'] out].
  assert (Hreq : forall e, requests (out ++ reopen_failed e) = requests out).
  { intros e. now rewrite requests_app, requests_reopen_failed, app_nil_r. }
  assert (Hconfirmed : forall s : SubstationData.t,
             Some sub = Some s -> confirm (reopen_question s) = false ->
             False).
  { intros s [= <-] H. rewrite H in Hno. discriminate Hno. }
  destruct Hshape as [(Hout & -> & e & ->)|(body & Hout & ->)].
  - rewrite Hreq, Hout, GET_substations_disk.
    destruct (readJsonFile_frame substations_json w) as [Hflt Hst].
    split; [apply Hst|]. split; [right; now left|]. split; [|split].
    + intros _. split; [reflexivity | apply Hst].
    + intros s H1 H2. destruct (Hconfirmed s H1 H2).
    + discriminate.
  - assert (Hpoly : stored component_polygons_json
                      (snd (Substations.POST body (snd (Substations.GET w))))
                    = stored component_polygons_json w).
    { rewrite POST_substations_disk, GET_substations_disk.
      destruct (readJsonFile_frame substations_json w) as [Hflt Hst].
      destruct (request_value body) as [v|]; [|apply Hst].
      destruct (write_steps_frame substations_json v
                  (snd (readJsonFile substations_json w)))
        as (_ & Hother & _).
      rewrite Hother by discriminate. apply Hst. }
    assert (Hin : In (request "POST" "/api/substations") out).
    { apply requests_In. rewrite Hout. right. now left. }
    destruct r as [e|[]].
    + rewrite Hreq, Hout. split; [exact Hpoly|].
      split; [now right; right|]. split; [|split].
      * intros Hn. exfalso. apply Hn. apply in_or_app. now left.
      * intros s H1 H2. destruct (Hconfirmed s H1 H2).
      * discriminate.
    + rewrite Hout. split; [exact Hpoly|].
      split; [now right; right|]. split; [|split].
      * intros Hn. now destruct Hn.
      * intros s H1 H2. destruct (Hconfirmed s H1 H2).
      * discriminate.
Qed.

(** ** [handleCompleteSubstation] *)

Lemma complete_all_not_null s t l :
  forallb not_null l = true ->
  AnnotateTab.complete_all s t l
  = inr (List.map (completed_as s t) l, existsb (property_eq "id" s) l).
Proof.
  induction l as [|p l IH]; [reflexivity|].
  simpl forallb. intros H. apply andb_prop in H as [Hp Hl].
  simpl AnnotateTab.complete_all.
  rewrite (property_is_not_null p "id" s Hp), (IH Hl).
  simpl List.map. simpl existsb. unfold completed_as.
  destruct (property_eq "id" s p) eqn:E; [|now destruct p].
  destruct p; try reflexivity.
  all: unfold property_eq, property_is, property in E; discriminate E.
Qed.

Lemma completed_as_order s t p :
  property_order p = true -> property_order (completed_as s t p) = true.
Proof.
  intros H. unfold completed_as. destruct p; try exact H.
  destruct (property_eq "id" s (JObj members)); [|exact H].
  apply set_order; [|reflexivity]. now apply set_order.
Qed.

Lemma completed_as_finite s t p :
  finite_numbers p = true -> finite_numbers (completed_as s t p) = true.
Proof.
  intros H. unfold completed_as. destruct p; try exact H.
  destruct (property_eq "id" s (JObj members)); [|exact H].
  apply set_finite; [|reflexivity]. now apply set_finite.
Qed.

Lemma completed_as_not_null s t p :
  not_null (completed_as s t p) = not_null p.
Proof.
  unfold completed_as. destruct p; try reflexivity.
  now destruct (property_eq "id" s (JObj members)).
Qed.

Lemma completed_as_id s t p :
  property_eq "id" s (completed_as s t p) = property_eq "id" s p.
Proof.
  unfold completed_as. destruct p; try reflexivity.
  destruct (property_eq "id" s (JObj members)) eqn:E; [|exact E].
  unfold property_eq, property_is, property in *.
  rewrite !get_set.
  replace (jsstring_eqb (js "substation_type") (js "id")) with false
    by reflexivity.
  replace (jsstring_eqb (js "completed") (js "id")) with false
    by reflexivity.
  exact E.
Qed.

Lemma completed_as_other s t p :
  property_eq "id" s p = false -> completed_as s t p = p.
Proof.
  intros Hp. unfold completed_as. destruct p; try reflexivity.
  now rewrite Hp.
Qed.

Lemma completed_as_record s t members :
  property_eq "id" s (JObj members) = true ->
  exists members',
    completed_as s t (JObj members) = JObj members'
    /\ get (js "completed") members' = Some (JBool true)
    /\ get (js "substation_type") members' = Some (JStr t)
    /\ forall key, key <> js "completed" -> key <> js "substation_type" ->
                   get key members' = get key members.
Proof.
  intros Hm. unfold completed_as. rewrite Hm. eexists.
  split; [reflexivity|]. split; [|split].
  - rewrite !get_set. reflexivity.
  - rewrite get_set. now rewrite jsstring_eqb_refl.
  - intros key H1 H2. rewrite !get_set.
    now rewrite !jsstring_eqb_neq by congruence.
Qed.

(** The type that is stored is never empty. *)
Lemma finalSubstationType_not_empty (st : AnnotateTab.State) :
  is_empty (AnnotateTab.substationType st)
  || (jsstring_eqb (AnnotateTab.substationType st) (js "Other")
      && is_empty (trim (AnnotateTab.substationOtherText st))) = false ->
  is_empty (AnnotateTab.finalSubstationType st) = false.
Proof.
  unfold AnnotateTab.finalSubstationType. intros H.
  apply orb_false_iff in H as [H1 H2].
  destruct (jsstring_eqb (AnnotateTab.substationType st) (js "Other"));
    [exact H2 | exact H1].
Qed.

Lemma handleCompleteSubstation_success confirm (st : AnnotateTab.State)
      w sub existing :
  AnnotateTab.selectedSubstation st = Some sub ->
  is_empty (AnnotateTab.substationType st)
  || (jsstring_eqb (AnnotateTab.substationType st) (js "Other")
      && is_empty (trim (AnnotateTab.substationOtherText st))) = false ->
  confirm (AnnotateTab.complete_question sub
             (AnnotateTab.finalSubstationType st)) = true ->
  no_faults w ->
  fst (getSubstations w) = inr (JArr existing) ->
  finite_numbers (JArr existing) = true ->
  forallb not_null existing = true ->
  existsb (property_eq "id" (SubstationData.id sub)) existing = true ->
  exists w',
    AnnotateTab.handleCompleteSubstation confirm st w
    = ([ request "GET" "/api/substations";
         request "POST" "/api/substations";
         AnnotateTab.completed_toast sub ], st, true, w')
    /\ no_faults w'
    /\ stored substations_json w'
       = Some (stringify2
                 (JArr (List.map
                          (completed_as (SubstationData.id sub)
                             (AnnotateTab.finalSubstationType st))
                          existing)))
    /\ stored component_polygons_json w'
       = stored component_polygons_json w.
Proof.
  intros Hs Htype Hyes Hnf Hread Hfin Hnn Hex.
  unfold AnnotateTab.handleCompleteSubstation.
  rewrite Hs, Htype. cbv zeta. rewrite Hyes. cbn [negb].
  destruct (read_directory substations_json w Hnf)
    as (d & Hd & Hnf' & Hsame).
  assert (Hord : property_order (JArr existing) = true)
    by (now apply (readJsonFile_order substations_json w)).
  set (t := AnnotateTab.finalSubstationType st) in *.
  assert (Hnew : property_order
                   (JArr (List.map (completed_as (SubstationData.id sub) t)
                            existing))
                 = true).
  { cbn [property_order] in *. rewrite forallb_map.
    apply forallb_forall. intros p Hin. apply completed_as_order.
    now apply (proj1 (forallb_forall _ _) Hord). }
  unfold AnnotateTab.complete_block, andThen, fetch.
  rewrite (GET_substations_read w _ Hread).
  change (negb (ok (NextResponse_json (JArr existing) 200))) with false.
  cbv beta iota.
  rewrite response_json_value by assumption.
  rewrite (written_finite_id _ Hfin).
  cbn [array_of lift done].
  rewrite complete_all_not_null by assumption.
  cbn [lift done]. rewrite Hex. cbn [negb].
  rewrite (POST_substations_ok _ d
             (JArr (List.map (completed_as (SubstationData.id sub) t)
                      existing)))
    by assumption.
  change (negb (ok (NextResponse_json
                      (message "Substations updated successfully") 200)))
    with false.
  cbv beta iota. cbn [show app].
  eexists. split; [reflexivity|]. split; [|split].
  - intros op. cbn [fault]. apply Hnf'.
  - unfold stored. cbn [data]. reflexivity.
  - unfold stored at 1. cbn [data]. apply (Hsame component_polygons_json).
Qed.

(** X25: a confirmed completion of a stored substation writes back the
    stored list with completed set to true and substation_type set
    to the chosen type in every record that has the id of the
    substation.  The type stored is never the empty string (for
    Other it is the trimmed text typed in); the other records, and
    every other property of these records, are unchanged, the
    polygons file is not touched, and the refresh of the list is
    started. *)
Theorem completed_substation_is_stored_with_a_type :
  forall confirm (st : AnnotateTab.State) (w : disk) sub existing,
    AnnotateTab.selectedSubstation st = Some sub ->
    is_empty (AnnotateTab.substationType st)
    || (jsstring_eqb (AnnotateTab.substationType st) (js "Other")
        && is_empty (trim (AnnotateTab.substationOtherText st))) = false ->
    confirm (AnnotateTab.complete_question sub
               (AnnotateTab.finalSubstationType st)) = true ->
    no_faults w ->
    fst (getSubstations w) = inr (JArr existing) ->
    finite_numbers (JArr existing) = true ->
    forallb not_null existing = true ->
    existsb (property_eq "id" (SubstationData.id sub)) existing = true ->
    let s := SubstationData.id sub in
    let t := AnnotateTab.finalSubstationType st in
    let '(out, st', refresh, w') :=
      AnnotateTab.handleCompleteSubstation confirm st w in
    out = [ request "GET" "/api/substations";
            request "POST" "/api/substations";
            AnnotateTab.completed_toast sub ]
    /\ st' = st /\ refresh = true
    /\ stored substations_json w'
       = Some (stringify2 (JArr (List.map (completed_as s t) existing)))
    /\ stored component_polygons_json w'
       = stored component_polygons_json w
    /\ t <> []
    /\ (forall p, property_eq "id" s p = false -> completed_as s t p = p)
    /\ (forall members,
          property_eq "id" s (JObj members) = true ->
          exists members',
            completed_as s t (JObj members) = JObj members'
            /\ get (js "completed") members' = Some (JBool true)
            /\ get (js "substation_type") members' = Some (JStr t)
            /\ forall key,
                 key <> js "completed" -> key <> js "substation_type" ->
                 get key members' = get key members).
Proof.
  intros confirm st w sub existing Hs Htype Hyes Hnf Hread Hfin Hnn Hex s t.
  destruct (handleCompleteSubstation_success confirm st w sub existing)
    as (w' & -> & _ & Hst & Hp); try assumption.
  split; [reflexivity|]. split; [reflexivity|]. split; [reflexivity|].
  split; [exact Hst|]. split; [exact Hp|]. split; [|split].
  - pose proof (finalSubstationType_not_empty st Htype) as Hne.
    subst t. now destruct (AnnotateTab.finalSubstationType st).
  - apply completed_as_other.
  - apply completed_as_record.
Qed.

(** X26: completing a substation in the annotation tab and then
    reopening it in the completed tab does not give back the stored
    list: the record of the substation has completed false again,
    but keeps the substation_type that the completion has set.  All
    its other properties, the other records and the polygons file
    are as before the two steps. *)
Theorem reopen_after_complete_keeps_the_type :
  forall confirm confirm' (annotate : AnnotateTab.State) (complete : State)
         (w : disk) sub existing,
    AnnotateTab.selectedSubstation annotate = Some sub ->
    selectedSubstation complete = Some sub ->
    is_empty (AnnotateTab.substationType annotate)
    || (jsstring_eqb (AnnotateTab.substationType annotate) (js "Other")
        && is_empty (trim (AnnotateTab.substationOtherText annotate)))
    = false ->
    confirm (AnnotateTab.complete_question sub
               (AnnotateTab.finalSubstationType annotate)) = true ->
    confirm' (reopen_question sub) = true ->
    no_faults w ->
    fst (getSubstations w) = inr (JArr existing) ->
    finite_numbers (JArr existing) = true ->
    forallb not_null existing = true ->
    existsb (property_eq "id" (SubstationData.id sub)) existing = true ->
    let s := SubstationData.id sub in
    let t := AnnotateTab.finalSubstationType annotate in
    let w1 := snd (AnnotateTab.handleCompleteSubstation confirm annotate w) in
    let w2 := snd (handleReopenSubstation confirm' complete w1) in
    stored substations_json w2
    = Some (stringify2
              (JArr (List.map (fun p => reopened s (completed_as s t p))
                       existing)))
    /\ stored component_polygons_json w2 = stored component_polygons_json w
    /\ (forall p, property_eq "id" s p = false ->
                  reopened s (completed_as s t p) = p)
    /\ (forall members,
          property_eq "id" s (JObj members) = true ->
          exists members',
            reopened s (completed_as s t (JObj members)) = JObj members'
            /\ get (js "completed") members' = Some (JBool false)
            /\ get (js "substation_type") members' = Some (JStr t)
            /\ forall key,
                 key <> js "completed" -> key <> js "substation_type" ->
                 get key members' = get key members).
Proof.
  intros confirm confirm' annotate complete w sub existing
         Hs Hs' Htype Hyes Hyes' Hnf Hread Hfin Hnn Hex s t w1 w2.
  destruct (handleCompleteSubstation_success confirm annotate w sub existing)
    as (w' & E1 & Hnf1 & Hst1 & Hp1); try assumption.
  subst w2 w1. rewrite E1. cbn [snd].
  fold s t in Hst1.
  set (l1 := List.map (completed_as s t) existing) in *.
  assert (Hfin1 : finite_numbers (JArr l1) = true).
  { cbn [finite_numbers] in *. unfold l1. rewrite forallb_map.
    apply forallb_forall. intros p Hin. apply completed_as_finite.
    now apply (proj1 (forallb_forall _ _) Hfin). }
  assert (Hnn1 : forallb not_null l1 = true).
  { unfold l1. rewrite forallb_map. rewrite <- Hnn.
    apply forallb_ext_Forall, Forall_forall. intros p _.
    apply completed_as_not_null. }
  assert (Hex1 : existsb (property_eq "id" s) l1 = true).
  { unfold l1. rewrite existsb_map_id. exact Hex. }
  assert (Hord1 : property_order (JArr l1) = true).
  { assert (Hord : property_order (JArr existing) = true)
      by (now apply (readJsonFile_order substations_json w)).
    cbn [property_order] in *. unfold l1. rewrite forallb_map.
    apply forallb_forall. intros p Hin. apply completed_as_order.
    now apply (proj1 (forallb_forall _ _) Hord). }
  assert (Hread1 : fst (getSubstations w') = inr (JArr l1)).
  { unfold getSubstations, substationsPath.
    rewrite (readJsonFile_stored substations_json w' (stringify2 (JArr l1))
               (JArr l1)); try assumption; [reflexivity|].
    unfold stringify2.
    rewrite parse_serialize_written by (assumption || reflexivity).
    now rewrite written_finite_id. }
  destruct (handleReopenSubstation_success confirm' complete w' sub l1)
    as (w'' & E2 & _ & Hst2 & Hp2); try assumption.
  rewrite E2. cbn [snd]. fold s in Hst2.
  split; [|split; [|split]].
  - rewrite Hst2. unfold l1. now rewrite map_map.
  - now rewrite Hp2.
  - intros p Hp. now rewrite completed_as_other, reopened_other.
  - intros members Hm.
    destruct (completed_as_record s t members Hm)
      as (m1 & E & Hc & Ht & Hk).
    rewrite E.
    assert (Hm1 : property_eq "id" s (JObj m1) = true).
    { rewrite <- E, completed_as_id. exact Hm. }
    destruct (reopened_record s m1 Hm1) as (m2 & E' & Hc' & Hk').
    exists m2. split; [exact E'|]. split; [exact Hc'|]. split.
    + rewrite Hk' by discriminate. exact Ht.
    + intros key H1 H2. rewrite Hk' by exact H1. now apply Hk.
Qed.

End WithNumbers.

(** ** Examples, with integer numbers *)

Import IntegerNumbers IntegerNumbersProofs Examples MoreExamples DialogExamples.

Ltac by_evaluation := first [reflexivity | exact I].

Lemma confirmed_delete_removes_the_records_with_the_id_witness :
  let '(out, st', w') := handleDeletePolygon yes editing_p1 one_polygon_stored in
  out = [ request "GET" "/api/polygons";
          request "POST" "/api/polygons";
          deleted_toast (js "Recloser") ]
  /\ stored component_polygons_json w' = Some (js "[]")
  /\ st' = inr (close (with_polygons editing_p1 [])).
Proof.
  assert (H2 : startsWith (js "p1") (js "temp-") = false) by by_evaluation.
  assert (H3 : no_faults one_polygon_stored) by (now apply quiet_no_faults).
  assert (H4 : fst (getComponentPolygons one_polygon_stored) = inr (JArr [p1]))
    by by_evaluation.
  assert (H5 : finite_numbers (JArr [p1]) = true) by by_evaluation.
  assert (H6 : forallb not_null [p1] = true) by by_evaluation.
  assert (H7 : existsb (property_eq "id" (js "p1")) [p1] = true)
    by by_evaluation.
  pose proof (confirmed_delete_removes_the_records_with_the_id
                yes editing_p1 one_polygon_stored _ [p1]
                eq_refl eq_refl H2 eq_refl H3 H4 H5 H6 H7) as H.
  destruct (handleDeletePolygon yes editing_p1 one_polygon_stored)
    as [[out st'] w'].
  destruct H as (Hout & Hst & _ & Hshown).
  split; [exact Hout|]. split; [rewrite Hst; reflexivity|].
  rewrite (Hshown eq_refl). reflexivity.
Defined.

Lemma delete_of_unknown_polygon_changes_nothing_witness :
  let '(out, st', w') := handleDeletePolygon yes editing_p9 one_polygon_stored in
  out = request "GET" "/api/polygons"
        :: delete_failed (Error (js "Polygon to delete not found in file."))
  /\ st' = inr editing_p9
  /\ (forall f, stored f w' = stored f one_polygon_stored).
Proof.
  assert (H2 : startsWith (js "p9") (js "temp-") = false) by by_evaluation.
  assert (H4 : fst (getComponentPolygons one_polygon_stored) = inr (JArr [p1]))
    by by_evaluation.
  assert (H5 : finite_numbers (JArr [p1]) = true) by by_evaluation.
  assert (H6 : forallb not_null [p1] = true) by by_evaluation.
  assert (H7 : existsb (property_eq "id" (js "p9")) [p1] = false)
    by by_evaluation.
  exact (delete_of_unknown_polygon_changes_nothing
           yes editing_p9 one_polygon_stored _ [p1]
           eq_refl eq_refl H2 eq_refl H4 H5 H6 H7).
Defined.

Lemma reopen_clears_completed_of_the_substation_witness :
  let '(out, refresh, w') :=
    handleReopenSubstation yes editing_p1 two_substations_stored in
  refresh = true
  /\ stored substations_json w'
     = Some (stringify2
               (JArr [ JObj [ (js "id", JStr (js "s1"));
                              (js "completed", JBool false);
                              (js "created_at", JStr (js "2024-01-01T00:00:00Z")) ];
                       s2_completed ]))
  /\ stored component_polygons_json w' = Some (stringify2 one_polygon).
Proof.
  assert (H3 : no_faults two_substations_stored) by (now apply quiet_no_faults).
  assert (H4 : fst (getSubstations two_substations_stored)
               = inr (JArr [s1_completed; s2_completed])) by by_evaluation.
  assert (H5 : finite_numbers (JArr [s1_completed; s2_completed]) = true)
    by by_evaluation.
  assert (H6 : forallb not_null [s1_completed; s2_completed] = true)
    by by_evaluation.
  assert (H7 : existsb (property_eq "id" (js "s1")) [s1_completed; s2_completed]
               = true) by by_evaluation.
  pose proof (reopen_clears_completed_of_the_substation
                yes editing_p1 two_substations_stored substation_s1 _
                eq_refl eq_refl H3 H4 H5 H6 H7) as H.
  destruct (handleReopenSubstation yes editing_p1 two_substations_stored)
    as [[out refresh] w'].
  destruct H as (_ & Hr & Hst & Hp & _).
  split; [exact Hr|]. split; [rewrite Hst; reflexivity|].
  rewrite Hp. reflexivity.
Defined.

Lemma fetched_polygons_belong_to_the_substation_witness :
  let '(out, st', w') :=
    fetchComponentPolygons (js "s1") drawing_fuse one_polygon_stored in
  out = [request "GET" "/api/polygons"] /\ componentPolygons st' = [p1].
Proof.
  pose proof (fetched_polygons_belong_to_the_substation
                (js "s1") drawing_fuse one_polygon_stored) as H.
  destruct (fetchComponentPolygons (js "s1") drawing_fuse one_polygon_stored)
    as [[out st'] w'].
  destruct H as (_ & _ & _ & _ & _ & H).
  assert (H4 : fst (getComponentPolygons one_polygon_stored) = inr (JArr [p1]))
    by by_evaluation.
  destruct (H [p1] H4 eq_refl eq_refl) as [H1 H2].
  split; [exact H1|]. rewrite H2. reflexivity.
Defined.

Lemma delete_writes_only_through_its_POST_witness :
  let '(out, st', w') :=
    handleDeletePolygon yes drawing_fuse one_polygon_stored in
  out = [] /\ w' = one_polygon_stored /\ st' = inr (close drawing_fuse).
Proof.
  pose proof (delete_writes_only_through_its_POST
                yes drawing_fuse one_polygon_stored) as H.
  destruct (handleDeletePolygon yes drawing_fuse one_polygon_stored)
    as [[out st'] w'].
  destruct H as (_ & _ & _ & H & _).
  destruct (H _ eq_refl eq_refl) as (H1 & H2 & H3).
  split; [exact H1|]. split; [exact H2|]. rewrite H3. reflexivity.
Defined.

Lemma reopen_never_touches_the_polygons_witness :
  handleReopenSubstation (fun _ => false) editing_p1 two_substations_stored
  = ([], false, two_substations_stored).
Proof.
  pose proof (reopen_never_touches_the_polygons
                (fun _ => false) editing_p1 two_substations_stored) as H.
  destruct (handleReopenSubstation (fun _ => false) editing_p1
              two_substations_stored) as [[out refresh] w'].
  destruct H as (_ & _ & _ & H & _).
  destruct (H _ eq_refl eq_refl) as (-> & -> & ->). reflexivity.
Defined.

Lemma completed_substation_is_stored_with_a_type_witness :
  let '(out, st', refresh, w') :=
    AnnotateTab.handleCompleteSubstation yes typing_other
      open_substation_stored in
  refresh = true
  /\ stored substations_json w'
     = Some (stringify2
               (JArr [ JObj [ (js "id", JStr (js "s1"));
                              (js "completed", JBool true);
                              (js "created_at", JStr (js "2024-01-01T00:00:00Z"));
                              (js "substation_type",
                               JStr (js "Switching station")) ];
                       s2_completed ]))
  /\ stored component_polygons_json w' = Some (stringify2 one_polygon).
Proof.
  assert (H1 : is_empty (AnnotateTab.substationType typing_other)
               || (jsstring_eqb (AnnotateTab.substationType typing_other)
                     (js "Other")
                   && is_empty (trim (AnnotateTab.substationOtherText
                                        typing_other))) = false)
    by by_evaluation.
  assert (H3 : no_faults open_substation_stored) by (now apply quiet_no_faults).
  assert (H4 : fst (getSubstations open_substation_stored)
               = inr (JArr [s1_open; s2_completed])) by by_evaluation.
  assert (H5 : finite_numbers (JArr [s1_open; s2_completed]) = true)
    by by_evaluation.
  assert (H6 : forallb not_null [s1_open; s2_completed] = true)
    by by_evaluation.
  assert (H7 : existsb (property_eq "id" (js "s1")) [s1_open; s2_completed]
               = true) by by_evaluation.
  pose proof (completed_substation_is_stored_with_a_type
                yes typing_other open_substation_stored substation_s1 _
                eq_refl H1 eq_refl H3 H4 H5 H6 H7) as H.
  destruct (AnnotateTab.handleCompleteSubstation yes typing_other
              open_substation_stored) as [[[out st'] refresh] w'].
  destruct H as (_ & _ & Hr & Hst & Hp & _).
  split; [exact Hr|]. split; [rewrite Hst; reflexivity|].
  rewrite Hp. reflexivity.
Defined.

Lemma reopen_after_complete_keeps_the_type_witness :
  let w1 := snd (AnnotateTab.handleCompleteSubstation yes typing_other
                   open_substation_stored) in
  let w2 := snd (handleReopenSubstation yes editing_p1 w1) in
  stored substations_json w2
  = Some (stringify2
            (JArr [ JObj [ (js "id", JStr (js "s1"));
                           (js "completed", JBool false);
                           (js "created_at", JStr (js "2024-01-01T00:00:00Z"));
                           (js "substation_type",
                            JStr (js "Switching station")) ];
                    s2_completed ])).
Proof.
  assert (H1 : is_empty (AnnotateTab.substationType typing_other)
               || (jsstring_eqb (AnnotateTab.substationType typing_other)
                     (js "Other")
                   && is_empty (trim (AnnotateTab.substationOtherText
                                        typing_other))) = false)
    by by_evaluation.
  assert (H3 : no_faults open_substation_stored) by (now apply quiet_no_faults).
  assert (H4 : fst (getSubstations open_substation_stored)
               = inr (JArr [s1_open; s2_completed])) by by_evaluation.
  assert (H5 : finite_numbers (JArr [s1_open; s2_completed]) = true)
    by by_evaluation.
  assert (H6 : forallb not_null [s1_open; s2_completed] = true)
    by by_evaluation.
  assert (H7 : existsb (property_eq "id" (js "s1")) [s1_open; s2_completed]
               = true) by by_evaluation.
  pose proof (reopen_after_complete_keeps_the_type
                yes yes typing_other editing_p1 open_substation_stored
                substation_s1 _
                eq_refl eq_refl H1 eq_refl eq_refl H3 H4 H5 H6 H7) as H.
  cbv zeta in *.
  destruct H as (Hst & _). rewrite Hst. reflexivity.
Defined.

End HandlersProofs.
(* ================================================================== *)
(** * The CSV export loses no field *)
(* ================================================================== *)

Module DownloadTabProofs.
Import Json DownloadTab JsonProofs.
Local Open Scope N_scope.
Local Open Scope list_scope.

Lemma unquoted_cons c str :
  unquoted (c :: str) <-> (c <> 44 /\ c <> 10 /\ c <> 34) /\ unquoted str.
Proof.
  unfold unquoted, includes. cbn [existsb].
  rewrite !orb_false_iff, !N.eqb_neq. intuition congruence.
Qed.

Lemma unquoted_unique str : forall str' rest rest',
  unquoted str -> unquoted str' -> boundary rest -> boundary rest' ->
  str ++ rest = str' ++ rest' -> str = str' /\ rest = rest'.
Proof.
  induction str as [|c str IH]; intros [|c' str'] rest rest' Hp Hp' Hb Hb' E.
  - now split.
  - simpl in E. subst rest. apply unquoted_cons in Hp' as [(? & ? & ?) _].
    destruct Hb; congruence.
  - simpl in E. subst rest'. apply unquoted_cons in Hp as [(? & ? & ?) _].
    destruct Hb'; congruence.
  - simpl in E. injection E as -> E.
    apply unquoted_cons in Hp as [_ Hp]. apply unquoted_cons in Hp' as [_ Hp'].
    destruct (IH str' rest rest' Hp Hp' Hb Hb' E) as [-> ->]. now split.
Qed.

Lemma double_quotes_cons c str :
  double_quotes (c :: str)
  = (if c =? 34 then [34; 34] else [c]) ++ double_quotes str.
Proof. reflexivity. Qed.

Lemma quoted_unique str : forall str' rest rest',
  boundary rest -> boundary rest' ->
  double_quotes str ++ 34 :: rest = double_quotes str' ++ 34 :: rest' ->
  str = str' /\ rest = rest'.
Proof.
  induction str as [|c str IH]; intros [|c' str'] rest rest' Hb Hb' E.
  - simpl in E. injection E as E. now split.
  - rewrite double_quotes_cons in E. simpl in E.
    destruct (N.eqb_spec c' 34) as [->|Hc'].
    + simpl in E. injection E as E. subst rest. destruct Hb; discriminate.
    + simpl in E. injection E as E _. congruence.
  - rewrite double_quotes_cons in E. simpl in E.
    destruct (N.eqb_spec c 34) as [->|Hc].
    + simpl in E. injection E as E. subst rest'. destruct Hb'; discriminate.
    + simpl in E. injection E as E _. congruence.
  - rewrite !double_quotes_cons in E.
    destruct (N.eqb_spec c 34) as [->|Hc], (N.eqb_spec c' 34) as [->|Hc'];
      simpl in E.
    + injection E as E.
      destruct (IH str' rest rest' Hb Hb' E) as [-> ->]. now split.
    + injection E as E _. congruence.
    + injection E as E _. congruence.
    + injection E as -> E.
      destruct (IH str' rest rest' Hb Hb' E) as [-> ->]. now split.
Qed.

Lemma not_unquoted_not_empty str : ~ unquoted str -> str <> [].
Proof. intros H ->. now apply H. Qed.

(** A field can be read back from the front of a text. *)
Lemma field_unique f f' rest rest' :
  boundary rest -> boundary rest' ->
  escapeCsv f ++ rest = escapeCsv f' ++ rest' -> f = f' /\ rest = rest'.
Proof.
  intros Hb Hb'. unfold escapeCsv.
  destruct f as [str|], f' as [str'|].
  - destruct (includes str 44 || includes str 10 || includes str 34) eqn:Hs,
             (includes str' 44 || includes str' 10 || includes str' 34) eqn:Hs'.
    + simpl. rewrite <- !app_assoc. simpl. intros E. injection E as E.
      destruct (quoted_unique _ _ _ _ Hb Hb' E) as [-> ->]. now split.
    + destruct str' as [|c' str'].
      * simpl. intros <-. destruct Hb'; discriminate.
      * apply unquoted_cons in Hs' as [(_ & _ & H) _].
        simpl. intros E. injection E as E _. congruence.
    + destruct str as [|c str].
      * simpl. intros ->. destruct Hb; discriminate.
      * apply unquoted_cons in Hs as [(_ & _ & H) _].
        simpl. intros E. injection E as E _. congruence.
    + intros E.
      destruct (unquoted_unique _ _ _ _ Hs Hs' Hb Hb' E) as [-> ->]. now split.
  - destruct (includes str 44 || includes str 10 || includes str 34) eqn:Hs.
    + simpl. rewrite <- app_assoc. simpl. intros E. injection E as E.
      destruct (quoted_unique str [] rest rest' Hb Hb' E) as [-> _].
      discriminate Hs.
    + destruct str as [|c str].
      * simpl. intros ->. destruct Hb; discriminate.
      * apply unquoted_cons in Hs as [(_ & _ & H) _].
        simpl. intros E. injection E as E _. congruence.
  - destruct (includes str' 44 || includes str' 10 || includes str' 34) eqn:Hs'.
    + simpl. rewrite <- app_assoc. simpl. intros E. injection E as E.
      destruct (quoted_unique [] str' rest rest' Hb Hb' E) as [<- _].
      discriminate Hs'.
    + destruct str' as [|c' str'].
      * simpl. intros <-. destruct Hb'; discriminate.
      * apply unquoted_cons in Hs' as [(_ & _ & H) _].
        simpl. intros E. injection E as E _. congruence.
  - simpl. intros E. injection E as E. now split.
Qed.

(** The fields of a row can be read back from the front of a text. *)
Lemma fields_unique fs : forall fs' rest rest',
  fs <> [] -> List.length fs = List.length fs' ->
  match rest with [] => True | c :: _ => c = 10 end ->
  match rest' with [] => True | c :: _ => c = 10 end ->
  join (js ",") (List.map escapeCsv fs) ++ rest
  = join (js ",") (List.map escapeCsv fs') ++ rest' ->
  fs = fs' /\ rest = rest'.
Proof.
  induction fs as [|f fs IH]; intros [|f' fs'] rest rest' Hne Hlen Hb Hb' E;
    try discriminate Hlen; [now destruct Hne|].
  destruct fs as [|g fs], fs' as [|g' fs']; try discriminate Hlen.
  - simpl in E.
    destruct (field_unique f f' rest rest') as [-> ->]; try assumption.
    + destruct rest; [exact I | now right].
    + destruct rest'; [exact I | now right].
    + now split.
  - simpl List.map in E. rewrite !join_two in E.
    rewrite <- !app_assoc in E.
    change (js ",") with [44] in E. simpl app in E.
    apply field_unique in E as [-> E']; [|now left|now left].
    injection E' as E'.
    destruct (IH (g' :: fs') rest rest') as [H ->]; try assumption.
    + discriminate.
    + simpl in Hlen |- *. congruence.
    + now rewrite H.
Qed.

Section Rows.
Variable geometry : Type.
Variable wkt : geometry -> jsstring.

Lemma lines_after_cons (ann : Annotation geometry) annotations :
  lines_after wkt (ann :: annotations)
  = 10 :: row wkt ann ++ lines_after wkt annotations.
Proof.
  unfold lines_after. destruct annotations as [|b l].
  - simpl. now rewrite app_nil_r.
  - simpl List.map. now rewrite join_two.
Qed.

Lemma lines_after_boundary (annotations : list (Annotation geometry)) :
  match lines_after wkt annotations with [] => True | c :: _ => c = 10 end.
Proof. now destruct annotations. Qed.

Lemma csv_lines (annotations : list (Annotation geometry)) :
  csv wkt annotations = join (js ",") header ++ lines_after wkt annotations.
Proof.
  unfold csv, lines_after. destruct annotations as [|a l].
  - simpl join at 1. now rewrite app_nil_r.
  - simpl List.map. now rewrite join_two.
Qed.

Lemma lines_unique (annotations : list (Annotation geometry)) :
  forall annotations',
    lines_after wkt annotations = lines_after wkt annotations' ->
    List.map (fields wkt) annotations = List.map (fields wkt) annotations'.
Proof.
  induction annotations as [|a l IH]; intros [|a' l'] E.
  - reflexivity.
  - rewrite lines_after_cons in E. discriminate E.
  - rewrite lines_after_cons in E. discriminate E.
  - rewrite !lines_after_cons in E. injection E as E.
    destruct (fields_unique (fields wkt a) (fields wkt a')
                (lines_after wkt l) (lines_after wkt l')) as [H E'].
    + discriminate.
    + reflexivity.
    + apply lines_after_boundary.
    + apply lines_after_boundary.
    + exact E.
    + simpl List.map. rewrite H. f_equal. now apply IH.
Qed.

(** X27: the CSV export of [handleDownloadCSV] loses no field.  Two
    lists of annotations that get the same CSV text have the same
    number of rows and, row by row, the same eight fields (the id,
    the substation ids, the label, the additional information, the
    annotator, the date and the text of the geometry), a field
    that is null or undefined being told from every string, the
    empty one too.  So commas, quotes and line feeds inside a field
    never move a field or a row boundary. *)
Theorem csv_export_loses_no_field :
  forall annotations annotations' : list (Annotation geometry),
    csv wkt annotations = csv wkt annotations' ->
    List.map (fields wkt) annotations = List.map (fields wkt) annotations'.
Proof.
  intros annotations annotations' E. rewrite !csv_lines in E.
  apply app_inv_head in E. now apply lines_unique.
Qed.

End Rows.

(** ** An example: two geometries with the same text *)

Lemma csv_export_loses_no_field_witness :
  let wkt := fun _ : bool => js "POINT(1 2)" in
  let drawn geometry :=
    mkAnnotation (js "p1") (Some (js "s1")) None (js "Other")
      (Some (34 :: js "spare" ++ 34 :: js ", 12 kV" ++ [10] ++ js "west"))
      (Some []) (js "2024-01-01T00:00:00Z") geometry in
  csv wkt [drawn true] = csv wkt [drawn false]
  /\ List.map (fields wkt) [drawn true] = List.map (fields wkt) [drawn false].
Proof.
  intros wkt drawn.
  assert (H : csv wkt [drawn true] = csv wkt [drawn false]) by reflexivity.
  split; [exact H|].
  exact (csv_export_loses_no_field bool wkt [drawn true] [drawn false] H).
Defined.

End DownloadTabProofs.
